(** * The merlin vim client (vim/autoload/merlin.py)

    A shallow embedding of the protocol client, the buffer synchronisation,
    the enclosing-type navigator and the highlight matchers of
    [vim/autoload/merlin.py], with the properties the specification states
    about them.

    The Python module keeps its state in globals ([flags], [mainpipe],
    [saved_sync], [enclosing_types], [current_enclosing]) and talks to three
    outside parties: the [ocamlmerlin] subprocess, the editor ([vim],
    [vimbufsync]) and the terminal ([print]).  Here the globals, the editor
    and everything the module writes are the fields of one record [World];
    a function of the module is a computation in the monad [M], which passes
    the world along and returns a value, raises a Python exception, or runs
    out of the fuel given to the one [while] loop of the module. *)

From Stdlib Require Import ZArith List String Ascii Bool Lia.
From Stdlib Require Import DecimalString.
From Stdlib Require Sorted OrderedTypeEx.
Import ListNotations.

Local Open Scope string_scope.
Local Open Scope Z_scope.

(** ** Python values, as [json.loads] builds them *)

#[local] Set Warnings "-register-all".

Inductive value : Type :=
| VNone
| VBool (b : bool)
| VInt (z : Z)
| VStr (s : string)
| VList (l : list value)
| VDict (kv : list (string * value)).

(** Truth value of an object in a condition ([if x], [not x]). *)
Definition py_truthy (v : value) : bool :=
  match v with
  | VNone => false
  | VBool b => b
  | VInt z => negb (z =? 0)
  | VStr s => negb (String.eqb s "")
  | VList l => match l with [] => false | _ :: _ => true end
  | VDict kv => match kv with [] => false | _ :: _ => true end
  end.

(** [v == "tag"] for a string literal. *)
Definition is_str (tag : string) (v : value) : bool :=
  match v with
  | VStr s => String.eqb s tag
  | _ => false
  end.

(** [v == []] and [v != []]. *)
Definition is_empty_list (v : value) : bool :=
  match v with
  | VList [] => true
  | _ => false
  end.

(** The newline character and the double quote, which string literals of
    this file do not hold. *)
Definition nl : string := String (ascii_of_nat 10) EmptyString.
Definition dq : string := String (ascii_of_nat 34) EmptyString.

(** Normalisation of one bound of a slice [s[lo:hi]] over a sequence of
    length [len]: a negative bound counts from the end, and the result is
    clamped to [0..len]. *)
Definition slice_bound (len i : Z) : Z :=
  let j := if i <? 0 then i + len else i in
  Z.max 0 (Z.min len j).

(** [l[lo:hi]] *)
Definition py_slice {A : Type} (l : list A) (lo hi : Z) : list A :=
  let len := Z.of_nat (List.length l) in
  let a := slice_bound len lo in
  let b := slice_bound len hi in
  firstn (Z.to_nat (b - a)) (skipn (Z.to_nat a) l).

(** [l[:hi]] and [l[lo:]] *)
Definition py_slice_to {A : Type} (l : list A) (hi : Z) : list A :=
  py_slice l 0 hi.

Definition py_slice_from {A : Type} (l : list A) (lo : Z) : list A :=
  py_slice l lo (Z.of_nat (List.length l)).

(** [s[col:]] on a string. *)
Definition str_slice_from (s : string) (col : Z) : string :=
  string_of_list_ascii (py_slice_from (list_ascii_of_string s) col).

(** [sep.join(l)] *)
Definition join (sep : string) (l : list string) : string :=
  String.concat sep l.

(** ["{0}".format(n)] for an integer. *)
Definition fmt_int (z : Z) : string :=
  NilZero.string_of_int (Z.to_int z).

(** [os.path.basename]: what follows the last slash. *)
Fixpoint basename_aux (acc : string) (s : string) : string :=
  match s with
  | EmptyString => acc
  | String c r =>
      if Ascii.eqb c "/"%char then basename_aux r r
      else basename_aux acc r
  end.

Definition basename (p : string) : string := basename_aux p p.

(** ** Exceptions

    [Failure], [Error] and [MerlinException] are the three subclasses of
    [MerlinExc]; the others are the built-in exceptions the module can meet. *)

Inductive merlin_exc : Type :=
| Failure (v : value)
| Error (v : value)
| MerlinException (v : value).

Definition exc_value (e : merlin_exc) : value :=
  match e with
  | Failure v => v
  | Error v => v
  | MerlinException v => v
  end.

Inductive exn : Type :=
| MerlinExc (e : merlin_exc)
| IndexError
| KeyError
| TypeError
| OSError.

(** Result of running a function of the module: it returns, it raises, or
    the fuel of a loop is spent ([Timeout], which no [except] catches). *)
Inductive outcome (A : Type) : Type :=
| Ret (a : A)
| Raise (e : exn)
| Timeout.

Arguments Ret {A} a.
Arguments Raise {A} e.
Arguments Timeout {A}.

(** Strings hold text as UTF-8 bytes; the strings of a response are
    Python's strings of characters. A byte [10xxxxxx] continues the
    character that the byte before it belongs to; a character is a byte
    that does not continue one, with the bytes that continue it. *)
Definition continues (c : ascii) : bool :=
  (128 <=? nat_of_ascii c)%nat && (nat_of_ascii c <? 192)%nat.

Fixpoint take_continued (s : string) : string :=
  match s with
  | String c r =>
      if continues c then String c (take_continued r) else EmptyString
  | EmptyString => EmptyString
  end.

(** [s[:1]]: the first character of [s], or the empty string. *)
Definition first_char (s : string) : string :=
  match s with
  | EmptyString => EmptyString
  | String c r => String c (take_continued r)
  end.

(** The characters of [s]: the bytes at the front of [s] that continue a
    character begun before, and the characters after them. *)
Fixpoint chars_from (s : string) : string * list string :=
  match s with
  | EmptyString => (EmptyString, [])
  | String c r =>
      let (more, cs) := chars_from r in
      if continues c then (String c more, cs)
      else (EmptyString, String c more :: cs)
  end.

Definition py_chars (s : string) : list string :=
  let (more, cs) := chars_from s in
  match more with
  | EmptyString => cs
  | _ => more :: cs
  end.

(** Subscripting, [v[i]] with an integer and [v[k]] with a string key. *)
Definition py_index (v : value) (i : Z) : outcome value :=
  match v with
  | VList l =>
      let len := Z.of_nat (List.length l) in
      let j := if i <? 0 then i + len else i in
      if (j <? 0) || (len <=? j) then Raise IndexError
      else match nth_error l (Z.to_nat j) with
           | Some x => Ret x
           | None => Raise IndexError
           end
  | VStr s =>
      let len := Z.of_nat (List.length (py_chars s)) in
      let j := if i <? 0 then i + len else i in
      if (j <? 0) || (len <=? j) then Raise IndexError
      else match nth_error (py_chars s) (Z.to_nat j) with
           | Some c => Ret (VStr c)
           | None => Raise IndexError
           end
  | VDict _ => Raise KeyError
  | _ => Raise TypeError
  end.

Fixpoint assoc (k : string) (kv : list (string * value)) : option value :=
  match kv with
  | [] => None
  | (k', v) :: r => if String.eqb k k' then Some v else assoc k r
  end.

Definition py_key (v : value) (k : string) : outcome value :=
  match v with
  | VDict kv =>
      match assoc k kv with
      | Some x => Ret x
      | None => Raise KeyError
      end
  | _ => Raise TypeError
  end.

(** [len(v)] *)
Definition py_len (v : value) : outcome Z :=
  match v with
  | VList l => Ret (Z.of_nat (List.length l))
  | VStr s => Ret (Z.of_nat (List.length (py_chars s)))
  | VDict kv => Ret (Z.of_nat (List.length kv))
  | _ => Raise TypeError
  end.

(** An integer operand; the module only computes with the line and column
    numbers of positions, and any other object there is a [TypeError]. *)
Definition as_int (v : value) : outcome Z :=
  match v with
  | VInt z => Ret z
  | _ => Raise TypeError
  end.

(** A position object, [{'line' : line, 'col' : col}]. *)
Definition pos_obj (line col : Z) : value :=
  VDict [("line", VInt line); ("col", VInt col)].

(** ** The world *)

(** A command is the tuple [send_command] receives. *)
Definition command : Type := list value.

(** The [Popen] object: the flags the process was started with, the
    commands it has read so far, and whether [communicate] has collected its
    exit status. *)
Record Pipe : Type := mkPipe {
  pflags : list string;
  received : list command;
  exited : bool
}.

(** What [vimbufsync.sync()] returns. *)
Record Sync : Type := mkSync {
  bufnr : Z;
  rev : Z
}.

(** The editor, as the module reads it: [vim.current.buffer] (its lines and
    its name), [vim.current.window.cursor], the object a call of
    [vimbufsync.sync()] returns now, and the [pos()] of such an object. *)
Record Editor : Type := mkEditor {
  cb : list string;
  cb_name : string;
  cursor : Z * Z;
  bufsync : Sync;
  sync_pos : Sync -> Z * Z
}.

(** What the module shows: [print], [sys.stdout.write], [vim.command]. *)
Inductive event : Type :=
| Print (s : string)
| Write (s : string)
| VimCommand (s : string).

Record World : Type := mkWorld {
  flags : list string;
  mainpipe : option Pipe;
  saved_sync : option Sync;
  enclosing_types : value;
  current_enclosing : Z;
  editor : Editor;
  sent : list command;
  spawned : list (list string);
  output : list event
}.

Definition set_flags (f : list string) (w : World) : World :=
  mkWorld f (mainpipe w) (saved_sync w) (enclosing_types w)
    (current_enclosing w) (editor w) (sent w) (spawned w) (output w).

Definition set_mainpipe (p : option Pipe) (w : World) : World :=
  mkWorld (flags w) p (saved_sync w) (enclosing_types w)
    (current_enclosing w) (editor w) (sent w) (spawned w) (output w).

Definition set_saved_sync (s : option Sync) (w : World) : World :=
  mkWorld (flags w) (mainpipe w) s (enclosing_types w)
    (current_enclosing w) (editor w) (sent w) (spawned w) (output w).

Definition set_enclosing_types (v : value) (w : World) : World :=
  mkWorld (flags w) (mainpipe w) (saved_sync w) v
    (current_enclosing w) (editor w) (sent w) (spawned w) (output w).

Definition set_current_enclosing (i : Z) (w : World) : World :=
  mkWorld (flags w) (mainpipe w) (saved_sync w) (enclosing_types w)
    i (editor w) (sent w) (spawned w) (output w).

Definition add_sent (c : command) (w : World) : World :=
  mkWorld (flags w) (mainpipe w) (saved_sync w) (enclosing_types w)
    (current_enclosing w) (editor w) (sent w ++ [c]) (spawned w) (output w).

Definition add_spawned (f : list string) (w : World) : World :=
  mkWorld (flags w) (mainpipe w) (saved_sync w) (enclosing_types w)
    (current_enclosing w) (editor w) (sent w) (spawned w ++ [f]) (output w).

Definition add_output (e : event) (w : World) : World :=
  mkWorld (flags w) (mainpipe w) (saved_sync w) (enclosing_types w)
    (current_enclosing w) (editor w) (sent w) (spawned w) (output w ++ [e]).

(** The state of the module when it has just been loaded. *)
Definition initial (ed : Editor) : World :=
  mkWorld [] None None (VList []) (-1) ed [] [] [].

(** ** The monad of the module's functions *)

Definition M (A : Type) : Type := World -> outcome A * World.

Definition ret {A : Type} (a : A) : M A := fun w => (Ret a, w).

Definition raise {A : Type} (e : exn) : M A := fun w => (Raise e, w).

Definition timeout {A : Type} : M A := fun w => (Timeout, w).

Definition bind {A B : Type} (m : M A) (k : A -> M B) : M B :=
  fun w =>
    match m w with
    | (Ret a, w') => k a w'
    | (Raise e, w') => (Raise e, w')
    | (Timeout, w') => (Timeout, w')
    end.

Notation "x <- m ;; k" := (bind m (fun x => k))
  (at level 61, m at next level, right associativity).
Notation "m ;;; k" := (bind m (fun _ => k))
  (at level 61, right associativity).

(** A pure computation that may raise. *)
Definition lift {A : Type} (o : outcome A) : M A := fun w => (o, w).

Definition get {A : Type} (f : World -> A) : M A := fun w => (Ret (f w), w).

Definition modify (f : World -> World) : M unit := fun w => (Ret tt, f w).

(** [try: m  except MerlinExc as e: h e] *)
Definition try_merlin {A : Type} (m : M A) (h : merlin_exc -> M A) : M A :=
  fun w =>
    match m w with
    | (Raise (MerlinExc e), w') => h e w'
    | r => r
    end.

Definition print (s : string) : M unit := modify (add_output (Print s)).
Definition stdout_write (s : string) : M unit := modify (add_output (Write s)).
Definition vim_command (s : string) : M unit :=
  modify (add_output (VimCommand s)).

(** ** Highlight matchers *)

(** A decoded position object. *)
Record Position : Type := mkPos {
  pos_line : Z;
  pos_col : Z
}.

Definition easy_matcher (start stop : Position) : string :=
  let startl :=
    if 0 <? pos_line start
    then "\%>" ++ fmt_int (pos_line start - 1) ++ "l"
    else "" in
  let startc :=
    if 0 <? pos_col start
    then "\%>" ++ fmt_int (pos_col start) ++ "c"
    else "" in
  startl ++ startc ++ "\%<" ++ fmt_int (pos_line stop + 1) ++ "l\%<"
  ++ fmt_int (pos_col stop + 1) ++ "c".

Definition hard_matcher (start stop : Position) : string :=
  let first_start := mkPos (pos_line start) (pos_col start) in
  let first_stop := mkPos (pos_line start) 4242 in
  let first_line := easy_matcher first_start first_stop in
  let mid_start := mkPos (pos_line start + 1) 0 in
  let mid_stop := mkPos (pos_line stop - 1) 4242 in
  let middle := easy_matcher mid_start mid_stop in
  let last_start := mkPos (pos_line stop) 0 in
  let last_stop := mkPos (pos_line stop) (pos_col stop) in
  let last_line := easy_matcher last_start last_stop in
  first_line ++ "\|" ++ middle ++ "\|" ++ last_line.

Definition make_matcher (start stop : Position) : string :=
  if pos_line start =? pos_line stop
  then easy_matcher start stop
  else hard_matcher start stop.

(** What the atoms of such a pattern mean to Vim: [\%>Nl] matches below
    line [N] and [\%<Nl] above it, [\%>Nc] matches after column [N] and
    [\%<Nc] before it. A branch of the pattern is a conjunction of atoms, a
    region of the text: optional strict lower bounds and strict upper bounds
    on the line and on the column. *)
Record Region : Type := mkRegion {
  line_above : option Z;
  col_above : option Z;
  line_below : Z;
  col_below : Z
}.

(** The branch as text. *)
Definition show_region (r : Region) : string :=
  match line_above r with
  | Some n => "\%>" ++ fmt_int n ++ "l"
  | None => ""
  end
  ++ match col_above r with
     | Some n => "\%>" ++ fmt_int n ++ "c"
     | None => ""
     end
  ++ "\%<" ++ fmt_int (line_below r) ++ "l\%<" ++ fmt_int (col_below r) ++ "c".

(** Whether the character at line [l], column [c] is in the region. *)
Definition in_region (r : Region) (l c : Z) : bool :=
  match line_above r with Some n => n <? l | None => true end
  && match col_above r with Some n => n <? c | None => true end
  && (l <? line_below r) && (c <? col_below r).

(** [l[i]] on a list, as Python indexes it. *)
Definition list_index {A : Type} (l : list A) (i : Z) : outcome A :=
  let len := Z.of_nat (List.length l) in
  let j := if i <? 0 then i + len else i in
  if (j <? 0) || (len <=? j) then Raise IndexError
  else match nth_error l (Z.to_nat j) with
       | Some x => Ret x
       | None => Raise IndexError
       end.

(** Whether an optional string argument counts as given ([if expr:]). *)
Definition given (s : option string) : bool :=
  match s with
  | Some x => negb (String.eqb x "")
  | None => false
  end.

(** ** The module *)

Section Client.

(** The outside of the module: whether [subprocess.Popen] can start
    [ocamlmerlin] with given flags; the line a subprocess started with given
    flags answers once it has read given commands (the last of them being
    the one just sent), parsed by [json.loads] into its array; [repr] of a
    value; and [re.search], which gives the groups of the first match. *)
Variable popen_ok : list string -> bool.
Variable subprocess : list string -> list command -> list value.
Variable py_repr : value -> string.
Variable re_search : string -> string -> option (nat -> string).

(** [str(v)], as [print] and [+] on strings use it. *)
Definition py_str (v : value) : string :=
  match v with
  | VStr s => s
  | _ => py_repr v
  end.

(** *** Communication *)

Definition spawn_failed : string :=
  "Failed to execute ocamlmerlin. Please ensure that ocamlmerlin binary            is in path and is executable.".

Definition restart : M unit :=
  fun w =>
    let w1 :=
      match mainpipe w with
      | Some p => set_mainpipe (Some (mkPipe (pflags p) (received p) true)) w
      | None => w
      end in
    if popen_ok (flags w1)
    then (Ret tt,
          add_spawned (flags w1)
            (set_mainpipe (Some (mkPipe (flags w1) [] false)) w1))
    else (Raise OSError, add_output (Print spawn_failed) w1).

(** The part of [send_command] that follows [json.loads]. *)
Definition dispatch (result : list value) : outcome value :=
  let content :=
    if (Z.of_nat (List.length result) =? 2)
    then nth 1 result VNone
    else VNone in
  match result with
  | [] => Raise IndexError
  | tag :: _ =>
      if is_str "return" tag then Ret content
      else if is_str "failure" tag then Raise (MerlinExc (Failure content))
      else if is_str "error" tag then Raise (MerlinExc (Error content))
      else if is_str "exception" tag
           then Raise (MerlinExc (MerlinException content))
      else Ret VNone
  end.

Definition needs_restart (w : World) : bool :=
  match mainpipe w with
  | None => true
  | Some p => exited p
  end.

(** [send_command]. The subprocess is taken to answer every command that
    is written to it for as long as the module has not collected it: a
    process that ends by itself, so that the write to its pipe fails, has
    no counterpart in [subprocess]. *)
Definition send_command (cmd : command) : M value :=
  (fun w => if needs_restart w then restart w else (Ret tt, w)) ;;;
  fun w =>
    match mainpipe w with
    | None => (Raise TypeError, w)
    | Some p =>
        let p' := mkPipe (pflags p) (received p ++ [cmd]) (exited p) in
        (dispatch (subprocess (pflags p') (received p')),
         add_sent cmd (set_mainpipe (Some p') w))
    end.

(** The three patterns of [try_print_error], as the strings Python builds
    from the literals of the source. *)
Definition re_chunk_parser : string := "Chunk_parser.Error".
Definition re_not_found : string := "Not_found".
Definition re_no_such_package : string :=
  "Fl_package_base.No_such_package\(" ++ dq ++ "(([^" ++ dq ++ "]|\" ++ dq
  ++ ")*)" ++ dq ++ ", " ++ dq ++ "(([^" ++ dq ++ "]|\" ++ dq ++ ")*)" ++ dq
  ++ "\)".

(** [try_print_error(e, msg)] for an [e] of class [MerlinExc]. *)
Definition try_print_error (e : merlin_exc) (msg : option string) : M unit :=
  let given :=
    match msg with
    | Some m => negb (String.eqb m "")
    | None => false
    end in
  match e with
  | Error v =>
      if given then print (match msg with Some m => m | None => "" end)
      else m <- lift (py_key v "message") ;; print (py_str m)
  | _ =>
      if given then print (match msg with Some m => m | None => "" end)
      else
        let msg := py_repr (exc_value e) in
        match re_search re_chunk_parser msg with
        | Some _ => print "error: Cannot parse"
        | None =>
            match re_search re_not_found msg with
            | Some _ => print "error: Not found"
            | None =>
                match re_search re_no_such_package msg with
                | Some g =>
                    if negb (String.eqb (g 3%nat) "")
                    then print ("error: Unknown package '" ++ g 1%nat ++ "' ("
                                ++ g 3%nat ++ ")")
                    else print ("error: Unknown package '" ++ g 1%nat ++ "'")
                | None => print msg
                end
            end
        end
  end.

(** *** Basic commands *)

Definition command_reset (name : option string) : M value :=
  let named :=
    match name with
    | Some n => negb (String.eqb n "")
    | None => false
    end in
  r <- (if named
        then send_command [VStr "reset"; VStr "name";
                           VStr (match name with Some n => n | None => "" end)]
        else send_command [VStr "reset"]) ;;
  modify (set_saved_sync None) ;;;
  ret r.

(** [content] is a list of lines or [None]. *)
Definition tell_text (content : option (list string)) : value :=
  match content with
  | Some l => VStr (join nl l ++ nl)
  | None => VNone
  end.

Definition command_tell (kind : string) (content : option (list string))
  : M value :=
  send_command [VStr "tell"; VStr kind; tell_text content].

Definition command_seek (how : string) (line col : Z) : M (value * value) :=
  position <- send_command [VStr "seek"; VStr how; pos_obj line col] ;;
  l <- lift (py_key position "line") ;;
  c <- lift (py_key position "col") ;;
  ret (l, c).

Definition command_seek_before : Z -> Z -> M (value * value) :=
  command_seek "before".

Definition command_seek_exact : Z -> Z -> M (value * value) :=
  command_seek "exact".

(** *** Buffer synchronisation *)

(** The [while] loop of [sync_buffer_to]; [lines] is [cb]. *)
Fixpoint tell_loop (fuel : nat) (lines : list string) (max_line : Z)
  (kind : string) (content : option (list string)) (end_line : Z) : M unit :=
  match fuel with
  | O => timeout
  | S fuel' =>
      r <- command_tell kind content ;;
      if py_truthy r then ret tt
      else if end_line <? max_line then
        let next_end := Z.min max_line (end_line + 20) in
        tell_loop fuel' lines max_line "end"
          (Some (py_slice lines end_line next_end)) next_end
      else tell_loop fuel' lines max_line "end" None end_line
  end.

(** The branch of [sync_buffer_to] that resets and takes the buffer from its
    first line. *)
Definition sync_full (lines : list string) (name : string) (end_line : Z)
  : M (list string) :=
  command_reset (Some (basename name)) ;;;
  ret (py_slice_to lines end_line).

(** [this[col:]]: from the column [col] on; the whole line when [col] is
    null; a boolean counts as 0 or 1. *)
Definition py_tail (this : string) (col : value) : outcome string :=
  match col with
  | VNone => Ret this
  | VInt c => Ret (str_slice_from this c)
  | VBool b => Ret (str_slice_from this (if b then 1 else 0))
  | _ => Raise TypeError
  end.

(** The branch taken with a saved mark of the same buffer. *)
Definition sync_incremental (saved : Sync) (lines : list string)
  (name : string) (end_line : Z) : M (list string) :=
  p <- get (fun w => sync_pos (editor w) saved) ;;
  lc <- command_seek_before (fst p) (snd p) ;;
  line <- lift (as_int (fst lc)) ;;
  if line <=? 1 then sync_full lines name end_line
  else
    this <- lift (list_index lines (line - 1)) ;;
    rest <- lift (py_tail this (snd lc)) ;;
    ret (rest :: py_slice lines line end_line).

Definition sync_buffer_to (fuel : nat) (to_line to_col : Z) : M unit :=
  curr_sync <- get (fun w => bufsync (editor w)) ;;
  lines <- get (fun w => cb (editor w)) ;;
  name <- get (fun w => cb_name (editor w)) ;;
  let max_line := Z.of_nat (List.length lines) in
  let end_line := Z.min to_line max_line in
  saved <- get saved_sync ;;
  content <-
    match saved with
    | Some s =>
        if bufnr curr_sync =? bufnr s
        then sync_incremental s lines name end_line
        else sync_full lines name end_line
    | None => sync_full lines name end_line
    end ;;
  modify (set_saved_sync (Some curr_sync)) ;;;
  match content with
  | [] => ret tt
  | _ :: _ => tell_loop fuel lines max_line "struct" (Some content) end_line
  end ;;;
  command_seek_exact to_line to_col ;;;
  ret tt.

Definition sync_buffer (fuel : nat) : M unit :=
  c <- get (fun w => cursor (editor w)) ;;
  sync_buffer_to fuel (fst c) (snd c).

Definition sync_full_buffer (fuel : nat) : M unit :=
  n <- get (fun w => Z.of_nat (List.length (cb (editor w)))) ;;
  sync_buffer_to fuel n 0.

(** *** Type lookup *)

(** The body of [vim_type]; [handler] is what its [except] clause does. *)
Definition vim_type_with (handler : merlin_exc -> M unit) (fuel : nat)
  (expr : option string) (is_approx : bool) : M unit :=
  c <- get (fun w => cursor (editor w)) ;;
  let cmd_at := [VStr "at"; pos_obj (fst c) (snd c)] in
  sync_buffer_to fuel (fst c) (snd c) ;;;
  let cmd_expr :=
    match expr with
    | Some x => if given expr then [VStr "expression"; VStr x] else []
    | None => []
    end in
  try_merlin
    (ty <- send_command ([VStr "type"] ++ cmd_expr ++ cmd_at)%list ;;
     let ty :=
       match ty with
       | VDict kv =>
           match assoc "type" kv with
           | Some t => t
           | None => VStr (py_repr ty)
           end
       | _ => ty
       end in
     (if is_approx then stdout_write "(approx) " else ret tt) ;;;
     match expr with
     | Some x =>
         if given expr
         then match ty with
              | VStr t => print (x ++ " : " ++ t)
              | _ => raise TypeError
              end
         else print (py_str ty)
     | None => print (py_str ty)
     end)
    handler.

(** [vim_type(expr=None, is_approx)], whose handler prints the error. *)
Definition vim_type_plain (fuel : nat) (is_approx : bool) : M unit :=
  vim_type_with (fun e => try_print_error e None) fuel None is_approx.

Definition vim_type (fuel : nat) (expr : option string) (is_approx : bool)
  : M unit :=
  vim_type_with
    (fun e => if given expr then vim_type_plain fuel true
              else try_print_error e None)
    fuel expr is_approx.

(** *** Enclosing types *)

Definition decode_pos (v : value) : outcome Position :=
  match py_key v "line" with
  | Ret l =>
      match py_key v "col" with
      | Ret c =>
          match as_int l, as_int c with
          | Ret l', Ret c' => Ret (mkPos l' c')
          | Raise e, _ => Raise e
          | _, Raise e => Raise e
          | _, _ => Timeout
          end
      | Raise e => Raise e
      | Timeout => Timeout
      end
  | Raise e => Raise e
  | Timeout => Timeout
  end.

(** The last four lines of both steppers: show the frame at the current
    index. *)
Definition show_enclosing (vimvar : string) : M unit :=
  types <- get enclosing_types ;;
  i <- get current_enclosing ;;
  tmp <- lift (py_index types i) ;;
  s <- lift (py_key tmp "start") ;;
  e <- lift (py_key tmp "end") ;;
  start <- lift (decode_pos s) ;;
  stop <- lift (decode_pos e) ;;
  let matcher := make_matcher start stop in
  vim_command ("let " ++ vimvar ++ " = matchadd('EnclosingExpr', '"
               ++ matcher ++ "')") ;;;
  t <- lift (py_key tmp "type") ;;
  print (py_str t).

Definition vim_next_enclosing (vimvar : string) : M unit :=
  types <- get enclosing_types ;;
  if negb (is_empty_list types) then
    i <- get current_enclosing ;;
    n <- lift (py_len types) ;;
    (if i <? n then modify (set_current_enclosing (i + 1)) else ret tt) ;;;
    i <- get current_enclosing ;;
    if i <? n then show_enclosing vimvar else ret tt
  else ret tt.

Definition vim_prev_enclosing (vimvar : string) : M unit :=
  types <- get enclosing_types ;;
  if negb (is_empty_list types) then
    i <- get current_enclosing ;;
    (if 0 <=? i then modify (set_current_enclosing (i - 1)) else ret tt) ;;;
    i <- get current_enclosing ;;
    if 0 <=? i then show_enclosing vimvar else ret tt
  else ret tt.

Definition vim_type_enclosing (fuel : nat) (vimvar : string)
  (expr : option string) : M unit :=
  modify (set_enclosing_types (VList [])) ;;;
  modify (set_current_enclosing (-1)) ;;;
  c <- get (fun w => cursor (editor w)) ;;
  sync_buffer fuel ;;;
  try_merlin
    (result <- send_command [VStr "type"; VStr "enclosing";
                             pos_obj (fst c) (snd c)] ;;
     types <- lift (py_index result 1) ;;
     modify (set_enclosing_types types) ;;;
     if is_empty_list types
     then vim_type fuel expr true
     else vim_next_enclosing vimvar)
    (fun _ => vim_type fuel expr true).

(** *** Restarting *)


Definition vim_clear_flags : M unit :=
  modify (set_flags []) ;;;
  restart.

Definition vim_add_flags (args : list string) : M unit :=
  modify (fun w => set_flags (flags w ++ args)%list w) ;;;
  restart.

(** *** Vocabulary of the statements *)

(** The pipe [send_command] writes to: the running one, or the one it
    starts when none runs; [None] when [ocamlmerlin] cannot be started. *)
Definition live_pipe (w : World) : option Pipe :=
  if needs_restart w
  then if popen_ok (flags w) then Some (mkPipe (flags w) [] false) else None
  else mainpipe w.

(** The parsed line the subprocess answers when [cmd] is sent in [w]. *)
Definition response (w : World) (cmd : command) : option (list value) :=
  match live_pipe w with
  | Some p => Some (subprocess (pflags p) (received p ++ [cmd]))
  | None => None
  end.

(** The part of [sync_buffer_to] that chooses what to feed. *)
Definition sync_pick (to_line : Z) (w : World) : M (list string) :=
  let lines := cb (editor w) in
  let name := cb_name (editor w) in
  let end_line := Z.min to_line (Z.of_nat (List.length lines)) in
  match saved_sync w with
  | Some s =>
      if bufnr (bufsync (editor w)) =? bufnr s
      then sync_incremental s lines name end_line
      else sync_full lines name end_line
  | None => sync_full lines name end_line
  end.

(** The part that follows: record the mark, feed, seek. *)
Definition sync_feed (fuel : nat) (to_line to_col : Z) (w : World)
  (content : list string) : M unit :=
  let lines := cb (editor w) in
  let max_line := Z.of_nat (List.length lines) in
  modify (set_saved_sync (Some (bufsync (editor w)))) ;;;
  match content with
  | [] => ret tt
  | _ :: _ =>
      tell_loop fuel lines max_line "struct"
        (Some content) (Z.min to_line max_line)
  end ;;;
  command_seek_exact to_line to_col ;;;
  ret tt.

(** The two steppers, as the user calls them one after the other: each call
    starts from the world the previous one left, whether it returned or
    raised. *)
Inductive step : Type :=
| Forward
| Backward.

Definition do_step (vimvar : string) (s : step) (w : World) : World :=
  match s with
  | Forward => snd (vim_next_enclosing vimvar w)
  | Backward => snd (vim_prev_enclosing vimvar w)
  end.

Definition do_steps (vimvar : string) (l : list step) (w : World) : World :=
  fold_left (fun w' s => do_step vimvar s w') l w.

(** *** Printing what a command raises *)

Definition dump (cmd : command) : M unit :=
  r <- send_command (VStr "dump" :: cmd) ;;
  print (py_str r).

(** [catch_and_print(f, msg)]: the value of [f()], or [None] once a
    [MerlinException] has been printed; any other exception goes on to the
    caller. *)
Definition catch_and_print (f : M value) (msg : option string) : M value :=
  fun w =>
    match f w with
    | (Raise (MerlinExc (MerlinException v)), w') =>
        (try_print_error (MerlinException v) msg ;;; ret VNone) w'
    | r => r
    end.

Definition command_reload : M value := send_command [VStr "refresh"].

Definition command_which_file (name : string) : M value :=
  send_command [VStr "which"; VStr "path"; VStr name].

Definition command_which_with_ext (ext : string) : M value :=
  send_command [VStr "which"; VStr "with_ext"; VStr ext].

Definition command_find_use (packages : list string) : M value :=
  send_command ([VStr "find"; VStr "use"] ++ map VStr packages)%list.

Definition command_find_list : M value :=
  send_command [VStr "find"; VStr "list"].

Definition command_seek_scope : M value :=
  send_command [VStr "seek"; VStr "maximize_scope"].

Definition command_seek_end : M value :=
  send_command [VStr "seek"; VStr "end"].

Definition command_complete (base : string) : M value :=
  send_command [VStr "complete"; VStr "prefix"; VStr base].

Definition command_complete_cursor (base : string) (line col : Z) : M value :=
  send_command [VStr "complete"; VStr "prefix"; VStr base; VStr "at";
                pos_obj line col].

Definition command_report_errors : M value := send_command [VStr "errors"].

Definition vim_use (args : list string) : M unit :=
  catch_and_print (command_find_use args) None ;;;
  ret tt.

Definition vim_is_loaded : M bool :=
  get (fun w => match mainpipe w with Some _ => true | None => false end).

Definition vim_reload : M unit := command_reload ;;; ret tt.

Definition vim_reload_buffer (fuel : nat) : M unit := sync_buffer fuel.

Definition vim_which (name : string) (ext : string) : M value :=
  command_which_file
    (if negb (String.eqb ext "") then name ++ "." ++ ext else name).


(** *** What the editor is asked and told *)

(** [vim.eval], as the editor answers while one function of the module
    runs, and [int] on its answer. *)
Variable vim_eval : string -> string.
Variable py_int : string -> outcome Z.

(** [os.path.exists], [os.path.join] and [os.path.split]. *)
Variable path_exists : string -> bool.
Variable path_join : string -> string -> string.
Variable path_split : string -> string * string.

(** A string operand: the receiver of [replace], which only strings have.
    Python raises [AttributeError] for another object; the model files it
    under [TypeError]. *)
Definition as_str (v : value) : outcome string :=
  match v with
  | VStr s => Ret s
  | _ => Raise TypeError
  end.

(** A number: an integer, or a boolean, which counts as 0 or 1. *)
Definition py_num (v : value) : outcome Z :=
  match v with
  | VInt z => Ret z
  | VBool b => Ret (if b then 1 else 0)
  | _ => Raise TypeError
  end.

(** ["%d" % v] *)
Definition py_fmt_d (v : value) : outcome string :=
  match py_num v with
  | Ret z => Ret (fmt_int z)
  | Raise e => Raise e
  | Timeout => Timeout
  end.

(** [s.replace(old, new)] for a pattern [old] that is not empty: the
    occurrences are replaced from left to right, and the characters of a
    replaced occurrence ([skip] of them are left) are not looked at again. *)
Fixpoint str_replace_from (old new : string) (skip : nat) (s : string)
  : string :=
  match s with
  | EmptyString => EmptyString
  | String c r =>
      match skip with
      | S k => str_replace_from old new k r
      | O =>
          if String.prefix old s
          then new ++ str_replace_from old new (String.length old - 1) r
          else String c (str_replace_from old new 0 r)
      end
  end.

Definition str_replace (old new s : string) : string :=
  str_replace_from old new 0 s.

(** [e.has_key(k)] *)
Definition py_has_key (v : value) (k : string) : outcome bool :=
  match v with
  | VDict kv => Ret (match assoc k kv with Some _ => true | None => false end)
  | _ => Raise TypeError
  end.

(** The elements a [for] loop goes through. *)
Definition py_iter (v : value) : outcome (list value) :=
  match v with
  | VList l => Ret l
  | VStr s => Ret (map VStr (py_chars s))
  | VDict kv => Ret (map (fun p => VStr (fst p)) kv)
  | _ => Raise TypeError
  end.

(** One completion: the command that builds its entry. *)
Definition complete_entry (prop : value) : M string :=
  name <- lift (py_key prop "name") ;;
  name <- lift (as_str name) ;;
  desc <- lift (py_key prop "desc") ;;
  desc <- lift (as_str desc) ;;
  info <- lift (py_key prop "info") ;;
  info <- lift (as_str info) ;;
  kind <- lift (py_key prop "kind") ;;
  kind <- lift (as_str kind) ;;
  ret ("let l:tmp = {'word':'" ++ str_replace "'" "''" name
       ++ "','menu':'"
       ++ str_replace "'" "''"
            (str_replace "  " " " (str_replace nl " " desc))
       ++ "','info':'" ++ str_replace "'" "''" info
       ++ "','kind':'"
       ++ str_replace "'" "''" (first_char kind)
       ++ "'}").

Fixpoint complete_loop (vimvar : string) (props : list value) : M unit :=
  match props with
  | [] => ret tt
  | prop :: rest =>
      tmp <- complete_entry prop ;;
      vim_command tmp ;;;
      vim_command ("call add(" ++ vimvar ++ ", l:tmp)") ;;;
      complete_loop vimvar rest
  end.

Definition vim_complete (fuel : nat) (base vimvar : string) : M unit :=
  vim_command ("let " ++ vimvar ++ " = []") ;;;
  sync_buffer fuel ;;;
  props <- command_complete base ;;
  l <- lift (py_iter props) ;;
  complete_loop vimvar l.

Definition vim_complete_cursor (fuel : nat) (base vimvar : string)
  : M unit :=
  vim_command ("let " ++ vimvar ++ " = []") ;;;
  c <- get (fun w => cursor (editor w)) ;;
  sync_buffer fuel ;;;
  props <- command_complete_cursor base (fst c) (snd c) ;;
  l <- lift (py_iter props) ;;
  complete_loop vimvar l.

(** One entry of the location list: the command that builds it. [number]
    is the number of the current buffer and [nr] the running number of the
    entries. *)
Definition loclist_entry (number nr : Z) (error : value) : M string :=
  kind <- lift (py_key error "type") ;;
  let ty :=
    if is_str "type" kind || is_str "parser" kind then "e" else "w" in
  located <- lift (py_has_key error "start") ;;
  lc <- (if located : bool
         then
           start <- lift (py_key error "start") ;;
           lnum <- lift (py_key start "line") ;;
           col <- lift (py_key start "col") ;;
           c <- lift (py_num col) ;;
           ret (lnum, c + 1)
         else ret (VInt 1, 1)) ;;
  message <- lift (py_key error "message") ;;
  text <- lift (as_str message) ;;
  lnum <- lift (py_fmt_d (fst lc)) ;;
  ret ("let l:tmp = {'bufnr':" ++ fmt_int number
       ++ ",'lnum':" ++ lnum
       ++ ",'col':" ++ fmt_int (snd lc)
       ++ ",'vcol':0,'nr':" ++ fmt_int nr
       ++ ",'pattern':'','text':'"
       ++ str_replace nl " " (str_replace "'" "''" text)
       ++ "','type':'" ++ ty ++ "','valid':1}").

(** The [for] loop of [vim_loclist]. *)
Fixpoint loclist_loop (vimvar ignore_warnings : string) (number nr : Z)
  (errors : list value) : M unit :=
  match errors with
  | [] => ret tt
  | error :: rest =>
      kind <- lift (py_key error "type") ;;
      if is_str "warning" kind
         && String.eqb (vim_eval ignore_warnings) "true"
      then loclist_loop vimvar ignore_warnings number nr rest
      else
        tmp <- loclist_entry number nr error ;;
        vim_command tmp ;;;
        vim_command ("call add(" ++ vimvar ++ ", l:tmp)") ;;;
        loclist_loop vimvar ignore_warnings number (nr + 1) rest
  end.

(** The number of the current buffer is the one its synchronisation token
    carries. *)
Definition vim_loclist (vimvar ignore_warnings : string) : M unit :=
  vim_command ("let " ++ vimvar ++ " = []") ;;;
  errors <- command_report_errors ;;
  number <- get (fun w => bufnr (bufsync (editor w))) ;;
  l <- lift (py_iter errors) ;;
  loclist_loop vimvar ignore_warnings number 0 l.

Fixpoint add_loop (vimvar : string) (items : list string) : M unit :=
  match items with
  | [] => ret tt
  | x :: rest =>
      vim_command ("call add(" ++ vimvar ++ ", '" ++ x ++ "')") ;;;
      add_loop vimvar rest
  end.

Definition vim_find_list (vimvar : string) : M unit :=
  pkgs <- command_find_list ;;
  vim_command ("let " ++ vimvar ++ " = []") ;;;
  l <- lift (py_iter pkgs) ;;
  add_loop vimvar (map py_str l).

(** [sorted(set(files))] for file names: a list of strings, in the order
    of their characters' codes and without repetition. *)
Fixpoint as_str_list (l : list value) : outcome (list string) :=
  match l with
  | [] => Ret []
  | v :: r =>
      match as_str v, as_str_list r with
      | Ret s, Ret t => Ret (s :: t)
      | Ret _, o => o
      | Raise e, _ => Raise e
      | Timeout, _ => Timeout
      end
  end.

Fixpoint insert_sorted (x : string) (l : list string) : list string :=
  match l with
  | [] => [x]
  | y :: r =>
      match String.compare x y with
      | Lt => x :: l
      | Eq => l
      | Gt => y :: insert_sorted x r
      end
  end.

Definition sorted_set (l : list string) : list string :=
  fold_right insert_sorted [] l.

Definition vim_which_ext (ext vimvar : string) : M unit :=
  files <- command_which_with_ext ext ;;
  vim_command ("let " ++ vimvar ++ " = []") ;;;
  l <- lift (py_iter files) ;;
  names <- lift (as_str_list l) ;;
  add_loop vimvar (sorted_set names).

(** [loc[i][k]] *)
Definition corner (loc : value) (i : Z) (k : string) : M value :=
  p <- lift (py_index loc i) ;;
  lift (py_key p k).

(** [min(a, b)] and [max(a, b)] on numbers; the comparison of a number
    with another object is a [TypeError]. *)
Definition py_min (a b : value) : outcome value :=
  match py_num a, py_num b with
  | Ret x, Ret y => Ret (VInt (Z.min x y))
  | _, _ => Raise TypeError
  end.

Definition py_max (a b : value) : outcome value :=
  match py_num a, py_num b with
  | Ret x, Ret y => Ret (VInt (Z.max x y))
  | _, _ => Raise TypeError
  end.

Definition is_none (v : value) : bool :=
  match v with
  | VNone => true
  | _ => false
  end.

(** [vim.command("let %s = %d" % (var, val))] *)
Definition let_int (var : string) (val : value) : M unit :=
  d <- lift (py_fmt_d val) ;;
  vim_command ("let " ++ var ++ " = " ++ d).

Definition vim_selectphrase (fuel : nat) (l1 c1 l2 c2 : string) : M unit :=
  vl1 <- lift (py_int (vim_eval l1)) ;;
  vc1 <- lift (py_int (vim_eval c1)) ;;
  vl2 <- lift (py_int (vim_eval l2)) ;;
  vc2 <- lift (py_int (vim_eval c2)) ;;
  sync_buffer_to fuel vl2 vc2 ;;;
  command_seek_exact vl2 vc2 ;;;
  loc2 <- send_command [VStr "boundary"] ;;
  loc1 <- (if negb (vl2 =? vl1) || negb (vc2 =? vc1)
           then command_seek_exact vl1 vc1 ;;;
                send_command [VStr "boundary"]
           else ret VNone) ;;
  if is_none loc2 then ret tt
  else
    vl1 <- corner loc2 0 "line" ;;
    vc1 <- corner loc2 0 "col" ;;
    vl2 <- corner loc2 1 "line" ;;
    vc2 <- corner loc2 1 "col" ;;
    box <- (if negb (is_none loc1)
            then
              l <- corner loc1 0 "line" ;;
              vl1 <- lift (py_min l vl1) ;;
              c <- corner loc1 0 "col" ;;
              vc1 <- lift (py_min c vc1) ;;
              l <- corner loc1 1 "line" ;;
              vl2 <- lift (py_max l vl2) ;;
              c <- corner loc1 1 "col" ;;
              vc2 <- lift (py_max c vc2) ;;
              ret (vl1, vc1, vl2, vc2)
            else ret (vl1, vc1, vl2, vc2)) ;;
    let '(vl1, vc1, vl2, vc2) := box in
    let_int l1 vl1 ;;;
    let_int l2 vl2 ;;;
    let_int c1 vc1 ;;;
    let_int c2 vc2.

(** [load_project]; [depth] is [maxdepth], which only counts down to 0. *)
Fixpoint load_project_from (depth : nat) (directory : string) : M unit :=
  let fname := path_join directory ".merlin" in
  if path_exists fname
  then
    send_command [VStr "project"; VStr "load"; VStr fname] ;;;
    vim_command ("let b:dotmerlin=" ++ dq ++ fname ++ dq) ;;;
    command_reset None ;;;
    ret tt
  else
    match depth with
    | O => ret tt
    | S depth' =>
        let (head, tail) := path_split directory in
        if negb (String.eqb head "")
        then load_project_from depth' head
        else ret tt
    end.

Definition load_project (directory : string) (maxdepth : Z) : M unit :=
  load_project_from (Z.to_nat maxdepth) directory.


End Client.

(** ** The Denite source of identifiers *)

Section Denite.

(** [repr], and the editor function the source calls. *)
Variable py_repr : value -> string.
Variable vim_call : string -> list value -> value.

(** [str(v)], as [format] writes an argument. *)
Definition format_item (v : value) : string :=
  match v with
  | VInt z => fmt_int z
  | VStr s => s
  | _ => py_repr v
  end.

(** [d[k] = v] on the items of a dictionary. *)
Fixpoint dict_set (k : string) (v : value) (kv : list (string * value))
  : list (string * value) :=
  match kv with
  | [] => [(k, v)]
  | (k', x) :: r =>
      if String.eqb k k' then (k, v) :: r else (k', x) :: dict_set k v r
  end.

(** [on_init] stores the cursor, a pair, in the context; the result is the
    context as it is afterwards. *)
Definition on_init (cursor : Z * Z) (context : value) : outcome value :=
  match context with
  | VDict kv =>
      Ret (VDict (dict_set "__cursor_pos"
                    (VList [VInt (fst cursor); VInt (snd cursor)]) kv))
  | _ => Raise TypeError
  end.

Definition obind {A B : Type} (o : outcome A) (k : A -> outcome B)
  : outcome B :=
  match o with
  | Ret a => k a
  | Raise e => Raise e
  | Timeout => Timeout
  end.

(** One candidate of the list comprehension. *)
Definition candidate (identifier : value) : outcome value :=
  obind (py_key identifier "name") (fun word =>
  obind (py_key identifier "kind") (fun kind =>
  obind (as_str kind) (fun kind =>
  obind (py_key identifier "name") (fun name =>
  obind (as_str name) (fun name =>
  Ret (VDict [("word", word); ("abbr", VStr (kind ++ ": " ++ name))])))))).

Fixpoint candidates (identifiers : list value) : outcome (list value) :=
  match identifiers with
  | [] => Ret []
  | identifier :: rest =>
      obind (candidate identifier) (fun c =>
      obind (candidates rest) (fun cs => Ret (c :: cs)))
  end.

Definition gather_candidates (context : value) : outcome value :=
  obind (py_key context "__cursor_pos") (fun cursor =>
  obind (py_index cursor 0) (fun line =>
  obind (py_key context "__cursor_pos") (fun cursor =>
  obind (py_index cursor 1) (fun col =>
  let pos := format_item line ++ ":" ++ format_item col in
  let identifiers := vim_call "merlin#ListIdentifiers" [VStr pos] in
  obind (py_iter identifiers) (fun l =>
  obind (candidates l) (fun cs => Ret (VList cs))))))).

End Denite.

(** ** Vocabulary about runs *)

(** [m] only appends to the commands sent. *)
Definition extends {A : Type} (m : M A) : Prop :=
  forall w, exists more, sent (snd (m w)) = (sent w ++ more)%list.

(** [m] keeps the field [f] of the world. *)
Definition keeps {A X : Type} (f : World -> X) (m : M A) : Prop :=
  forall w, f (snd (m w)) = f w.

(** The commands a run of [m] adds begin with [cmds]. *)
Definition sends_first {A : Type} (cmds : list command) (m : M A) (w : World)
  : Prop :=
  exists more, sent (snd (m w)) = (sent w ++ cmds ++ more)%list.

(** A run of [m] keeps the editor, and keeps the mark or returns having
    cleared it. *)
Definition mark_kept_or_cleared {A : Type} (m : M A) : Prop :=
  forall w,
    editor (snd (m w)) = editor w /\
    (saved_sync (snd (m w)) = saved_sync w \/
     (exists a, fst (m w) = Ret a) /\ saved_sync (snd (m w)) = None).

(** A field of the world that the communication and the synchronisation do
    not write. *)
Definition client_field {X : Type} (f : World -> X) : Prop :=
  (forall p w, f (set_mainpipe p w) = f w) /\
  (forall c w, f (add_sent c w) = f w) /\
  (forall x w, f (add_spawned x w) = f w) /\
  (forall e w, f (add_output e w) = f w) /\
  (forall s w, f (set_saved_sync s w) = f w).

(** A computation that raises no [MerlinExc]; a [try] around it with an
    [except MerlinExc] clause changes nothing. *)
Definition plain {A : Type} (m : M A) : Prop :=
  forall w e, fst (m w) <> Raise (MerlinExc e).

(** The payload [send_command] takes from a parsed response: its second
    element when it has exactly two. *)
Definition payload_of (result : list value) : value :=
  match result with
  | [_; p] => p
  | _ => VNone
  end.

(** The commands as they appear on the wire. *)
Definition reset_cmd (name : string) : command :=
  if negb (String.eqb (basename name) "")
  then [VStr "reset"; VStr "name"; VStr (basename name)]
  else [VStr "reset"].

(** The text of a list of lines on the wire: the lines joined by newlines,
    and a newline. *)
Definition lines_text (l : list string) : string :=
  String.concat nl l ++ nl.

(** What a tell carries: the text of its lines, or null when it has no
    lines to carry. *)
Definition wire_text (content : option (list string)) : value :=
  match content with
  | Some l => VStr (lines_text l)
  | None => VNone
  end.

Definition tell_cmd (kind : string) (content : option (list string))
  : command :=
  [VStr "tell"; VStr kind; wire_text content].

Definition seek_cmd (how : string) (line col : Z) : command :=
  [VStr "seek"; VStr how; pos_obj line col].

(** Lines [a + 1] to [b] of a buffer, counted from 1: of its first [b]
    lines, those after the first [a]. *)
Definition lines_between (lines : list string) (a b : Z) : list string :=
  skipn (Z.to_nat a) (firstn (Z.to_nat b) lines).

(** The line [this] without its first [col] characters. *)
Definition line_from (this : string) (col : Z) : string :=
  String.substring (Z.to_nat col) (String.length this - Z.to_nat col) this.

(** The pipe after one more command. *)
Definition push (cmd : command) (p : Pipe) : Pipe :=
  mkPipe (pflags p) (received p ++ [cmd]) (exited p).

(** The world once [send_command] has written [cmd] to the pipe [p]. *)
Definition after_send (cmd : command) (p : Pipe) (w : World) : World :=
  mkWorld (flags w) (Some (push cmd p)) (saved_sync w) (enclosing_types w)
    (current_enclosing w) (editor w) (sent w ++ [cmd])
    (if needs_restart w then spawned w ++ [flags w] else spawned w)
    (output w).

(** The feed loop, from outside: starting with [end_line] lines fed, the
    [i]-th further window of 20 lines, the number of windows that fit below
    [max_line], and the commands of a run that sent its first chunk, [k]
    windows and [m] tells without lines. *)
Definition window (lines : list string) (max_line end_line : Z) (i : nat)
  : list string :=
  py_slice lines (end_line + 20 * Z.of_nat i)
    (Z.min max_line (end_line + 20 * Z.of_nat (S i))).

Definition rounds (max_line end_line : Z) : nat :=
  Z.to_nat ((max_line - end_line + 19) / 20).

Definition feed_plan (lines : list string) (max_line end_line : Z)
  (kind : string) (content : option (list string)) (k m : nat)
  : list command :=
  (tell_cmd kind content
   :: map (fun i => tell_cmd "end" (Some (window lines max_line end_line i)))
        (seq 0 k)
   ++ repeat (tell_cmd "end" None) m)%list.

(** The subprocess reading [fl] does not ask for more once it is told the
    end of the input: its answer to a tell without lines is not a falsy
    result. *)
Definition satisfied_at_eof
  (subprocess : list string -> list command -> list value)
  (fl : list string) : Prop :=
  forall h v,
    dispatch (subprocess fl (h ++ [tell_cmd "end" None])%list) = Ret v ->
    py_truthy v = true.

(** What a run [r] of the feed loop with [S fuel] rounds of fuel, started
    in [w] on the pipe [p] with [end_line] lines fed, has done. *)
Definition feed_run
  (subprocess : list string -> list command -> list value)
  (lines : list string) (kind : string) (content : option (list string))
  (end_line : Z) (p : Pipe) (fuel : nat) (w : World)
  (r : outcome unit * World) : Prop :=
  let max_line := Z.of_nat (List.length lines) in
  exists k m : nat,
    (k <= rounds max_line end_line)%nat /\
    (m <> 0%nat -> k = rounds max_line end_line) /\
    (1 + k + m <= S fuel)%nat /\
    sent (snd r)
    = (sent w ++ feed_plan lines max_line end_line kind content k m)%list /\
    (fst r = Timeout -> (1 + k + m = S fuel)%nat) /\
    (satisfied_at_eof subprocess (pflags p) ->
     (m <= 1)%nat /\ (fst r = Timeout -> m = 0%nat) /\
     (content = None -> kind = "end" ->
      k = 0%nat /\ m = 0%nat /\ fst r <> Timeout)).

(** The subprocess on the pipe [p] asked for more after the [j]-th of the
    commands [plan], counted from 0: its answer was a result, and a falsy
    one. *)
Definition asked_for_more
  (subprocess : list string -> list command -> list value)
  (p : Pipe) (plan : list command) (j : nat) : Prop :=
  exists v,
    dispatch (subprocess (pflags p) (received p ++ firstn (S j) plan)%list)
    = Ret v /\
    py_truthy v = false.

(** How a run of the feed loop that sent [plan], with fuel for [S fuel]
    commands, came to its outcome [o]: the subprocess asked for more after
    every command but the last, and its answer to the last one is a truthy
    result when the loop returned and the exception the loop raised when it
    raised; the loop ran out of fuel only with the subprocess still asking
    for more. *)
Definition feed_outcome
  (subprocess : list string -> list command -> list value)
  (p : Pipe) (plan : list command) (fuel : nat) (o : outcome unit) : Prop :=
  (forall j, (S j < List.length plan)%nat ->
     asked_for_more subprocess p plan j) /\
  match o with
  | Ret _ =>
      exists v,
        dispatch (subprocess (pflags p) (received p ++ plan)%list) = Ret v /\
        py_truthy v = true
  | Raise e =>
      dispatch (subprocess (pflags p) (received p ++ plan)%list) = Raise e
  | Timeout =>
      List.length plan = S fuel /\ asked_for_more subprocess p plan fuel
  end.

(** The direct type query [vim_type] sends for the cursor [c]. *)
Definition type_query (expr : option string) (c : Z * Z) : command :=
  ([VStr "type"]
   ++ match expr with
      | Some x => if given expr then [VStr "expression"; VStr x] else []
      | None => []
      end
   ++ [VStr "at"; pos_obj (fst c) (snd c)])%list.

(** The query [vim_type_enclosing] sends for the cursor [c]. *)
Definition enclosing_query (c : Z * Z) : command :=
  [VStr "type"; VStr "enclosing"; pos_obj (fst c) (snd c)].

(** The line [vim_type] prints for the type [ty]. *)
Definition type_line (expr : option string) (ty : string) : string :=
  match expr with
  | Some x => if given expr then x ++ " : " ++ ty else ty
  | None => ty
  end.

(** The state the navigator is meant to be in: the index is -1, or the
    stored object has a length and the index lies within [-1 .. length]. *)
Definition navigator_ok (w : World) : Prop :=
  -1 <= current_enclosing w /\
  (current_enclosing w = -1 \/
   exists n, py_len (enclosing_types w) = Ret n /\ current_enclosing w <= n).

(** ** Stub subprocesses and editors for the examples *)

(** A subprocess that answers a seek with the position [(sl, sc)], a tell
    with [tellv], a reset with the position of the start of the buffer, and
    anything else with the line [other]. *)
Definition stub (sl sc : Z) (tellv : value) (other : list value)
  (fl : list string) (h : list command) : list value :=
  match last h [] with
  | tag :: _ =>
      if is_str "seek" tag then [VStr "return"; pos_obj sl sc]
      else if is_str "tell" tag then [VStr "return"; tellv]
      else if is_str "reset" tag then [VStr "return"; pos_obj 1 0]
      else other
  | [] => other
  end.

Definition always_ok (fl : list string) : bool := true.

Definition stub_repr (v : value) : string := "<value>".

Definition stub_search (pat s : string) : option (nat -> string) := None.

(** A subprocess that says the text before line 2, column 4 is what it
    still holds, and that is satisfied by every tell. *)
Definition stub_inc : list string -> list command -> list value :=
  stub 2 4 (VBool true) [].


(** A subprocess that asks for more after every tell that carries lines and
    is satisfied when told the end of the input. *)
Definition stub_eof (fl : list string) (h : list command) : list value :=
  match last h [] with
  | [tag; _; VNone] =>
      if is_str "tell" tag then [VStr "return"; VBool true]
      else stub 1 0 (VBool false) [] fl h
  | _ => stub 1 0 (VBool false) [] fl h
  end.

(** A subprocess that answers every seek with line 10, column 0, asks for
    more after the first chunk and is satisfied by the next tell. *)
Definition stub_far (fl : list string) (h : list command) : list value :=
  match last h [] with
  | [tag; kind; _] =>
      if is_str "tell" tag
      then [VStr "return"; VBool (is_str "end" kind)]
      else stub 10 0 (VBool true) [] fl h
  | _ => stub 10 0 (VBool true) [] fl h
  end.

(** A buffer of 30 lines, [l1] to [l30], with the cursor and the mark on
    line 5; the module holds the mark of this buffer. *)
Definition ed30 : Editor :=
  mkEditor (map (fun n => "l" ++ fmt_int (Z.of_nat n)) (seq 1 30)) "c.ml"
    (5, 0) (mkSync 3 0) (fun _ => (5, 0)).

Definition w_marked30 : World :=
  Eval vm_compute in
    mkWorld [] None (Some (mkSync 3 0)) (VList []) (-1) ed30 [] [] [].

(** A subprocess that answers every tell with [false]: it always wants
    more. *)
Definition stub_hungry : list string -> list command -> list value :=
  stub 1 0 (VBool false) [].

(** Three lines of OCaml in [/home/u/a.ml], cursor on the third; the mark
    of the buffer stands at its third line. *)
Definition ed3 : Editor :=
  mkEditor ["let x = 1"; "let y = 2"; "let z = x + y"] "/home/u/a.ml"
    (3, 0) (mkSync 1 0) (fun _ => (3, 0)).

(** The module just loaded in [ed3], after one [sync_buffer_to(3, 0)]
    against [stub_inc]. *)
Definition w_synced : World :=
  Eval vm_compute in
    snd (sync_buffer_to always_ok stub_inc 1 3 0 (initial ed3)).

(** The pipe of [w_synced]. *)
Definition p_synced : Pipe :=
  Eval vm_compute in
    match mainpipe w_synced with
    | Some p => p
    | None => mkPipe [] [] false
    end.




(** Two frames around a cursor on line 1: an expression on that line, and
    the definition of three lines that holds it. *)
Definition frameA : value :=
  VDict [("start", pos_obj 1 0); ("end", pos_obj 1 5); ("type", VStr "int")].

Definition frameB : value :=
  VDict [("start", pos_obj 1 0); ("end", pos_obj 3 0);
         ("type", VStr "int -> int")].

(** The navigator on these two frames, at index [i]. *)
Definition w_nav (i : Z) : World :=
  set_current_enclosing i
    (set_enclosing_types (VList [frameA; frameB]) (initial ed3)).

(** A subprocess that answers the type queries with a count and the two
    frames, and one that answers them with the bare list of the frames. *)
Definition stub_frames : list string -> list command -> list value :=
  stub 1 0 (VBool true)
    [VStr "return"; VList [VInt 2; VList [frameA; frameB]]].

Definition stub_flat : list string -> list command -> list value :=
  stub 1 0 (VBool true) [VStr "return"; VList [frameA; frameB]].

(** The module just loaded in [ed3], once [vim_type_enclosing] has cleared
    the navigator and synchronised the buffer against [stub_frames]. *)
Definition w_enclosing : World :=
  Eval vm_compute in
    snd (sync_buffer always_ok stub_frames 1
           (set_current_enclosing (-1)
              (set_enclosing_types (VList []) (initial ed3)))).

(** A subprocess that fails the query for the enclosing types and the
    query for the type of an expression, and answers the plain type query
    with [int]. *)
Definition stub_types (fl : list string) (h : list command) : list value :=
  match last h [] with
  | tag :: arg :: _ =>
      if is_str "type" tag then
        if is_str "enclosing" arg then [VStr "failure"; VStr "no enclosing"]
        else if is_str "expression" arg then [VStr "failure"; VStr "unbound"]
        else [VStr "return"; VStr "int"]
      else stub 1 0 (VBool true) [] fl h
  | _ => stub 1 0 (VBool true) [] fl h
  end.

(** The module just loaded in [ed3], once [vim_type_enclosing] has cleared
    the navigator and synchronised the buffer against [stub_types]. *)
Definition w_types : World :=
  Eval vm_compute in
    snd (sync_buffer always_ok stub_types 1
           (set_current_enclosing (-1)
              (set_enclosing_types (VList []) (initial ed3)))).

Definition p_types : Pipe :=
  Eval vm_compute in
    match mainpipe w_types with
    | Some p => p
    | None => mkPipe [] [] false
    end.

(** A subprocess that answers the query for the enclosing types with the
    empty list, and the module once [vim_type_enclosing] has synchronised
    the buffer against it. *)
Definition stub_empty : list string -> list command -> list value :=
  stub 1 0 (VBool true) [VStr "return"; VList []].

Definition w_empty : World :=
  Eval vm_compute in
    snd (sync_buffer always_ok stub_empty 1
           (set_current_enclosing (-1)
              (set_enclosing_types (VList []) (initial ed3)))).

Definition p_empty : Pipe :=
  Eval vm_compute in
    match mainpipe w_empty with
    | Some p => p
    | None => mkPipe [] [] false
    end.

(** The type queries among commands. *)
Definition type_queries (l : list command) : list command :=
  filter (fun c => match c with
                   | tag :: _ => is_str "type" tag
                   | [] => false
                   end) l.

(** A buffer of 25 lines, cursor on the last, never synchronised. *)
Definition ed25 : Editor :=
  mkEditor (repeat "let _ = ()" 25) "b.ml" (25, 0) (mkSync 2 0)
    (fun _ => (25, 0)).


(** The [k]-th directory above [d]: the head of [os.path.split], [k]
    times. *)
Fixpoint ancestor (path_split : string -> string * string) (k : nat)
  (d : string) : string :=
  match k with
  | O => d
  | S k' => ancestor path_split k' (fst (path_split d))
  end.

(** The commands of [load_project] for the project file [fname]. *)
Definition project_load_cmd (fname : string) : command :=
  [VStr "project"; VStr "load"; VStr fname].


(** What a Vim literal string ['...'] stands for, given the text between
    its outer quotes: two quotes stand for one, and a quote alone would end
    the string there. *)
Fixpoint vim_literal (body : string) : option string :=
  match body with
  | EmptyString => Some EmptyString
  | String c r =>
      if Ascii.eqb c "'"
      then match r with
           | String c' r' =>
               if Ascii.eqb c' "'"
               then option_map (String "'") (vim_literal r')
               else None
           | EmptyString => None
           end
      else option_map (String c) (vim_literal r)
  end.

(** One character in UTF-8: a byte below 128, or a leading byte of the
    range that calls for one, two or three more, with that many bytes
    [10xxxxxx] after it. *)
Definition tail_byte (c : ascii) : Prop :=
  (128 <= nat_of_ascii c < 192)%nat.

Inductive one_char : string -> Prop :=
| char_1 (a : ascii) :
    (nat_of_ascii a < 128)%nat -> one_char (String a EmptyString)
| char_2 (a b : ascii) :
    (192 <= nat_of_ascii a < 224)%nat -> tail_byte b ->
    one_char (String a (String b EmptyString))
| char_3 (a b c : ascii) :
    (224 <= nat_of_ascii a < 240)%nat -> tail_byte b -> tail_byte c ->
    one_char (String a (String b (String c EmptyString)))
| char_4 (a b c d : ascii) :
    (240 <= nat_of_ascii a)%nat -> tail_byte b -> tail_byte c -> tail_byte d ->
    one_char (String a (String b (String c (String d EmptyString)))).

(** [rest] is empty or begins with a new character. *)
Definition begins_char (rest : string) : Prop :=
  match rest with
  | EmptyString => True
  | String c _ => ~ tail_byte c
  end.

(** [ch] is [s[:1]]: empty when [s] is, and else the character that [s]
    begins with. *)
Definition first_of (s ch : string) : Prop :=
  (s = EmptyString /\ ch = EmptyString) \/
  (exists rest, s = ch ++ rest /\ one_char ch /\ begins_char rest).

(** The entry of the location list for the report [e], as the text [t] of
    the command that builds it: the number of the buffer, the line and
    the column of the start of the report (1 and 1 without a start, the
    column counted from 1), the running number [nr], the message as a
    literal string with its line breaks replaced by blanks, and the letter
    [e] for an error of typing or parsing, [w] for any other report. *)
Definition loclist_line (number nr : Z) (e : value) (t : string) : Prop :=
  exists (lnum col text ty : string) (kind : value) (message : string),
    t = "let l:tmp = {'bufnr':" ++ fmt_int number
        ++ ",'lnum':" ++ lnum
        ++ ",'col':" ++ col
        ++ ",'vcol':0,'nr':" ++ fmt_int nr
        ++ ",'pattern':'','text':'" ++ text
        ++ "','type':'" ++ ty ++ "','valid':1}" /\
    py_key e "type" = Ret kind /\
    ty = (if is_str "type" kind || is_str "parser" kind then "e" else "w") /\
    py_key e "message" = Ret (VStr message) /\
    vim_literal text = Some (str_replace nl " " message) /\
    (py_key e "start" = Raise KeyError -> lnum = "1" /\ col = "1") /\
    (forall st l c,
       py_key e "start" = Ret st ->
       py_key st "line" = Ret (VInt l) ->
       py_key st "col" = Ret (VInt c) ->
       lnum = fmt_int l /\ col = fmt_int (c + 1)).


(** An error report as [vim_loclist] can show it: an object with a type, a
    message that is a string and, if it has a start, numbers for the line
    and the column of the start. *)
Definition is_num (v : value) : bool :=
  match v with
  | VInt _ | VBool _ => true
  | _ => false
  end.

Definition well_formed_error (e : value) : bool :=
  match e with
  | VDict kv =>
      match assoc "type" kv, assoc "message" kv with
      | Some _, Some (VStr _) =>
          match assoc "start" kv with
          | None => true
          | Some (VDict pos) =>
              match assoc "line" pos, assoc "col" pos with
              | Some l, Some c => is_num l && is_num c
              | _, _ => false
              end
          | Some _ => false
          end
      | _, _ => false
      end
  | _ => false
  end.

(** [error['type'] == 'warning'] *)
Definition is_warning (e : value) : bool :=
  match py_key e "type" with
  | Ret kind => is_str "warning" kind
  | _ => false
  end.

(** After a restart: a fresh subprocess runs that was started with the
    flags as they are, or none counts as running. *)
Definition fresh_or_down (popen_ok : list string -> bool) (w : World)
  : Prop :=
  (popen_ok (flags w) = true /\
   mainpipe w = Some (mkPipe (flags w) [] false)) \/
  (popen_ok (flags w) = false /\ needs_restart w = true).

(** The command of [command_report_errors]. *)
Definition errors_query : command := [VStr "errors"].

(** The world after the events [es]. *)
Definition add_outputs (es : list event) (w : World) : World :=
  mkWorld (flags w) (mainpipe w) (saved_sync w) (enclosing_types w)
    (current_enclosing w) (editor w) (sent w) (spawned w)
    (output w ++ es).

(** The commands that add the entries built by [texts] to the list. *)
Definition adding (vimvar : string) (texts : list string) : list event :=
  flat_map
    (fun t => [VimCommand t; VimCommand ("call add(" ++ vimvar ++ ", l:tmp)")])
    texts.


(** The command of [command_which_with_ext]. *)
Definition which_ext_query (ext : string) : command :=
  [VStr "which"; VStr "with_ext"; VStr ext].

(** The order of strings: by the codes of their characters. *)
Definition str_lt (a b : string) : Prop := String.compare a b = Lt.

(** The commands that add the strings [items] to the list. *)
Definition adding_items (vimvar : string) (items : list string)
  : list event :=
  map (fun f => VimCommand ("call add(" ++ vimvar ++ ", '" ++ f ++ "')"))
    items.


(** A file system with one project file, in [/home]. *)
Definition stub_join (d f : string) : string := d ++ "/" ++ f.

Definition stub_exists (f : string) : bool := String.eqb f "/home/.merlin".

Definition stub_split (d : string) : string * string :=
  if String.eqb d "/home/u/src" then ("/home/u", "src")
  else if String.eqb d "/home/u" then ("/home", "u")
  else if String.eqb d "/home" then ("/", "home")
  else ("/", "").

(** An editor whose variables [l1], [c1], [l2], [c2] hold the points (1, 0)
    and (3, 0), and which ignores warnings. *)
Definition stub_eval (e : string) : string :=
  if String.eqb e "l1" then "1"
  else if String.eqb e "l2" then "3"
  else if String.eqb e "g:merlin_ignore_warnings" then "true"
  else "0".

Definition stub_int (s : string) : outcome Z :=
  match NilZero.int_of_string s with
  | Some i => Ret (Z.of_int i)
  | None => Raise TypeError
  end.

(** A subprocess that knows two phrases: after a seek to line 1 the
    boundary is (1, 4) to (1, 9), after any other seek it is [far]. *)
Definition stub_phrase (far : value) (fl : list string) (h : list command)
  : list value :=
  match last h [] with
  | tag :: _ =>
      if is_str "boundary" tag
      then match last (removelast h) [] with
           | [_; _; VDict kv] =>
               match assoc "line" kv with
               | Some (VInt 1) =>
                   [VStr "return"; VList [pos_obj 1 4; pos_obj 1 9]]
               | _ => [VStr "return"; far]
               end
           | _ => [VStr "return"; far]
           end
      else stub 1 0 (VBool true) [] fl h
  | [] => []
  end.

Definition far_phrase : value := VList [pos_obj 2 2; pos_obj 3 1].

(** The runs of [vim_selectphrase] in [ed3] against [stub_phrase]: after
    the synchronisation, the first seek, the first boundary, the second
    seek and the second boundary. *)
Definition w_sel1 : World :=
  Eval vm_compute in
    snd (sync_buffer_to always_ok (stub_phrase far_phrase) 1 3 0
           (initial ed3)).

Definition w_sel2 : World :=
  Eval vm_compute in
    snd (command_seek_exact always_ok (stub_phrase far_phrase) 3 0 w_sel1).

Definition w_sel3 : World :=
  Eval vm_compute in
    snd (send_command always_ok (stub_phrase far_phrase) [VStr "boundary"]
           w_sel2).

Definition w_sel4 : World :=
  Eval vm_compute in
    snd (command_seek_exact always_ok (stub_phrase far_phrase) 1 0 w_sel3).

Definition w_sel5 : World :=
  Eval vm_compute in
    snd (send_command always_ok (stub_phrase far_phrase) [VStr "boundary"]
           w_sel4).

Definition w_none1 : World :=
  Eval vm_compute in
    snd (sync_buffer_to always_ok (stub_phrase VNone) 1 3 0 (initial ed3)).

Definition w_none2 : World :=
  Eval vm_compute in
    snd (command_seek_exact always_ok (stub_phrase VNone) 3 0 w_none1).

Definition w_none3 : World :=
  Eval vm_compute in
    snd (send_command always_ok (stub_phrase VNone) [VStr "boundary"]
           w_none2).

Definition w_none4 : World :=
  Eval vm_compute in
    snd (command_seek_exact always_ok (stub_phrase VNone) 1 0 w_none3).

Definition w_none5 : World :=
  Eval vm_compute in
    snd (send_command always_ok (stub_phrase VNone) [VStr "boundary"]
           w_none4).

(** The letter e with an acute accent, two bytes in UTF-8, and a
    completion with quotes in its fields, of a kind that begins with this
    letter. *)
Definition e_acute : string :=
  String (ascii_of_nat 195) (String (ascii_of_nat 169) EmptyString).

Definition prop_quoted : value :=
  VDict [("name", VStr "f'"); ("kind", VStr (e_acute ++ "tat"));
         ("desc", VStr "'a -> 'a"); ("info", VStr "it's")].

(** Three reports: a warning, a type error with a start and a parser
    error without. *)
Definition report_warning : value :=
  VDict [("type", VStr "warning"); ("message", VStr "unused variable x")].

Definition report_type : value :=
  VDict [("type", VStr "type"); ("start", pos_obj 2 4);
         ("message", VStr "expected 'a list")].

Definition report_parser : value :=
  VDict [("type", VStr "parser"); ("message", VStr "syntax error")].

Definition stub_errors : list string -> list command -> list value :=
  stub 1 0 (VBool true)
    [VStr "return"; VList [report_warning; report_type; report_parser]].

(** A subprocess that lists files with a repetition and out of order. *)
Definition stub_files : list string -> list command -> list value :=
  stub 1 0 (VBool true)
    [VStr "return"; VList (map VStr ["list"; "array"; "list"; "bytes"])].

(** An editor function that knows two identifiers. *)
Definition stub_call (f : string) (args : list value) : value :=
  VList [VDict [("name", VStr "map"); ("kind", VStr "Value")];
         VDict [("name", VStr "t"); ("kind", VStr "Type")]].


(** The command of [command_find_list]. *)
Definition find_list_query : command := [VStr "find"; VStr "list"].


(** * Properties *)

Section Properties.

Variable popen_ok : list string -> bool.
Variable subprocess : list string -> list command -> list value.
Variable py_repr : value -> string.
Variable re_search : string -> string -> option (nat -> string).

#[local] Abbreviation send := (send_command popen_ok subprocess).
#[local] Abbreviation live := (live_pipe popen_ok).
#[local] Abbreviation answer := (response popen_ok subprocess).
#[local] Abbreviation pick := (sync_pick popen_ok subprocess).
#[local] Abbreviation feed := (sync_feed popen_ok subprocess).

(** ** Running the monad *)

Lemma bind_ret {A B : Type} (m : M A) (k : A -> M B) w a w1 :
  m w = (Ret a, w1) -> bind m k w = k a w1.
Proof. intros H. unfold bind. rewrite H. reflexivity. Qed.

Lemma bind_raise {A B : Type} (m : M A) (k : A -> M B) w e w1 :
  m w = (Raise e, w1) -> bind m k w = (Raise e, w1).
Proof. intros H. unfold bind. rewrite H. reflexivity. Qed.

Lemma bind_timeout {A B : Type} (m : M A) (k : A -> M B) w w1 :
  m w = (Timeout, w1) -> bind m k w = (Timeout, w1).
Proof. intros H. unfold bind. rewrite H. reflexivity. Qed.

(** ** The protocol client *)

Lemma live_pipe_running w p :
  live w = Some p -> exited p = false.
Proof.
  unfold live_pipe, needs_restart.
  destruct (mainpipe w) as [q|] eqn:E.
  - destruct (exited q) eqn:X.
    + destruct (popen_ok (flags w)); [|discriminate].
      intros H; inversion H; reflexivity.
    + intros H; inversion H; subst; assumption.
  - destruct (popen_ok (flags w)); [|discriminate].
    intros H; inversion H; reflexivity.
Qed.

Lemma send_command_run w p cmd :
  live w = Some p ->
  send cmd w =
  (dispatch (subprocess (pflags p) (received p ++ [cmd])), after_send cmd p w).
Proof.
  unfold live_pipe, send_command, bind, restart, after_send.
  destruct (needs_restart w) eqn:N.
  - destruct w as [fl mp ss et ce ed se sp ou]; simpl in *.
    destruct mp as [q|]; simpl.
    + destruct (popen_ok fl); [|discriminate].
      intros H; inversion H; subst; reflexivity.
    + destruct (popen_ok fl); [|discriminate].
      intros H; inversion H; subst; reflexivity.
  - intros H. rewrite H. destruct w; reflexivity.
Qed.

Lemma live_pipe_after_send w p cmd :
  live w = Some p ->
  live (after_send cmd p w) = Some (push cmd p).
Proof.
  intros H. pose proof (live_pipe_running _ _ H) as X.
  unfold live_pipe, needs_restart, after_send; simpl. rewrite X. reflexivity.
Qed.

Lemma dispatch_payload tag rest :
  dispatch (tag :: rest) =
  let content := payload_of (tag :: rest) in
  if is_str "return" tag then Ret content
  else if is_str "failure" tag then Raise (MerlinExc (Failure content))
  else if is_str "error" tag then Raise (MerlinExc (Error content))
  else if is_str "exception" tag
       then Raise (MerlinExc (MerlinException content))
  else Ret VNone.
Proof.
  unfold dispatch.
  destruct rest as [|x [|y r]]; try reflexivity.
  replace (Z.of_nat (List.length (tag :: x :: y :: r)) =? 2) with false;
    [reflexivity|].
  symmetry. apply Z.eqb_neq. simpl List.length. lia.
Qed.

(** A response [["return", payload]] makes [send_command] return. *)
Lemma send_command_return w p cmd payload :
  live w = Some p ->
  subprocess (pflags p) (received p ++ [cmd]) = [VStr "return"; payload] ->
  send cmd w = (Ret payload, after_send cmd p w).
Proof.
  intros L R. rewrite (send_command_run _ _ _ L), R. reflexivity.
Qed.

(** C1, as the code has it: the payload is the second element of a
    two-element response; the tags [return], [failure], [error] and
    [exception] give the result, [Failure], [Error] and [MerlinException]
    with that payload; with any other tag [send_command] raises nothing and
    returns [None]. *)
Theorem send_command_outcome (w : World) (cmd : command)
  (tag : value) (rest : list value) :
  answer w cmd = Some (tag :: rest) ->
  let payload := payload_of (tag :: rest) in
  let out := fst (send cmd w) in
  (tag = VStr "return" -> out = Ret payload) /\
  (tag = VStr "failure" -> out = Raise (MerlinExc (Failure payload))) /\
  (tag = VStr "error" -> out = Raise (MerlinExc (Error payload))) /\
  (tag = VStr "exception" ->
   out = Raise (MerlinExc (MerlinException payload))) /\
  (tag <> VStr "return" -> tag <> VStr "failure" -> tag <> VStr "error" ->
   tag <> VStr "exception" -> out = Ret VNone).
Proof.
  unfold response. destruct (live w) as [p|] eqn:L; [|discriminate].
  intros H; inversion H as [R]; clear H.
  rewrite (send_command_run _ _ _ L), R. cbv zeta. unfold fst.
  rewrite dispatch_payload. cbv zeta.
  repeat split; intros; subst; try reflexivity.
  destruct tag as [| | |s| |]; try reflexivity. simpl.
  destruct (String.eqb_spec s "return"); [congruence|].
  destruct (String.eqb_spec s "failure"); [congruence|].
  destruct (String.eqb_spec s "error"); [congruence|].
  destruct (String.eqb_spec s "exception"); [congruence|].
  reflexivity.
Qed.

(** ** What a run leaves alone *)

Lemma extends_bind {A B : Type} (m : M A) (k : A -> M B) :
  extends m -> (forall a, extends (k a)) -> extends (bind m k).
Proof.
  intros Hm Hk w. unfold bind.
  destruct (Hm w) as [m1 E1]. destruct (m w) as [[a|e|] w1]; simpl in *.
  - destruct (Hk a w1) as [m2 E2]. exists (m1 ++ m2)%list.
    rewrite E2, E1, app_assoc. reflexivity.
  - exists m1; assumption.
  - exists m1; assumption.
Qed.

Lemma keeps_bind {A B X : Type} (f : World -> X) (m : M A) (k : A -> M B) :
  keeps f m -> (forall a, keeps f (k a)) -> keeps f (bind m k).
Proof.
  intros Hm Hk w. unfold bind.
  pose proof (Hm w) as E1. destruct (m w) as [[a|e|] w1]; simpl in *.
  - rewrite Hk. assumption.
  - assumption.
  - assumption.
Qed.

Lemma extends_pure {A : Type} (o : outcome A) : extends (fun w => (o, w)).
Proof. intros w. exists []. simpl. rewrite app_nil_r. reflexivity. Qed.

Lemma extends_same {A : Type} (m : M A) :
  (forall w, sent (snd (m w)) = sent w) -> extends m.
Proof. intros H w. exists []. rewrite H, app_nil_r. reflexivity. Qed.

Lemma restart_sent w : sent (snd (restart popen_ok w)) = sent w.
Proof.
  unfold restart. destruct (mainpipe w); simpl;
    destruct (popen_ok (flags w)); reflexivity.
Qed.

Lemma restart_saved_sync w :
  saved_sync (snd (restart popen_ok w)) = saved_sync w.
Proof.
  unfold restart. destruct (mainpipe w); simpl;
    destruct (popen_ok (flags w)); reflexivity.
Qed.

Lemma restart_editor w : editor (snd (restart popen_ok w)) = editor w.
Proof.
  unfold restart. destruct (mainpipe w); simpl;
    destruct (popen_ok (flags w)); reflexivity.
Qed.

Lemma send_command_extends cmd : extends (send cmd).
Proof.
  unfold send_command. apply extends_bind.
  - apply extends_same. intros w. destruct (needs_restart w);
      [apply restart_sent | reflexivity].
  - intros _ w. destruct (mainpipe w); simpl.
    + exists [cmd]. reflexivity.
    + exists []. rewrite app_nil_r. reflexivity.
Qed.

Lemma send_command_keeps_saved_sync cmd : keeps saved_sync (send cmd).
Proof.
  unfold send_command. apply keeps_bind.
  - intros w. destruct (needs_restart w);
      [apply restart_saved_sync | reflexivity].
  - intros _ w. destruct (mainpipe w); reflexivity.
Qed.

Lemma send_command_keeps_editor cmd : keeps editor (send cmd).
Proof.
  unfold send_command. apply keeps_bind.
  - intros w. destruct (needs_restart w);
      [apply restart_editor | reflexivity].
  - intros _ w. destruct (mainpipe w); reflexivity.
Qed.

Lemma command_seek_extends how l c :
  extends (command_seek popen_ok subprocess how l c).
Proof.
  unfold command_seek. apply extends_bind; [apply send_command_extends|].
  intros a. apply extends_bind; [apply extends_pure|].
  intros b. apply extends_bind; [apply extends_pure|].
  intros d. apply extends_pure.
Qed.

Lemma command_seek_keeps {X : Type} (f : World -> X) how l c :
  (forall cmd, keeps f (send cmd)) ->
  keeps f (command_seek popen_ok subprocess how l c).
Proof.
  intros H. unfold command_seek. apply keeps_bind; [apply H|].
  intros a. apply keeps_bind; [intros w; reflexivity|].
  intros b. apply keeps_bind; [intros w; reflexivity|].
  intros d w. reflexivity.
Qed.

Lemma tell_loop_extends fuel lines max_line :
  forall kind content end_line,
    extends (tell_loop popen_ok subprocess fuel lines max_line kind content
               end_line).
Proof.
  induction fuel as [|fuel IH]; intros kind content end_line; simpl.
  - apply extends_pure.
  - apply extends_bind; [apply send_command_extends|].
    intros r. destruct (py_truthy r); [apply extends_pure|].
    destruct (end_line <? max_line); apply IH.
Qed.

Lemma tell_loop_keeps {X : Type} (f : World -> X) fuel lines max_line :
  (forall cmd, keeps f (send cmd)) ->
  forall kind content end_line,
    keeps f (tell_loop popen_ok subprocess fuel lines max_line kind content
               end_line).
Proof.
  intros H.
  induction fuel as [|fuel IH]; intros kind content end_line; simpl.
  - intros w; reflexivity.
  - apply keeps_bind; [apply H|].
    intros r. destruct (py_truthy r); [intros w; reflexivity|].
    destruct (end_line <? max_line); apply IH.
Qed.

(** ** Buffer synchronisation *)

Lemma sends_first_bind_ret {A B : Type} (m : M A) (k : A -> M B) w a w1
  c cmds :
  m w = (Ret a, w1) -> sent w1 = (sent w ++ [c])%list ->
  sends_first cmds (k a) w1 ->
  sends_first (c :: cmds) (bind m k) w.
Proof.
  intros E S1 [more H]. exists more.
  rewrite (bind_ret _ _ _ _ _ E), H, S1, <- app_assoc. reflexivity.
Qed.

Lemma sends_first_nil {A : Type} (m : M A) w :
  extends m -> sends_first [] m w.
Proof. intros H. destruct (H w) as [more E]. exists more. assumption. Qed.

Lemma sends_first_one {A : Type} (m : M A) w w1 o c :
  m w = (o, w1) -> sent w1 = (sent w ++ [c])%list -> sends_first [c] m w.
Proof.
  intros E S1. exists []. rewrite E. simpl. rewrite S1. reflexivity.
Qed.

Lemma sends_first_bind {A B : Type} (m : M A) (k : A -> M B) w cmds :
  sends_first cmds m w -> (forall a, extends (k a)) ->
  sends_first cmds (bind m k) w.
Proof.
  intros [more H] Hk. unfold sends_first, bind.
  destruct (m w) as [[a|e|] w1]; simpl in *.
  - destruct (Hk a w1) as [more2 H2]. exists (more ++ more2)%list.
    rewrite H2, H, <- !app_assoc. reflexivity.
  - exists more; assumption.
  - exists more; assumption.
Qed.

Lemma sends_first_silent {A B : Type} (m : M A) (k : A -> M B) w a w1 cmds :
  m w = (Ret a, w1) -> sent w1 = sent w ->
  sends_first cmds (k a) w1 ->
  sends_first cmds (bind m k) w.
Proof.
  intros E S1 [more H]. exists more.
  rewrite (bind_ret _ _ _ _ _ E), H, S1. reflexivity.
Qed.

Lemma send_command_first w p cmd :
  live w = Some p -> sends_first [cmd] (send cmd) w.
Proof.
  intros L. eapply sends_first_one.
  - apply (send_command_run _ _ _ L).
  - reflexivity.
Qed.

Lemma sync_buffer_to_split fuel to_line to_col w :
  sync_buffer_to popen_ok subprocess fuel to_line to_col w =
  bind (pick to_line w) (feed fuel to_line to_col w) w.
Proof. reflexivity. Qed.

Lemma sync_buffer_to_split_fun fuel to_line to_col :
  sync_buffer_to popen_ok subprocess fuel to_line to_col =
  fun w => bind (pick to_line w) (feed fuel to_line to_col w) w.
Proof. reflexivity. Qed.

Lemma sync_feed_extends fuel to_line to_col w0 content :
  extends (feed fuel to_line to_col w0 content).
Proof.
  unfold sync_feed. apply extends_bind; [apply extends_same; reflexivity|].
  intros _. apply extends_bind.
  - destruct content; [apply extends_pure | apply tell_loop_extends].
  - intros _. apply extends_bind; [apply command_seek_extends|].
    intros _. apply extends_pure.
Qed.

(** With something to feed and fuel for one round, the first command of the
    feed is the [tell struct] of the whole content. *)
Lemma sync_feed_first fuel to_line to_col w0 x xs w p :
  live w = Some p ->
  sends_first [tell_cmd "struct" (Some (x :: xs))]
    (feed (S fuel) to_line to_col w0 (x :: xs)) w.
Proof.
  intros L. unfold sync_feed.
  eapply sends_first_silent; [reflexivity | reflexivity |].
  apply sends_first_bind.
  - simpl tell_loop. apply sends_first_bind.
    + apply (send_command_first _ p). exact L.
    + intros r. destruct (py_truthy r); [apply extends_pure|].
      match goal with |- context [if ?c then _ else _] => destruct c end;
        apply tell_loop_extends.
  - intros _. apply extends_bind; [apply command_seek_extends|].
    intros _. apply extends_pure.
Qed.


Lemma command_seek_return w p how l c line col :
  live w = Some p ->
  subprocess (pflags p) (received p ++ [seek_cmd how l c])
  = [VStr "return"; pos_obj line col] ->
  command_seek popen_ok subprocess how l c w
  = (Ret (VInt line, VInt col), after_send (seek_cmd how l c) p w).
Proof.
  intros L R. unfold command_seek.
  rewrite (bind_ret _ _ _ _ _ (send_command_return _ _ _ _ L R)).
  reflexivity.
Qed.

Lemma command_reset_first w p name :
  live w = Some p ->
  sends_first [reset_cmd name]
    (command_reset popen_ok subprocess (Some (basename name))) w.
Proof.
  intros L. unfold command_reset, reset_cmd.
  apply sends_first_bind.
  - destruct (negb (String.eqb (basename name) ""));
      apply (send_command_first _ p); exact L.
  - intros r. apply extends_bind; [apply extends_same; reflexivity|].
    intros _. apply extends_pure.
Qed.

Lemma command_reset_return w p name payload :
  live w = Some p ->
  subprocess (pflags p) (received p ++ [reset_cmd name])
  = [VStr "return"; payload] ->
  command_reset popen_ok subprocess (Some (basename name)) w
  = (Ret payload, set_saved_sync None (after_send (reset_cmd name) p w)).
Proof.
  intros L R. unfold command_reset. unfold reset_cmd in *.
  destruct (negb (String.eqb (basename name) ""));
    rewrite (bind_ret _ _ _ _ _ (send_command_return _ _ _ _ L R));
    reflexivity.
Qed.

Lemma sync_full_first w p lines name end_line :
  live w = Some p ->
  sends_first [reset_cmd name]
    (sync_full popen_ok subprocess lines name end_line) w.
Proof.
  intros L. unfold sync_full. apply sends_first_bind.
  - apply (command_reset_first _ p). exact L.
  - intros _. apply extends_pure.
Qed.

Lemma sync_full_return w p lines name end_line payload :
  live w = Some p ->
  subprocess (pflags p) (received p ++ [reset_cmd name])
  = [VStr "return"; payload] ->
  sync_full popen_ok subprocess lines name end_line w
  = (Ret (py_slice_to lines end_line),
     set_saved_sync None (after_send (reset_cmd name) p w)).
Proof.
  intros L R. unfold sync_full.
  rewrite (bind_ret _ _ _ _ _ (command_reset_return _ _ _ _ L R)).
  reflexivity.
Qed.

(** The seek answered with a line after the first, inside the buffer. *)
Lemma sync_incremental_far w p s lines name end_line line col this :
  live w = Some p ->
  subprocess (pflags p)
    (received p ++ [seek_cmd "before" (fst (sync_pos (editor w) s))
                      (snd (sync_pos (editor w) s))])
  = [VStr "return"; pos_obj line col] ->
  1 < line ->
  list_index lines (line - 1) = Ret this ->
  sync_incremental popen_ok subprocess s lines name end_line w
  = (Ret (str_slice_from this col :: py_slice lines line end_line),
     after_send (seek_cmd "before" (fst (sync_pos (editor w) s))
                   (snd (sync_pos (editor w) s))) p w).
Proof.
  intros L R Hl Hi. unfold sync_incremental.
  rewrite (bind_ret _ _ w (sync_pos (editor w) s) w) by reflexivity.
  unfold command_seek_before.
  rewrite (bind_ret _ _ _ _ _ (command_seek_return _ _ _ _ _ _ _ L R)).
  cbn [fst snd as_int]. unfold lift at 1, bind at 1.
  destruct (Z.leb_spec line 1); [lia|].
  unfold lift, bind. rewrite Hi. reflexivity.
Qed.

(** The seek answered with the first line or before: the full branch. *)
Lemma sync_incremental_near w p s lines name end_line line col :
  live w = Some p ->
  subprocess (pflags p)
    (received p ++ [seek_cmd "before" (fst (sync_pos (editor w) s))
                      (snd (sync_pos (editor w) s))])
  = [VStr "return"; pos_obj line col] ->
  line <= 1 ->
  sync_incremental popen_ok subprocess s lines name end_line w
  = sync_full popen_ok subprocess lines name end_line
      (after_send (seek_cmd "before" (fst (sync_pos (editor w) s))
                     (snd (sync_pos (editor w) s))) p w).
Proof.
  intros L R Hl. unfold sync_incremental.
  rewrite (bind_ret _ _ w (sync_pos (editor w) s) w) by reflexivity.
  unfold command_seek_before.
  rewrite (bind_ret _ _ _ _ _ (command_seek_return _ _ _ _ _ _ _ L R)).
  cbn [fst snd as_int]. unfold lift at 1, bind at 1.
  destruct (Z.leb_spec line 1); [reflexivity|lia].
Qed.


(** How a prefix of commands sent by the choice of the content and the
    first command of the feed combine. *)
Lemma sync_buffer_to_sends fuel to_line to_col w content w1 c cmds :
  pick to_line w w = (Ret content, w1) ->
  sent w1 = (sent w ++ c)%list ->
  sends_first cmds (feed fuel to_line to_col w content) w1 ->
  sends_first (c ++ cmds)
    (sync_buffer_to popen_ok subprocess fuel to_line to_col) w.
Proof.
  intros E S1 [more H]. exists more.
  rewrite sync_buffer_to_split.
  rewrite (bind_ret _ _ _ _ _ E), H, S1, <- !app_assoc. reflexivity.
Qed.


Lemma list_index_nth {A : Type} (l : list A) (i : Z) (x : A) :
  0 <= i -> nth_error l (Z.to_nat i) = Some x -> list_index l i = Ret x.
Proof.
  intros Hi Hn. unfold list_index.
  assert (Hlt : (Z.to_nat i < List.length l)%nat).
  { apply nth_error_Some. congruence. }
  destruct (Z.ltb_spec i 0); [lia|].
  destruct (Z.ltb_spec i 0); [lia|].
  destruct (Z.leb_spec (Z.of_nat (List.length l)) i); [lia|].
  simpl. rewrite Hn. reflexivity.
Qed.

(** The commands of a run that starts from a mark of the same buffer, by the
    answer to the seek. *)
Lemma sync_marked (fuel : nat) (to_line to_col : Z)
  (w : World) (s : Sync) (p : Pipe) (line col : Z) :
  saved_sync w = Some s ->
  bufnr (bufsync (editor w)) = bufnr s ->
  live w = Some p ->
  let lines := cb (editor w) in
  let end_line := Z.min to_line (Z.of_nat (List.length lines)) in
  let seek := seek_cmd "before" (fst (sync_pos (editor w) s))
                (snd (sync_pos (editor w) s)) in
  let reset := reset_cmd (cb_name (editor w)) in
  subprocess (pflags p) (received p ++ [seek])
  = [VStr "return"; pos_obj line col] ->
  let run := sync_buffer_to popen_ok subprocess (S fuel) to_line to_col in
  (line <= 1 -> sends_first [seek; reset] run w) /\
  (line <= 1 ->
   forall payload x xs,
     subprocess (pflags p) (received p ++ [seek; reset])
     = [VStr "return"; payload] ->
     py_slice_to lines end_line = x :: xs ->
     sends_first [seek; reset; tell_cmd "struct" (Some (x :: xs))] run w) /\
  (1 < line ->
   forall this,
     nth_error lines (Z.to_nat (line - 1)) = Some this ->
     sends_first
       [seek;
        tell_cmd "struct"
          (Some (str_slice_from this col :: py_slice lines line end_line))]
       run w).
Proof.
  intros Hs Hb L lines end_line seek reset R run.
  assert (Pk : pick to_line w
               = sync_incremental popen_ok subprocess s lines
                   (cb_name (editor w)) end_line).
  { unfold sync_pick. rewrite Hs.
    apply Z.eqb_eq in Hb. rewrite Hb. reflexivity. }
  pose proof (live_pipe_after_send _ _ seek L) as L1.
  split; [|split].
  - intros Hl. unfold run. rewrite sync_buffer_to_split_fun.
    apply sends_first_bind; [|intros c; apply sync_feed_extends].
    rewrite Pk. unfold sends_first.
    rewrite (sync_incremental_near _ _ _ _ _ _ _ _ L R Hl).
    destruct (sync_full_first _ _ lines (cb_name (editor w)) end_line L1)
      as [more H].
    exists more. etransitivity; [exact H|].
    simpl. rewrite <- app_assoc. reflexivity.
  - intros Hl payload x xs R2 Hc.
    apply (sync_buffer_to_sends _ _ _ _ (x :: xs)
             (set_saved_sync None
                (after_send reset (push seek p) (after_send seek p w)))
             [seek; reset] [tell_cmd "struct" (Some (x :: xs))]).
    + rewrite Pk, (sync_incremental_near _ _ _ _ _ _ _ _ L R Hl).
      rewrite <- Hc. apply (sync_full_return _ _ _ _ _ payload L1).
      simpl. rewrite <- app_assoc. exact R2.
    + simpl. rewrite <- app_assoc. reflexivity.
    + apply (sync_feed_first _ _ _ _ _ _ _ (push reset (push seek p))).
      apply (live_pipe_after_send _ _ reset L1).
  - intros Hl this Hn.
    apply (sync_buffer_to_sends _ _ _ _
             (str_slice_from this col :: py_slice lines line end_line)
             (after_send seek p w)
             [seek]
             [tell_cmd "struct"
                (Some (str_slice_from this col
                       :: py_slice lines line end_line))]).
    + rewrite Pk. apply (sync_incremental_far _ _ _ _ _ _ _ _ _ L R Hl).
      apply list_index_nth; [lia | exact Hn].
    + reflexivity.
    + apply (sync_feed_first _ _ _ _ _ _ _ (push seek p)). exact L1.
Qed.

(** Slices of the buffer and of a line, when the bounds are positions. *)
Lemma py_slice_lines {A : Type} (l : list A) (a b : Z) :
  0 <= a -> 0 <= b -> b <= Z.of_nat (List.length l) ->
  py_slice l a b = skipn (Z.to_nat a) (firstn (Z.to_nat b) l).
Proof.
  intros Ha Hb Hl. unfold py_slice, slice_bound.
  destruct (Z.ltb_spec a 0); [lia|]. destruct (Z.ltb_spec b 0); [lia|].
  rewrite (Z.min_r _ b), (Z.max_r 0 b) by lia.
  destruct (Z.le_gt_cases a b) as [C|C].
  - rewrite (Z.min_r _ a), (Z.max_r 0 a) by lia.
    rewrite firstn_skipn_comm. f_equal. f_equal. lia.
  - replace (Z.to_nat (b - Z.max 0 (Z.min (Z.of_nat (List.length l)) a)))
      with 0%nat by lia.
    simpl. symmetry. apply skipn_all2.
    rewrite length_firstn. lia.
Qed.

Lemma length_list_ascii (s : string) :
  List.length (list_ascii_of_string s) = String.length s.
Proof. induction s as [|c r IH]; simpl; [reflexivity | rewrite IH; reflexivity]. Qed.

Lemma substring_all (s : string) : String.substring 0 (String.length s) s = s.
Proof. induction s as [|c r IH]; simpl; [reflexivity | rewrite IH; reflexivity]. Qed.

Lemma skipn_substring (s : string) (n : nat) :
  string_of_list_ascii (skipn n (list_ascii_of_string s))
  = String.substring n (String.length s - n) s.
Proof.
  revert n. induction s as [|c r IH]; intros n.
  - destruct n; reflexivity.
  - destruct n as [|n].
    + simpl. rewrite string_of_list_ascii_of_string, substring_all.
      reflexivity.
    + simpl. apply IH.
Qed.

Lemma str_slice_from_line (this : string) (col : Z) :
  0 <= col -> str_slice_from this col = line_from this col.
Proof.
  intros H. unfold str_slice_from, py_slice_from, line_from.
  rewrite py_slice_lines by lia.
  rewrite Nat2Z.id, firstn_all. apply skipn_substring.
Qed.

(** C2: with a mark of the same buffer, [sync_buffer_to] first seeks before
    the position of the mark. When the answer is a line at or before the
    first, the reset follows, and (once it has returned) the buffer up to
    the target line is fed. Otherwise the first chunk fed is the rest of the
    returned line from the returned column, followed by the lines after it
    up to the target line (capped at the end of the buffer). The chunk is
    given as the text that goes over the wire. *)
Theorem sync_buffer_to_with_mark (fuel : nat) (to_line to_col : Z)
  (w : World) (s : Sync) (p : Pipe) (line col : Z) :
  saved_sync w = Some s ->
  bufnr (bufsync (editor w)) = bufnr s ->
  live w = Some p ->
  0 <= to_line -> 0 <= col ->
  let lines := cb (editor w) in
  let end_line := Z.min to_line (Z.of_nat (List.length lines)) in
  let seek := seek_cmd "before" (fst (sync_pos (editor w) s))
                (snd (sync_pos (editor w) s)) in
  let reset := reset_cmd (cb_name (editor w)) in
  subprocess (pflags p) (received p ++ [seek])
  = [VStr "return"; pos_obj line col] ->
  let run := sync_buffer_to popen_ok subprocess (S fuel) to_line to_col in
  (line <= 1 -> sends_first [seek; reset] run w) /\
  (line <= 1 ->
   forall payload x xs,
     subprocess (pflags p) (received p ++ [seek; reset])
     = [VStr "return"; payload] ->
     lines_between lines 0 end_line = x :: xs ->
     sends_first
       [seek; reset;
        [VStr "tell"; VStr "struct"; VStr (lines_text (x :: xs))]] run w) /\
  (1 < line ->
   forall this,
     nth_error lines (Z.to_nat (line - 1)) = Some this ->
     sends_first
       [seek;
        [VStr "tell"; VStr "struct";
         VStr (lines_text
                 (line_from this col :: lines_between lines line end_line))]]
       run w).
Proof.
  intros Hs Hb L Ht Hc lines end_line seek reset R run.
  destruct (sync_marked fuel to_line to_col w s p line col Hs Hb L R)
    as (A & B & C).
  assert (He0 : 0 <= end_line) by (unfold end_line; lia).
  assert (He1 : end_line <= Z.of_nat (List.length lines))
    by (unfold end_line; lia).
  split; [exact A|]. split.
  - intros Hl payload x xs Rr Hx.
    apply (B Hl payload x xs Rr).
    unfold py_slice_to. rewrite py_slice_lines by lia. exact Hx.
  - intros Hl this Hn.
    pose proof (C Hl this Hn) as H.
    rewrite (str_slice_from_line this col Hc) in H.
    fold lines in H. fold end_line in H.
    rewrite (py_slice_lines lines line end_line) in H by lia.
    exact H.
Qed.


(** With nothing to feed, the feed goes straight to the exact seek. *)
Lemma sync_feed_empty_first fuel to_line to_col w0 w p :
  live w = Some p ->
  sends_first [seek_cmd "exact" to_line to_col]
    (feed fuel to_line to_col w0 []) w.
Proof.
  intros L. unfold sync_feed.
  eapply sends_first_silent; [reflexivity | reflexivity |].
  eapply sends_first_silent; [reflexivity | reflexivity |].
  apply sends_first_bind.
  - unfold command_seek_exact, command_seek. apply sends_first_bind.
    + apply (send_command_first _ p). exact L.
    + intros a. apply extends_bind; [apply extends_pure|].
      intros b. apply extends_bind; [apply extends_pure|].
      intros d. apply extends_pure.
  - intros _. apply extends_pure.
Qed.


Lemma command_reset_clears name w r w1 :
  command_reset popen_ok subprocess name w = (Ret r, w1) ->
  saved_sync w1 = None.
Proof.
  unfold command_reset, bind.
  match goal with |- context [if ?c then ?a else ?b] =>
    destruct ((if c then a else b) w) as [[v|e|] w'] end;
    simpl; intros H; inversion H; reflexivity.
Qed.




(** ** The mark across runs *)

Lemma bind_ret_inv {A B : Type} (m : M A) (k : A -> M B) w b w' :
  bind m k w = (Ret b, w') ->
  exists a w1, m w = (Ret a, w1) /\ k a w1 = (Ret b, w').
Proof.
  unfold bind. destruct (m w) as [[a|e|] w1]; intros H; try discriminate.
  exists a, w1. split; [reflexivity | exact H].
Qed.

Lemma mark_kept_bind {A B : Type} (m : M A) (k : A -> M B) :
  keeps saved_sync m -> keeps editor m ->
  (forall a, mark_kept_or_cleared (k a)) ->
  mark_kept_or_cleared (bind m k).
Proof.
  intros Hs He Hk w. unfold bind.
  pose proof (Hs w) as S1. pose proof (He w) as E1.
  destruct (m w) as [[a|e|] w1]; simpl in *.
  - destruct (Hk a w1) as [E2 S2]. rewrite E1 in E2. rewrite S1 in S2.
    split; assumption.
  - split; [assumption | left; assumption].
  - split; [assumption | left; assumption].
Qed.

Lemma mark_kept_pure {A : Type} (o : outcome A) :
  mark_kept_or_cleared (fun w => (o, w)).
Proof. intros w. split; [reflexivity | left; reflexivity]. Qed.

Lemma sync_full_mark lines name end_line :
  mark_kept_or_cleared (sync_full popen_ok subprocess lines name end_line).
Proof.
  intros w. unfold sync_full, command_reset.
  set (c := if negb (String.eqb (basename name) "") then _ else _).
  assert (Ks : saved_sync (snd (c w)) = saved_sync w).
  { subst c. destruct (negb _); apply send_command_keeps_saved_sync. }
  assert (Ke : editor (snd (c w)) = editor w).
  { subst c. destruct (negb _); apply send_command_keeps_editor. }
  unfold bind, modify, ret. destruct (c w) as [[a|e|] w1]; simpl in *.
  - split; [assumption | right; split; [eexists; reflexivity | reflexivity]].
  - split; [assumption | left; assumption].
  - split; [assumption | left; assumption].
Qed.

Lemma sync_incremental_mark s lines name end_line :
  mark_kept_or_cleared
    (sync_incremental popen_ok subprocess s lines name end_line).
Proof.
  unfold sync_incremental.
  apply mark_kept_bind; [intros w; reflexivity | intros w; reflexivity |].
  intros pos. apply mark_kept_bind.
  - apply command_seek_keeps. apply send_command_keeps_saved_sync.
  - apply command_seek_keeps. apply send_command_keeps_editor.
  - intros lc.
    apply mark_kept_bind; [intros w; reflexivity | intros w; reflexivity |].
    intros line. destruct (line <=? 1); [apply sync_full_mark|].
    apply mark_kept_bind; [intros w; reflexivity | intros w; reflexivity |].
    intros this.
    apply mark_kept_bind; [intros w; reflexivity | intros w; reflexivity |].
    intros col. apply mark_kept_pure.
Qed.

Lemma sync_pick_mark to_line w0 : mark_kept_or_cleared (pick to_line w0).
Proof.
  unfold sync_pick. destruct (saved_sync w0) as [s|].
  - destruct (_ =? _); [apply sync_incremental_mark | apply sync_full_mark].
  - apply sync_full_mark.
Qed.

(** Whatever the feed does, it leaves the fresh token as the mark. *)
Lemma sync_feed_mark fuel to_line to_col w0 content w :
  saved_sync (snd (feed fuel to_line to_col w0 content w))
  = Some (bufsync (editor w0)) /\
  editor (snd (feed fuel to_line to_col w0 content w)) = editor w.
Proof.
  unfold sync_feed.
  rewrite (bind_ret _ _ w tt (set_saved_sync (Some (bufsync (editor w0))) w))
    by reflexivity.
  set (w1 := set_saved_sync _ w).
  set (rest := bind _ _).
  assert (Ks : keeps saved_sync rest).
  { subst rest. apply keeps_bind.
    - destruct content; [intros x; reflexivity|].
      apply tell_loop_keeps. apply send_command_keeps_saved_sync.
    - intros _. apply keeps_bind; [|intros _ x; reflexivity].
      apply command_seek_keeps. apply send_command_keeps_saved_sync. }
  assert (Ke : keeps editor rest).
  { subst rest. apply keeps_bind.
    - destruct content; [intros x; reflexivity|].
      apply tell_loop_keeps. apply send_command_keeps_editor.
    - intros _. apply keeps_bind; [|intros _ x; reflexivity].
      apply command_seek_keeps. apply send_command_keeps_editor. }
  rewrite Ks, Ke. split; reflexivity.
Qed.

Lemma sync_buffer_to_keeps_editor fuel to_line to_col :
  keeps editor (sync_buffer_to popen_ok subprocess fuel to_line to_col).
Proof.
  intros w. rewrite sync_buffer_to_split. unfold bind.
  destruct (sync_pick_mark to_line w w) as [E _].
  destruct (pick to_line w w) as [[c|e|] w1]; simpl in *; try assumption.
  destruct (sync_feed_mark fuel to_line to_col w c w1) as [_ E2].
  rewrite E2. assumption.
Qed.

(** A run that returns has recorded the fresh token. *)
Lemma sync_buffer_to_records fuel to_line to_col w w1 :
  sync_buffer_to popen_ok subprocess fuel to_line to_col w = (Ret tt, w1) ->
  saved_sync w1 = Some (bufsync (editor w)).
Proof.
  rewrite sync_buffer_to_split. intros H.
  apply bind_ret_inv in H. destruct H as (c & w0 & _ & H).
  destruct (sync_feed_mark fuel to_line to_col w c w0) as [S _].
  rewrite H in S. exact S.
Qed.


(** After a command that returned, the subprocess runs. *)
Lemma send_command_ret_live cmd w v w1 :
  send cmd w = (Ret v, w1) -> exists p, live w1 = Some p.
Proof.
  unfold send_command, bind, restart.
  destruct (needs_restart w) eqn:N.
  - destruct (popen_ok _) eqn:P.
    + destruct (mainpipe w); simpl; intros H; inversion H;
        eexists; reflexivity.
    + destruct (mainpipe w); discriminate.
  - unfold needs_restart in N. destruct (mainpipe w) as [q|] eqn:Q;
      [|discriminate].
    intros H; inversion H. unfold live_pipe, needs_restart; simpl.
    rewrite N. eexists; reflexivity.
Qed.

Lemma sync_buffer_to_ret_live fuel to_line to_col w w1 :
  sync_buffer_to popen_ok subprocess fuel to_line to_col w = (Ret tt, w1) ->
  exists p, live w1 = Some p.
Proof.
  rewrite sync_buffer_to_split. intros H.
  apply bind_ret_inv in H. destruct H as (c & w0 & _ & H).
  unfold sync_feed in H.
  apply bind_ret_inv in H. destruct H as (u1 & x1 & _ & H).
  apply bind_ret_inv in H. destruct H as (u2 & x2 & _ & H).
  apply bind_ret_inv in H. destruct H as (u3 & x3 & H & H3).
  inversion H3; subst. unfold command_seek_exact, command_seek in H.
  apply bind_ret_inv in H. destruct H as (v & y & H & H4).
  apply bind_ret_inv in H4. destruct H4 as (l1 & y1 & H4 & H5).
  apply bind_ret_inv in H5. destruct H5 as (l2 & y2 & H5 & H6).
  unfold lift in H4, H5. inversion H4; inversion H5; inversion H6; subst.
  apply (send_command_ret_live _ _ _ _ H).
Qed.





(** ** The feed loop *)

Lemma py_slice_between {A : Type} (l : list A) (a b : Z) :
  0 <= a -> a <= b -> b <= Z.of_nat (List.length l) ->
  py_slice l a b = firstn (Z.to_nat b - Z.to_nat a) (skipn (Z.to_nat a) l).
Proof.
  intros Ha Hab Hb. unfold py_slice, slice_bound.
  destruct (Z.ltb_spec a 0); [lia|]. destruct (Z.ltb_spec b 0); [lia|].
  rewrite (Z.min_r _ a), (Z.min_r _ b) by lia.
  rewrite !Z.max_r by lia.
  f_equal. lia.
Qed.

Lemma py_slice_app {A : Type} (l : list A) (a b c : Z) :
  0 <= a -> a <= b -> b <= c -> c <= Z.of_nat (List.length l) ->
  (py_slice l a b ++ py_slice l b c)%list = py_slice l a c.
Proof.
  intros Ha Hab Hbc Hc.
  rewrite !py_slice_between by lia.
  assert (E : skipn (Z.to_nat b) l
              = skipn (Z.to_nat b - Z.to_nat a) (skipn (Z.to_nat a) l)).
  { rewrite skipn_skipn. f_equal. lia. }
  rewrite E. clear E.
  replace (Z.to_nat c - Z.to_nat a)%nat
    with ((Z.to_nat b - Z.to_nat a) + (Z.to_nat c - Z.to_nat b))%nat by lia.
  set (x := skipn (Z.to_nat a) l).
  set (n := (Z.to_nat b - Z.to_nat a)%nat).
  set (k := (Z.to_nat c - Z.to_nat b)%nat).
  rewrite <- (firstn_skipn n x) at 3.
  rewrite firstn_app, firstn_firstn.
  assert (Hn : (n <= List.length x)%nat).
  { subst n x. rewrite length_skipn. lia. }
  rewrite length_firstn, (Nat.min_l n (List.length x)) by exact Hn.
  rewrite (Nat.min_r (n + k) n) by lia.
  replace (n + k - n)%nat with k by lia.
  reflexivity.
Qed.

(** No line is sent twice: the windows are consecutive slices. *)
Lemma windows_concat (lines : list string) (end_line : Z) (k : nat) :
  let max_line := Z.of_nat (List.length lines) in
  0 <= end_line -> end_line <= max_line ->
  List.concat (map (window lines max_line end_line) (seq 0 k))
  = py_slice lines end_line (Z.min max_line (end_line + 20 * Z.of_nat k)).
Proof.
  intros max_line H0 H1. induction k as [|k IH].
  - simpl. rewrite Z.add_0_r, Z.min_r by lia.
    rewrite py_slice_between by lia.
    rewrite Nat.sub_diag. reflexivity.
  - rewrite seq_S, map_app, List.concat_app, IH. simpl List.concat.
    rewrite app_nil_r. unfold window. simpl Nat.add.
    destruct (Z.le_gt_cases (end_line + 20 * Z.of_nat k) max_line) as [C|C].
    + rewrite (Z.min_r max_line (end_line + 20 * Z.of_nat k)) by lia.
      apply py_slice_app; lia.
    + rewrite (Z.min_l max_line (end_line + 20 * Z.of_nat k)) by lia.
      rewrite (Z.min_l max_line (end_line + 20 * Z.of_nat (S k))) by lia.
      assert (E : py_slice lines (end_line + 20 * Z.of_nat k) max_line = []).
      { unfold py_slice, slice_bound.
        destruct (Z.ltb_spec (end_line + 20 * Z.of_nat k) 0); [lia|].
        destruct (Z.ltb_spec (Z.of_nat (List.length lines)) 0); [lia|].
        match goal with
        | |- firstn ?n _ = [] => replace n with 0%nat by lia
        end.
        reflexivity. }
      rewrite E, app_nil_r. reflexivity.
Qed.


Lemma dispatch_not_timeout result : dispatch result <> Timeout.
Proof.
  unfold dispatch. destruct result as [|tag rest]; [discriminate|].
  destruct (is_str "return" tag); [discriminate|].
  destruct (is_str "failure" tag); [discriminate|].
  destruct (is_str "error" tag); [discriminate|].
  destruct (is_str "exception" tag); discriminate.
Qed.

Lemma rounds_step (max_line end_line : Z) :
  end_line < max_line ->
  rounds max_line end_line
  = S (rounds max_line (Z.min max_line (end_line + 20))).
Proof.
  intros H. unfold rounds.
  destruct (Z.le_gt_cases (end_line + 20) max_line) as [C|C].
  - rewrite Z.min_r by lia.
    replace (max_line - end_line + 19)
      with (max_line - (end_line + 20) + 19 + 1 * 20) by lia.
    rewrite Z.div_add by lia.
    assert (0 <= (max_line - (end_line + 20) + 19) / 20)
      by (apply Z.div_pos; lia).
    lia.
  - rewrite Z.min_l by lia.
    replace (max_line - max_line + 19) with 19 by lia.
    replace ((max_line - end_line + 19) / 20) with 1.
    + reflexivity.
    + apply Z.div_unique with (r := max_line - end_line - 1); lia.
Qed.

Lemma rounds_done (max_line end_line : Z) :
  max_line <= end_line -> end_line <= max_line -> rounds max_line end_line = 0%nat.
Proof.
  intros A B. unfold rounds.
  replace (max_line - end_line + 19) with 19 by lia. reflexivity.
Qed.

Lemma windows_shift {B : Type} (f : list string -> B) (lines : list string)
  (max_line end_line : Z) (k : nat) :
  end_line + 20 <= max_line ->
  map (fun i => f (window lines max_line end_line i)) (seq 1 k)
  = map (fun i => f (window lines max_line
                       (Z.min max_line (end_line + 20)) i)) (seq 0 k).
Proof.
  intros C. rewrite <- seq_shift, map_map. apply map_ext. intros i.
  unfold window. rewrite (Z.min_r max_line (end_line + 20)) by lia.
  f_equal. f_equal; [lia | f_equal; lia].
Qed.


Lemma tell_loop_step fuel lines max_line kind content end_line w p :
  live w = Some p ->
  tell_loop popen_ok subprocess (S fuel) lines max_line kind content
    end_line w
  = let w1 := after_send (tell_cmd kind content) p w in
    match dispatch (subprocess (pflags p)
                      (received p ++ [tell_cmd kind content])) with
    | Ret r =>
        if py_truthy r then (Ret tt, w1)
        else if end_line <? max_line
             then tell_loop popen_ok subprocess fuel lines max_line "end"
                    (Some (py_slice lines end_line
                             (Z.min max_line (end_line + 20))))
                    (Z.min max_line (end_line + 20)) w1
             else tell_loop popen_ok subprocess fuel lines max_line "end"
                    None end_line w1
    | Raise x => (Raise x, w1)
    | Timeout => (Timeout, w1)
    end.
Proof.
  intros L. simpl tell_loop. unfold command_tell, bind.
  rewrite (send_command_run _ _ _ L). fold (tell_cmd kind content).
  destruct (dispatch _) as [r|x|]; try reflexivity.
  destruct (py_truthy r); [reflexivity|].
  destruct (end_line <? max_line); reflexivity.
Qed.

(** A run that stops after its first command. *)
Lemma feed_run_stop lines kind content end_line p fuel w o w1 :
  0 <= end_line ->
  sent w1 = (sent w ++ [tell_cmd kind content])%list ->
  o <> Timeout ->
  feed_run subprocess lines kind content end_line p fuel w (o, w1).
Proof.
  intros H0 S1 Ho. exists 0%nat, 0%nat. simpl.
  repeat split; try lia; try assumption; try (intros; contradiction).
Qed.

Lemma tell_loop_feed_run lines fuel :
  forall kind content end_line w p,
    live w = Some p ->
    0 <= end_line -> end_line <= Z.of_nat (List.length lines) ->
    feed_run subprocess lines kind content end_line p fuel w
      (tell_loop popen_ok subprocess (S fuel) lines
         (Z.of_nat (List.length lines)) kind content end_line w).
Proof.
  set (max_line := Z.of_nat (List.length lines)).
  induction fuel as [|fuel IH]; intros kind content end_line w p L H0 H1;
    rewrite (tell_loop_step _ _ _ _ _ _ _ _ L); cbv zeta;
    set (w1 := after_send (tell_cmd kind content) p w);
    assert (S1 : sent w1 = (sent w ++ [tell_cmd kind content])%list)
      by reflexivity;
    pose proof (live_pipe_after_send _ _ (tell_cmd kind content) L) as L1;
    fold w1 in L1;
    destruct (dispatch _) as [r|x|] eqn:D;
    try (apply feed_run_stop;
         [assumption | assumption | discriminate]);
    try (exfalso; exact (dispatch_not_timeout _ D)).
  - (* no fuel for a second round *)
    destruct (py_truthy r) eqn:T.
    + apply feed_run_stop;
        [assumption | assumption | discriminate].
    + assert (R0 : feed_run subprocess lines kind content end_line p 0 w
                     (Timeout, w1)).
      { exists 0%nat, 0%nat. simpl.
        repeat split; try lia; try assumption; try (intros; contradiction).
        all: intros; subst;
          match goal with
          | Hsat : satisfied_at_eof _ _ |- _ => pose proof (Hsat _ _ D)
          end; congruence. }
      destruct (end_line <? max_line); exact R0.
  - destruct (py_truthy r) eqn:T.
    + apply feed_run_stop;
        [assumption | assumption | discriminate].
    + destruct (Z.ltb_spec end_line max_line) as [C|C].
      * (* one more window *)
        set (next_end := Z.min max_line (end_line + 20)).
        assert (N0 : 0 <= next_end) by (unfold next_end; lia).
        assert (N1 : next_end <= max_line) by (unfold next_end; lia).
        destruct (IH "end" (Some (py_slice lines end_line next_end))
                    next_end w1 _ L1 N0 N1)
          as (k & m & Hk & Hm & Hf & Hs & Ht & He).
        exists (S k), m.
        pose proof (rounds_step max_line end_line C) as RS.
        fold next_end in RS. fold max_line in Hk, Hm, Hs |- *.
        split; [lia|]. split; [intros X; rewrite RS, (Hm X); reflexivity|].
        split; [lia|].
        split.
        { rewrite Hs, S1, <- app_assoc. f_equal.
          unfold feed_plan. simpl. f_equal. f_equal.
          - unfold window. simpl Z.of_nat.
            replace (end_line + 20 * 0) with end_line by lia.
            replace (end_line + 20 * 1) with (end_line + 20) by lia.
            reflexivity.
          - f_equal.
            destruct (Z.le_gt_cases (end_line + 20) max_line) as [C2|C2].
            + symmetry.
              apply (windows_shift (fun c => tell_cmd "end" (Some c))).
              exact C2.
            + assert (K0 : k = 0%nat).
              { assert (rounds max_line next_end = 0%nat).
                { apply rounds_done; unfold next_end; lia. }
                lia. }
              subst k. reflexivity. }
        split; [intros X; pose proof (Ht X); lia|].
        intros Sat. destruct (He Sat) as (A & B & _).
        split; [exact A|]. split; [exact B|].
        intros; subst. pose proof (Sat _ _ D). congruence.
      * (* the buffer is spent: a tell without lines *)
        destruct (IH "end" None end_line w1 _ L1 H0 H1)
          as (k & m & Hk & Hm & Hf & Hs & Ht & He).
        assert (RD : rounds max_line end_line = 0%nat)
          by (apply rounds_done; assumption).
        fold max_line in Hk, Hm, Hs. rewrite RD in Hk.
        assert (K0 : k = 0%nat) by lia. subst k.
        exists 0%nat, (S m). fold max_line.
        split; [lia|]. split; [intros _; symmetry; exact RD|].
        split; [lia|].
        split.
        { rewrite Hs, S1, <- app_assoc. reflexivity. }
        split; [intros X; pose proof (Ht X); lia|].
        intros Sat. destruct (He Sat) as (_ & _ & E).
        destruct (E eq_refl eq_refl) as (_ & M0 & NT).
        split; [lia|]. split; [intros X; contradiction|].
        intros; subst. pose proof (Sat _ _ D). congruence.
Qed.


(** [rounds] is the ceiling of [(max_line - end_line) / 20]. *)
Lemma rounds_ceil (max_line end_line : Z) :
  end_line <= max_line ->
  max_line - end_line <= 20 * Z.of_nat (rounds max_line end_line)
  /\ 20 * Z.of_nat (rounds max_line end_line) < max_line - end_line + 20.
Proof.
  intros H. unfold rounds.
  assert (0 <= (max_line - end_line + 19) / 20) by (apply Z.div_pos; lia).
  rewrite Z2Nat.id by assumption.
  pose proof (Z.div_mod (max_line - end_line + 19) 20 ltac:(lia)).
  pose proof (Z.mod_pos_bound (max_line - end_line + 19) 20 ltac:(lia)).
  lia.
Qed.

Lemma asked_for_more_cons (c : command) (p : Pipe) (plan : list command)
  (j : nat) :
  asked_for_more subprocess (push c p) plan j ->
  asked_for_more subprocess p (c :: plan) (S j).
Proof.
  intros (v & D & T). exists v. split; [|exact T].
  unfold push in D. cbn [pflags received] in D.
  rewrite <- app_assoc in D. exact D.
Qed.

(** The answers that drive the loop. *)
Lemma tell_loop_answers (lines : list string) (max_line : Z) (fuel : nat) :
  forall kind content end_line w p,
    live w = Some p ->
    let run := tell_loop popen_ok subprocess (S fuel) lines max_line kind
                 content end_line w in
    exists plan,
      sent (snd run) = (sent w ++ plan)%list /\
      feed_outcome subprocess p plan fuel (fst run).
Proof.
  induction fuel as [|fuel IH]; intros kind content end_line w p L;
    cbv zeta; rewrite (tell_loop_step _ _ _ _ _ _ _ _ L); cbv zeta;
    set (c := tell_cmd kind content);
    set (w1 := after_send c p w);
    pose proof (live_pipe_after_send _ _ c L) as L1; fold w1 in L1;
    destruct (dispatch (subprocess (pflags p) (received p ++ [c])))
      as [r|x|] eqn:D;
    try (exfalso; exact (dispatch_not_timeout _ D));
    try (exists [c]; split; [reflexivity|];
         split; [intros j Hj; simpl in Hj; lia | exact D]).
  - destruct (py_truthy r) eqn:T.
    + exists [c]. split; [reflexivity|].
      split; [intros j Hj; simpl in Hj; lia|].
      exists r. split; [exact D | exact T].
    + assert (R0 : exists plan,
                sent w1 = (sent w ++ plan)%list /\
                feed_outcome subprocess p plan 0 Timeout).
      { exists [c]. split; [reflexivity|].
        split; [intros j Hj; simpl in Hj; lia|].
        split; [reflexivity|]. exists r. split; [exact D | exact T]. }
      destruct (end_line <? max_line); exact R0.
  - destruct (py_truthy r) eqn:T.
    + exists [c]. split; [reflexivity|].
      split; [intros j Hj; simpl in Hj; lia|].
      exists r. split; [exact D | exact T].
    + assert (G : forall kind' content' end',
                exists plan,
                  sent (snd (tell_loop popen_ok subprocess (S fuel) lines
                               max_line kind' content' end' w1))
                  = (sent w ++ plan)%list /\
                  feed_outcome subprocess p plan (S fuel)
                    (fst (tell_loop popen_ok subprocess (S fuel) lines
                            max_line kind' content' end' w1))).
      { intros kind' content' end'.
        destruct (IH kind' content' end' w1 (push c p) L1)
          as (plan & Hs & Ha & Ho).
        exists (c :: plan). split.
        - rewrite Hs. unfold w1, after_send. simpl.
          rewrite <- app_assoc. reflexivity.
        - split.
          + intros [|j] Hj.
            * exists r. split; [exact D | exact T].
            * apply asked_for_more_cons. apply Ha. simpl in Hj. lia.
          + destruct (fst (tell_loop popen_ok subprocess (S fuel) lines
                             max_line kind' content' end' w1)) as [u|e|].
            * destruct Ho as (v & Dv & Tv). exists v. split; [|exact Tv].
              unfold push in Dv. cbn [pflags received] in Dv.
              rewrite <- app_assoc in Dv. exact Dv.
            * unfold push in Ho. cbn [pflags received] in Ho.
              rewrite <- app_assoc in Ho. exact Ho.
            * destruct Ho as [Hl Hm]. split; [simpl; rewrite Hl; reflexivity|].
              apply asked_for_more_cons. exact Hm. }
      destruct (end_line <? max_line); apply G.
Qed.

Lemma window_lines (lines : list string) (end_line : Z) (i : nat) :
  let max_line := Z.of_nat (List.length lines) in
  0 <= end_line ->
  window lines max_line end_line i
  = lines_between lines (end_line + 20 * Z.of_nat i)
      (Z.min max_line (end_line + 20 * Z.of_nat (S i))).
Proof.
  intros max_line H. unfold window, lines_between.
  apply py_slice_lines; unfold max_line; lia.
Qed.

(** C4, as the code has it. The loop, started with [end_line] lines fed,
    sends its first chunk and goes on for as long as the subprocess asks
    for more: with [k] tells that carry the windows of the following
    lines, 20 at a time and one after the other, [k] being at most the
    ceiling of [(max_line - end_line) / 20], and then, the buffer being
    spent, with [m] tells that carry no lines. It returns on the first
    answer that is a truthy result and raises what an answer makes it
    raise; nothing else ends it. Against a subprocess that is satisfied
    when told the end of the input there is at most one tell without
    lines, and fuel for [rounds + 2] commands is enough for the loop to
    end. *)
Theorem feed_loop_rounds (fuel : nat) (lines : list string) (kind : string)
  (content : option (list string)) (end_line : Z) (w : World) (p : Pipe) :
  let max_line := Z.of_nat (List.length lines) in
  live w = Some p ->
  0 <= end_line -> end_line <= max_line ->
  let run := tell_loop popen_ok subprocess (S fuel) lines max_line kind
               content end_line w in
  max_line - end_line <= 20 * Z.of_nat (rounds max_line end_line) /\
  20 * Z.of_nat (rounds max_line end_line) < max_line - end_line + 20 /\
  exists k m : nat,
    let plan := feed_plan lines max_line end_line kind content k m in
    (k <= rounds max_line end_line)%nat /\
    (m <> 0%nat -> k = rounds max_line end_line) /\
    sent (snd run) = (sent w ++ plan)%list /\
    feed_outcome subprocess p plan fuel (fst run) /\
    (forall i, (i < k)%nat ->
       window lines max_line end_line i
       = lines_between lines (end_line + 20 * Z.of_nat i)
           (Z.min max_line (end_line + 20 * Z.of_nat (S i)))) /\
    List.concat (map (window lines max_line end_line) (seq 0 k))
    = lines_between lines end_line
        (Z.min max_line (end_line + 20 * Z.of_nat k)) /\
    (1 + k + m <= S fuel)%nat /\
    (satisfied_at_eof subprocess (pflags p) ->
     (m <= 1)%nat /\
     ((rounds max_line end_line + 2 <= S fuel)%nat -> fst run <> Timeout)).
Proof.
  intros max_line L H0 H1 run.
  destruct (rounds_ceil max_line end_line H1) as [C1 C2].
  split; [exact C1|]. split; [exact C2|].
  destruct (tell_loop_feed_run lines fuel kind content end_line w p L H0 H1)
    as (k & m & Hk & Hm & Hf & Hs & Ht & He).
  destruct (tell_loop_answers lines max_line fuel kind content end_line w p L)
    as (plan & Hp & Ho).
  exists k, m. fold max_line in Hk, Hm, Hs. fold run in Hs, Ht, He, Hp, Ho.
  cbv zeta.
  assert (E : plan = feed_plan lines max_line end_line kind content k m).
  { rewrite Hp in Hs. apply app_inv_head in Hs. exact Hs. }
  rewrite <- E.
  split; [exact Hk|]. split; [exact Hm|]. split; [exact Hp|].
  split; [exact Ho|].
  split; [intros i _; apply window_lines; exact H0|].
  split.
  { pose proof (windows_concat lines end_line k H0 H1) as WC.
    cbv zeta in WC. fold max_line in WC. rewrite WC.
    unfold lines_between. apply py_slice_lines; unfold max_line; lia. }
  split; [exact Hf|].
  intros Sat. destruct (He Sat) as (M1 & M0 & _).
  split; [exact M1|].
  intros F T. pose proof (Ht T). pose proof (M0 T). lia.
Qed.



(** ** Highlight matchers *)

Lemma easy_matcher_region (start stop : Position) :
  easy_matcher start stop
  = show_region
      (mkRegion
         (if 0 <? pos_line start then Some (pos_line start - 1) else None)
         (if 0 <? pos_col start then Some (pos_col start) else None)
         (pos_line stop + 1) (pos_col stop + 1)).
Proof.
  unfold easy_matcher, show_region. simpl.
  destruct (0 <? pos_line start), (0 <? pos_col start); reflexivity.
Qed.

(** C10: the pattern of a span of several lines has three branches. The
    first covers the start line from the start column and the second the
    lines between, and both end before column 4243, so that no character
    after column 4242 of those lines is matched; the third covers the end
    line up to the end column of the span. A span of one line has the one
    branch of [easy_matcher], which ends at the end column of the span. *)
Theorem hard_matcher_column_bound (start stop : Position) :
  0 < pos_line start ->
  pos_line start < pos_line stop ->
  let first :=
    mkRegion (Some (pos_line start - 1))
      (if 0 <? pos_col start then Some (pos_col start) else None)
      (pos_line start + 1) 4243 in
  let middle := mkRegion (Some (pos_line start)) None (pos_line stop) 4243 in
  let last :=
    mkRegion (Some (pos_line stop - 1)) None
      (pos_line stop + 1) (pos_col stop + 1) in
  make_matcher start stop = hard_matcher start stop /\
  hard_matcher start stop
  = show_region first ++ "\|" ++ show_region middle ++ "\|"
    ++ show_region last /\
  (forall l c : Z,
     l < pos_line stop -> 4242 < c ->
     in_region first l c || in_region middle l c || in_region last l c
     = false) /\
  (forall l c : Z,
     in_region last l c = true ->
     l = pos_line stop /\ c <= pos_col stop) /\
  (forall a b : Position,
     pos_line a = pos_line b ->
     make_matcher a b
     = show_region
         (mkRegion
            (if 0 <? pos_line a then Some (pos_line a - 1) else None)
            (if 0 <? pos_col a then Some (pos_col a) else None)
            (pos_line b + 1) (pos_col b + 1))).
Proof.
  intros H0 H1 first middle last.
  split.
  { unfold make_matcher. destruct (Z.eqb_spec (pos_line start) (pos_line stop));
      [lia | reflexivity]. }
  split.
  { unfold hard_matcher. cbv zeta. rewrite !easy_matcher_region.
    cbn [pos_line pos_col].
    destruct (Z.ltb_spec 0 (pos_line start)); [|lia].
    destruct (Z.ltb_spec 0 (pos_line start + 1)); [|lia].
    destruct (Z.ltb_spec 0 (pos_line stop)); [|lia].
    replace (pos_line start + 1 - 1) with (pos_line start) by lia.
    replace (pos_line stop - 1 + 1) with (pos_line stop) by lia.
    reflexivity. }
  split.
  { intros l c Hl Hc. unfold in_region, first, middle, last.
    cbn [line_above col_above line_below col_below].
    destruct (Z.ltb_spec c 4243); [lia|].
    destruct (Z.ltb_spec (pos_line stop - 1) l); [lia|].
    rewrite !andb_false_r. reflexivity. }
  split.
  { intros l c H. unfold in_region, last in H.
    cbn [line_above col_above line_below col_below] in H.
    rewrite !andb_true_iff in H. destruct H as [[[A _] B] C].
    apply Z.ltb_lt in A, B, C. lia. }
  intros a b E. unfold make_matcher.
  destruct (Z.eqb_spec (pos_line a) (pos_line b)); [|contradiction].
  apply easy_matcher_region.
Qed.


(** ** The navigator *)

#[local] Abbreviation show := (show_enclosing py_repr).
#[local] Abbreviation next := (vim_next_enclosing py_repr).
#[local] Abbreviation prev := (vim_prev_enclosing py_repr).

Lemma show_enclosing_keeps {X : Type} (f : World -> X) vimvar :
  (forall e w, f (add_output e w) = f w) -> keeps f (show vimvar).
Proof.
  intros H. unfold show_enclosing.
  repeat (apply keeps_bind; [intros w; try reflexivity; apply H | intros ?]).
  intros w. apply H.
Qed.

(** The steppers on a sequence that is not empty. *)
Lemma vim_next_enclosing_run vimvar w f fs :
  enclosing_types w = VList (f :: fs) ->
  let n := Z.of_nat (List.length (f :: fs)) in
  let i := current_enclosing w in
  next vimvar w
  = if i <? n
    then if i + 1 <? n
         then show vimvar (set_current_enclosing (i + 1) w)
         else (Ret tt, set_current_enclosing (i + 1) w)
    else (Ret tt, w).
Proof.
  intros E n i. unfold vim_next_enclosing, bind, get, lift, modify, ret.
  rewrite E. cbn [is_empty_list negb py_len]. fold n. fold i.
  destruct (i <? n) eqn:C.
  - cbn [current_enclosing set_current_enclosing]. fold i.
    destruct (i + 1 <? n); reflexivity.
  - fold i. rewrite C. reflexivity.
Qed.

Lemma vim_prev_enclosing_run vimvar w f fs :
  enclosing_types w = VList (f :: fs) ->
  let i := current_enclosing w in
  prev vimvar w
  = if 0 <=? i
    then if 0 <=? i - 1
         then show vimvar (set_current_enclosing (i - 1) w)
         else (Ret tt, set_current_enclosing (i - 1) w)
    else (Ret tt, w).
Proof.
  intros E i. unfold vim_prev_enclosing, bind, get, lift, modify, ret.
  rewrite E. cbn [is_empty_list negb]. fold i.
  destruct (0 <=? i) eqn:C.
  - cbn [current_enclosing set_current_enclosing]. fold i.
    destruct (0 <=? i - 1); reflexivity.
  - fold i. rewrite C. reflexivity.
Qed.

(** On an empty sequence they do nothing. *)
Lemma steppers_empty vimvar w :
  enclosing_types w = VList [] ->
  next vimvar w = (Ret tt, w) /\ prev vimvar w = (Ret tt, w).
Proof.
  intros E. unfold vim_next_enclosing, vim_prev_enclosing, bind, get.
  rewrite E. split; reflexivity.
Qed.

(** One step from an index inside [-1 .. n]: the sequence stays, the index
    moves by one and stays inside, and something is shown only at an index
    of the sequence. *)
Lemma do_step_index vimvar s w frames :
  enclosing_types w = VList frames ->
  let n := Z.of_nat (List.length frames) in
  let i := current_enclosing w in
  let w' := do_step py_repr vimvar s w in
  -1 <= i <= n ->
  enclosing_types w' = VList frames /\
  current_enclosing w'
  = match frames, s with
    | [], _ => i
    | _, Forward => if i <? n then i + 1 else i
    | _, Backward => if 0 <=? i then i - 1 else i
    end /\
  -1 <= current_enclosing w' <= n /\
  (output w' <> output w -> 0 <= current_enclosing w' < n).
Proof.
  intros E n i w' B. destruct frames as [|f fs].
  - destruct (steppers_empty vimvar w E) as [X Y].
    unfold w', do_step. destruct s; [rewrite X | rewrite Y]; simpl;
      (split; [exact E | split; [reflexivity |
         split; [exact B | intros C; contradiction]]]).
  - pose proof (show_enclosing_keeps enclosing_types vimvar
                  (fun _ _ => eq_refl)) as Ke.
    pose proof (show_enclosing_keeps current_enclosing vimvar
                  (fun _ _ => eq_refl)) as Kc.
    unfold w', do_step. destruct s.
    + rewrite (vim_next_enclosing_run _ _ _ _ E). cbv zeta. fold n. fold i.
      destruct (Z.ltb_spec i n).
      * destruct (Z.ltb_spec (i + 1) n).
        { rewrite Ke, Kc.
          cbn [enclosing_types current_enclosing set_current_enclosing].
          split; [exact E | split; [reflexivity | split; lia]]. }
        { cbn [snd enclosing_types current_enclosing set_current_enclosing
                 output].
          split; [exact E | split; [reflexivity |
            split; [lia | intros C; contradiction]]]. }
      * cbn [snd].
        split; [exact E | split; [reflexivity |
          split; [lia | intros C; contradiction]]].
    + rewrite (vim_prev_enclosing_run _ _ _ _ E). cbv zeta. fold i.
      destruct (Z.leb_spec 0 i).
      * destruct (Z.leb_spec 0 (i - 1)).
        { rewrite Ke, Kc.
          cbn [enclosing_types current_enclosing set_current_enclosing].
          split; [exact E | split; [reflexivity | split; lia]]. }
        { cbn [snd enclosing_types current_enclosing set_current_enclosing
                 output].
          split; [exact E | split; [reflexivity |
            split; [lia | intros C; contradiction]]]. }
      * cbn [snd].
        split; [exact E | split; [reflexivity |
          split; [lia | intros C; contradiction]]].
Qed.

Lemma do_steps_cons vimvar s steps w :
  do_steps py_repr vimvar (s :: steps) w
  = do_steps py_repr vimvar steps (do_step py_repr vimvar s w).
Proof. reflexivity. Qed.

(** Any interleaving of steps keeps the sequence and the bounds. *)
Lemma do_steps_index vimvar frames steps :
  forall w,
    enclosing_types w = VList frames ->
    -1 <= current_enclosing w <= Z.of_nat (List.length frames) ->
    enclosing_types (do_steps py_repr vimvar steps w) = VList frames /\
    -1 <= current_enclosing (do_steps py_repr vimvar steps w)
       <= Z.of_nat (List.length frames).
Proof.
  induction steps as [|s steps IH]; intros w E B; [split; assumption|].
  rewrite do_steps_cons.
  destruct (do_step_index vimvar s w frames E B) as (E1 & _ & B1 & _).
  apply IH; assumption.
Qed.

(** [k] steps forward that do not pass the sentinel add [k] to the index,
    [k] steps backward that do not pass [-1] take [k] from it. *)
Lemma do_steps_forward vimvar f fs k :
  forall w,
    enclosing_types w = VList (f :: fs) ->
    -1 <= current_enclosing w ->
    current_enclosing w + Z.of_nat k <= Z.of_nat (List.length (f :: fs)) ->
    enclosing_types (do_steps py_repr vimvar (repeat Forward k) w)
    = VList (f :: fs) /\
    current_enclosing (do_steps py_repr vimvar (repeat Forward k) w)
    = current_enclosing w + Z.of_nat k.
Proof.
  induction k as [|k IH]; intros w E B0 B1.
  - simpl. split; [exact E | lia].
  - simpl repeat. rewrite do_steps_cons.
    destruct (do_step_index vimvar Forward w (f :: fs) E ltac:(lia))
      as (E1 & I1 & B2 & _).
    destruct (Z.ltb_spec (current_enclosing w)
                (Z.of_nat (List.length (f :: fs)))); [|lia].
    destruct (IH (do_step py_repr vimvar Forward w) E1 ltac:(lia) ltac:(lia))
      as [E2 I2].
    split; [exact E2 | lia].
Qed.

Lemma do_steps_backward vimvar f fs k :
  forall w,
    enclosing_types w = VList (f :: fs) ->
    current_enclosing w <= Z.of_nat (List.length (f :: fs)) ->
    -1 <= current_enclosing w - Z.of_nat k ->
    enclosing_types (do_steps py_repr vimvar (repeat Backward k) w)
    = VList (f :: fs) /\
    current_enclosing (do_steps py_repr vimvar (repeat Backward k) w)
    = current_enclosing w - Z.of_nat k.
Proof.
  induction k as [|k IH]; intros w E B0 B1.
  - simpl. split; [exact E | lia].
  - simpl repeat. rewrite do_steps_cons.
    destruct (do_step_index vimvar Backward w (f :: fs) E ltac:(lia))
      as (E1 & I1 & B2 & _).
    destruct (Z.leb_spec 0 (current_enclosing w)); [|lia].
    destruct (IH (do_step py_repr vimvar Backward w) E1 ltac:(lia) ltac:(lia))
      as [E2 I2].
    split; [exact E2 | lia].
Qed.

(** The step onto a sentinel shows nothing. *)
Lemma do_step_sentinel vimvar f fs w :
  enclosing_types w = VList (f :: fs) ->
  (current_enclosing w = Z.of_nat (List.length (f :: fs)) - 1 ->
   current_enclosing (do_step py_repr vimvar Forward w)
   = Z.of_nat (List.length (f :: fs)) /\
   output (do_step py_repr vimvar Forward w) = output w) /\
  (current_enclosing w = 0 ->
   current_enclosing (do_step py_repr vimvar Backward w) = -1 /\
   output (do_step py_repr vimvar Backward w) = output w).
Proof.
  intros E. split; intros I; unfold do_step.
  - rewrite (vim_next_enclosing_run _ _ _ _ E). cbv zeta. rewrite I.
    destruct (Z.ltb_spec (Z.of_nat (List.length (f :: fs)) - 1)
                (Z.of_nat (List.length (f :: fs)))); [|lia].
    destruct (Z.ltb_spec (Z.of_nat (List.length (f :: fs)) - 1 + 1)
                (Z.of_nat (List.length (f :: fs)))); [lia|].
    cbn [snd current_enclosing set_current_enclosing output].
    split; [lia | reflexivity].
  - rewrite (vim_prev_enclosing_run _ _ _ _ E). cbv zeta. rewrite I.
    split; reflexivity.
Qed.

(** C5, as the code has it. On a sequence of [n] frames and from an index
    inside [-1 .. n], whatever steps are taken the index stays inside
    [-1 .. n], and a step shows something only when it lands on an index
    in [0 .. n-1]. From index 0, where a query that found frames leaves
    the navigator, [n] steps forward end on the sentinel [n] and the last
    of them shows nothing. From the sentinel [n], [n] steps backward end on
    index 0, and it is the next one, the [n+1]-th, that ends on [-1] and
    shows nothing. On an empty sequence both steppers return and change
    nothing. *)
Theorem navigator_bounds (vimvar : string) (frames : list value)
  (w : World) :
  let n := List.length frames in
  enclosing_types w = VList frames ->
  -1 <= current_enclosing w <= Z.of_nat n ->
  (forall steps,
     enclosing_types (do_steps py_repr vimvar steps w) = VList frames /\
     -1 <= current_enclosing (do_steps py_repr vimvar steps w)
        <= Z.of_nat n) /\
  (forall s,
     output (do_step py_repr vimvar s w) <> output w ->
     0 <= current_enclosing (do_step py_repr vimvar s w) < Z.of_nat n) /\
  (frames <> [] -> current_enclosing w = 0 ->
   let w1 := do_steps py_repr vimvar (repeat Forward (n - 1)) w in
   let w2 := do_step py_repr vimvar Forward w1 in
   current_enclosing w2 = Z.of_nat n /\ output w2 = output w1) /\
  (frames <> [] -> current_enclosing w = Z.of_nat n ->
   let w1 := do_steps py_repr vimvar (repeat Backward n) w in
   let w2 := do_step py_repr vimvar Backward w1 in
   current_enclosing w1 = 0 /\
   current_enclosing w2 = -1 /\ output w2 = output w1) /\
  (frames = [] ->
   next vimvar w = (Ret tt, w) /\ prev vimvar w = (Ret tt, w)).
Proof.
  intros n E B.
  split; [intros steps; apply do_steps_index; assumption|].
  split.
  { intros s C.
    destruct (do_step_index vimvar s w frames E B) as (_ & _ & _ & X).
    exact (X C). }
  split.
  { intros NE I w1 w2. destruct frames as [|f fs]; [contradiction|].
    destruct (do_steps_forward vimvar f fs (n - 1) w E ltac:(lia)
                ltac:(unfold n; simpl List.length; lia)) as [E1 I1].
    fold w1 in E1, I1.
    destruct (do_step_sentinel vimvar f fs w1 E1) as [X _].
    apply X. rewrite I1, I. unfold n. simpl List.length. lia. }
  split.
  { intros NE I w1 w2. destruct frames as [|f fs]; [contradiction|].
    destruct (do_steps_backward vimvar f fs n w E ltac:(unfold n in I; lia)
                ltac:(lia)) as [E1 I1].
    fold w1 in E1, I1.
    destruct (do_step_sentinel vimvar f fs w1 E1) as [_ X].
    assert (I0 : current_enclosing w1 = 0) by lia.
    split; [exact I0 | apply X; exact I0]. }
  intros NE. subst frames. apply steppers_empty. exact E.
Qed.



(** ** The query for the enclosing types *)

Lemma restart_keeps {X : Type} (f : World -> X) :
  client_field f -> keeps f (restart popen_ok).
Proof.
  intros (Hp & Hc & Hx & He & Hs) w. unfold restart.
  destruct (mainpipe w); destruct (popen_ok _); simpl;
    rewrite ?Hx, ?He, ?Hp; reflexivity.
Qed.

Lemma send_command_keeps {X : Type} (f : World -> X) cmd :
  client_field f -> keeps f (send cmd).
Proof.
  intros F. unfold send_command. apply keeps_bind.
  - intros w. destruct (needs_restart w);
      [apply restart_keeps; exact F | reflexivity].
  - intros _ w. destruct F as (Hp & Hc & _).
    destruct (mainpipe w); simpl; [rewrite Hc, Hp|]; reflexivity.
Qed.

Lemma command_reset_keeps {X : Type} (f : World -> X) name :
  client_field f -> keeps f (command_reset popen_ok subprocess name).
Proof.
  intros F. unfold command_reset. apply keeps_bind.
  - destruct (match name with Some n => _ | None => _ end);
      apply send_command_keeps; exact F.
  - intros r. apply keeps_bind; [|intros _ w; reflexivity].
    intros w. destruct F as (_ & _ & _ & _ & Hs). apply Hs.
Qed.

Lemma sync_full_keeps {X : Type} (f : World -> X) lines name end_line :
  client_field f ->
  keeps f (sync_full popen_ok subprocess lines name end_line).
Proof.
  intros F. unfold sync_full. apply keeps_bind.
  - apply command_reset_keeps; exact F.
  - intros _ w. reflexivity.
Qed.

Lemma sync_incremental_keeps {X : Type} (f : World -> X) s lines name
  end_line :
  client_field f ->
  keeps f (sync_incremental popen_ok subprocess s lines name end_line).
Proof.
  intros F. unfold sync_incremental.
  apply keeps_bind; [intros w; reflexivity|]. intros pos.
  apply keeps_bind.
  { apply command_seek_keeps. intros cmd. apply send_command_keeps; exact F. }
  intros lc. apply keeps_bind; [intros w; reflexivity|]. intros line.
  destruct (line <=? 1); [apply sync_full_keeps; exact F|].
  apply keeps_bind; [intros w; reflexivity|]. intros this.
  apply keeps_bind; [intros w; reflexivity|]. intros col w. reflexivity.
Qed.

Lemma sync_buffer_to_keeps {X : Type} (f : World -> X) fuel to_line to_col :
  client_field f ->
  keeps f (sync_buffer_to popen_ok subprocess fuel to_line to_col).
Proof.
  intros F. unfold sync_buffer_to.
  apply keeps_bind; [intros w; reflexivity|]. intros curr.
  apply keeps_bind; [intros w; reflexivity|]. intros lines.
  apply keeps_bind; [intros w; reflexivity|]. intros name.
  apply keeps_bind; [intros w; reflexivity|]. intros saved.
  apply keeps_bind.
  { destruct saved as [s|]; [destruct (_ =? _)|];
      try (apply sync_full_keeps; exact F).
    apply sync_incremental_keeps; exact F. }
  intros content. apply keeps_bind.
  { intros w. destruct F as (_ & _ & _ & _ & Hs). apply Hs. }
  intros _. apply keeps_bind.
  { destruct content; [intros w; reflexivity|].
    apply tell_loop_keeps. intros cmd. apply send_command_keeps; exact F. }
  intros _. apply keeps_bind; [|intros _ w; reflexivity].
  apply command_seek_keeps. intros cmd. apply send_command_keeps; exact F.
Qed.

Lemma sync_buffer_keeps {X : Type} (f : World -> X) fuel :
  client_field f -> keeps f (sync_buffer popen_ok subprocess fuel).
Proof.
  intros F. unfold sync_buffer.
  apply keeps_bind; [intros w; reflexivity|]. intros c.
  apply sync_buffer_to_keeps; exact F.
Qed.

Lemma sync_buffer_ret_live fuel w w1 :
  sync_buffer popen_ok subprocess fuel w = (Ret tt, w1) ->
  exists p, live w1 = Some p.
Proof.
  unfold sync_buffer. intros H.
  apply bind_ret_inv in H. destruct H as (c & w0 & G & H).
  apply (sync_buffer_to_ret_live _ _ _ _ _ H).
Qed.

Lemma plain_bind {A B : Type} (m : M A) (k : A -> M B) :
  plain m -> (forall a, plain (k a)) -> plain (bind m k).
Proof.
  intros Hm Hk w e. unfold bind. pose proof (Hm w) as X.
  destruct (m w) as [[a|x|] w1]; simpl in *.
  - apply Hk.
  - destruct x; try discriminate. exfalso. apply (X e0). reflexivity.
  - discriminate.
Qed.

Lemma plain_ret {A : Type} (f : World -> A * World) :
  plain (fun w => (Ret (fst (f w)), snd (f w))).
Proof. intros w e. discriminate. Qed.

Lemma plain_lift_key v k : plain (lift (py_key v k)).
Proof.
  intros w e. unfold lift, py_key. simpl.
  destruct v; try discriminate. destruct (assoc k kv); discriminate.
Qed.

Lemma plain_lift_index v i : plain (lift (py_index v i)).
Proof.
  intros w e. unfold lift, py_index. simpl.
  destruct v; try discriminate.
  - destruct (_ || _); [discriminate|]. destruct (nth_error _ _); discriminate.
  - destruct (_ || _); [discriminate|]. destruct (nth_error _ _); discriminate.
Qed.

Lemma py_key_raises v k x :
  py_key v k = Raise x -> x = KeyError \/ x = TypeError.
Proof.
  unfold py_key. destruct v as [| | | | |kv];
    try (intros H; inversion H; auto; fail).
  destruct (assoc k kv); intros H; inversion H; auto.
Qed.

Lemma plain_lift_pos v : plain (lift (decode_pos v)).
Proof.
  intros w e. unfold lift, decode_pos. simpl.
  destruct (py_key v "line") as [l|x|] eqn:X; [| | discriminate].
  - destruct (py_key v "col") as [c|x|] eqn:Y; [| | discriminate].
    + destruct l, c; discriminate.
    + destruct (py_key_raises _ _ _ Y); subst; discriminate.
  - destruct (py_key_raises _ _ _ X); subst; discriminate.
Qed.

Lemma show_enclosing_plain vimvar : plain (show vimvar).
Proof.
  unfold show_enclosing.
  apply plain_bind; [intros w e; discriminate|]. intros types.
  apply plain_bind; [intros w e; discriminate|]. intros i.
  apply plain_bind; [apply plain_lift_index|]. intros tmp.
  apply plain_bind; [apply plain_lift_key|]. intros s.
  apply plain_bind; [apply plain_lift_key|]. intros e.
  apply plain_bind; [apply plain_lift_pos|]. intros start.
  apply plain_bind; [apply plain_lift_pos|]. intros stop.
  apply plain_bind; [intros w x; discriminate|]. intros _.
  apply plain_bind; [apply plain_lift_key|]. intros t.
  intros w x. discriminate.
Qed.

Lemma try_merlin_plain {A : Type} (m : M A) (h : merlin_exc -> M A) w :
  plain m -> try_merlin m h w = m w.
Proof.
  intros P. unfold try_merlin. pose proof (P w) as X.
  destruct (m w) as [[a|x|] w1]; try reflexivity.
  destruct x; try reflexivity. exfalso. apply (X e). reflexivity.
Qed.

(** What [show_enclosing] shows of a frame that has a start, an end and a
    type. *)
Lemma show_enclosing_frame vimvar w frames fr s e t start stop :
  enclosing_types w = VList frames ->
  0 <= current_enclosing w ->
  nth_error frames (Z.to_nat (current_enclosing w)) = Some fr ->
  py_key fr "start" = Ret s -> py_key fr "end" = Ret e ->
  py_key fr "type" = Ret t ->
  decode_pos s = Ret start -> decode_pos e = Ret stop ->
  show vimvar w
  = (Ret tt,
     add_output (Print (py_str py_repr t))
       (add_output
          (VimCommand ("let " ++ vimvar ++ " = matchadd('EnclosingExpr', '"
                       ++ make_matcher start stop ++ "')")) w)).
Proof.
  intros E I N Ks Ke Kt Ds De.
  assert (X : py_index (VList frames) (current_enclosing w) = Ret fr).
  { unfold py_index.
    assert ((Z.to_nat (current_enclosing w) < List.length frames)%nat)
      by (apply nth_error_Some; congruence).
    destruct (Z.ltb_spec (current_enclosing w) 0); [lia|].
    destruct (Z.ltb_spec (current_enclosing w) 0); [lia|].
    destruct (Z.leb_spec (Z.of_nat (List.length frames))
                (current_enclosing w)); [lia|].
    simpl. rewrite N. reflexivity. }
  unfold show_enclosing, bind, get, lift, vim_command, print, modify.
  rewrite E, X, Ks, Ke, Ds, De. simpl. rewrite Kt. reflexivity.
Qed.


(** [vim_type_enclosing] up to the answer of the subprocess: the globals
    are cleared, the buffer is synchronised, the query is sent. *)
Lemma vim_type_enclosing_split fuel vimvar expr w w1 :
  sync_buffer popen_ok subprocess fuel
    (set_current_enclosing (-1) (set_enclosing_types (VList []) w))
  = (Ret tt, w1) ->
  vim_type_enclosing popen_ok subprocess py_repr re_search fuel vimvar expr w
  = try_merlin
      (result <- send [VStr "type"; VStr "enclosing";
                       pos_obj (fst (cursor (editor w)))
                         (snd (cursor (editor w)))] ;;
       types <- lift (py_index result 1) ;;
       modify (set_enclosing_types types) ;;;
       if is_empty_list types
       then vim_type popen_ok subprocess py_repr re_search fuel expr true
       else next vimvar)
      (fun _ => vim_type popen_ok subprocess py_repr re_search fuel expr true)
      w1.
Proof.
  intros H. unfold vim_type_enclosing.
  rewrite (bind_ret _ _ w tt (set_enclosing_types (VList []) w))
    by reflexivity.
  rewrite (bind_ret _ _ _ tt
             (set_current_enclosing (-1) (set_enclosing_types (VList []) w)))
    by reflexivity.
  rewrite (bind_ret _ _ _ (cursor (editor w))
             (set_current_enclosing (-1) (set_enclosing_types (VList []) w)))
    by reflexivity.
  rewrite (bind_ret _ _ _ _ _ H). reflexivity.
Qed.

(** C7, as the code has it: when the query returns a payload whose second
    element is a list of frames that is not empty, that list becomes the
    stored sequence, and the one [vim_next_enclosing] that follows takes
    the index from -1 to 0 and shows the frame there, the innermost. *)
Theorem vim_type_enclosing_stores (fuel : nat) (vimvar : string)
  (expr : option string) (w w1 : World) (payload f : value)
  (fs : list value) :
  let cmd := enclosing_query (cursor (editor w)) in
  sync_buffer popen_ok subprocess fuel
    (set_current_enclosing (-1) (set_enclosing_types (VList []) w))
  = (Ret tt, w1) ->
  answer w1 cmd = Some [VStr "return"; payload] ->
  py_index payload 1 = Ret (VList (f :: fs)) ->
  let r := vim_type_enclosing popen_ok subprocess py_repr re_search fuel
             vimvar expr w in
  enclosing_types (snd r) = VList (f :: fs) /\
  current_enclosing (snd r) = 0 /\
  sent (snd r) = (sent w1 ++ [cmd])%list /\
  forall s e t start stop,
    py_key f "start" = Ret s -> py_key f "end" = Ret e ->
    py_key f "type" = Ret t ->
    decode_pos s = Ret start -> decode_pos e = Ret stop ->
    fst r = Ret tt /\
    output (snd r)
    = (output w1
       ++ [VimCommand ("let " ++ vimvar ++ " = matchadd('EnclosingExpr', '"
                       ++ make_matcher start stop ++ "')");
           Print (py_str py_repr t)])%list.
Proof.
  intros cmd H A P r.
  unfold response in A. destruct (live w1) as [p|] eqn:L; [|discriminate].
  inversion A as [R]; clear A.
  set (w0 := set_current_enclosing (-1) (set_enclosing_types (VList []) w))
    in H.
  assert (C1 : current_enclosing w1 = -1).
  { pose proof (sync_buffer_keeps current_enclosing fuel
                  ltac:(repeat split) w0) as K.
    rewrite H in K. exact K. }
  set (w2 := set_enclosing_types (VList (f :: fs)) (after_send cmd p w1)).
  set (w3 := set_current_enclosing 0 w2).
  assert (Rr : r = show vimvar w3).
  { unfold r. rewrite (vim_type_enclosing_split _ _ _ _ _ H).
    fold cmd.
    assert (B : forall h,
              try_merlin
                (result <- send cmd ;;
                 types <- lift (py_index result 1) ;;
                 modify (set_enclosing_types types) ;;;
                 if is_empty_list types
                 then vim_type popen_ok subprocess py_repr re_search fuel
                        expr true
                 else next vimvar) h w1
              = try_merlin (show vimvar) h w3).
    { intros h. unfold try_merlin.
      rewrite (bind_ret _ _ _ _ _ (send_command_return _ _ _ _ L R)).
      rewrite (bind_ret _ _ _ (VList (f :: fs)) (after_send cmd p w1))
        by (unfold lift; rewrite P; reflexivity).
      rewrite (bind_ret _ _ _ tt w2) by reflexivity.
      cbn [is_empty_list].
      rewrite (vim_next_enclosing_run vimvar w2 f fs eq_refl). cbv zeta.
      replace (current_enclosing w2) with (-1) by (symmetry; exact C1).
      destruct (Z.ltb_spec (-1) (Z.of_nat (List.length (f :: fs))));
        [|simpl List.length in *; lia].
      destruct (Z.ltb_spec (-1 + 1) (Z.of_nat (List.length (f :: fs))));
        [|simpl List.length in *; lia].
      reflexivity. }
    rewrite B. apply try_merlin_plain. apply show_enclosing_plain. }
  rewrite Rr.
  split; [rewrite (show_enclosing_keeps enclosing_types vimvar
                     (fun _ _ => eq_refl)); reflexivity|].
  split; [rewrite (show_enclosing_keeps current_enclosing vimvar
                     (fun _ _ => eq_refl)); reflexivity|].
  split; [rewrite (show_enclosing_keeps sent vimvar
                     (fun _ _ => eq_refl)); reflexivity|].
  intros s e t start stop Ks Ke Kt Ds De.
  rewrite (show_enclosing_frame vimvar w3 (f :: fs) f s e t start stop
             eq_refl ltac:(simpl; lia) eq_refl Ks Ke Kt Ds De).
  split; [reflexivity|]. simpl. rewrite <- app_assoc. reflexivity.
Qed.


(** ** Type lookup *)

#[local] Abbreviation type_of :=
  (vim_type popen_ok subprocess py_repr re_search).

(** [vim_type] once the buffer is synchronised, by the outcome of its
    query. *)
Lemma vim_type_run fuel expr approx v v1 q :
  sync_buffer_to popen_ok subprocess fuel (fst (cursor (editor v)))
    (snd (cursor (editor v))) v = (Ret tt, v1) ->
  live v1 = Some q ->
  let query := type_query expr (cursor (editor v)) in
  let ans := dispatch (subprocess (pflags q) (received q ++ [query])) in
  let v2 := after_send query q v1 in
  (forall ty,
     ans = Ret (VStr ty) ->
     type_of fuel expr approx v
     = (Ret tt,
        add_output (Print (type_line expr ty))
          (if approx then add_output (Write "(approx) ") v2 else v2))) /\
  (forall e,
     ans = Raise (MerlinExc e) ->
     type_of fuel expr approx v
     = if given expr then type_of fuel None true v2
       else try_print_error py_repr re_search e None v2).
Proof.
  intros H L query ans v2.
  assert (S : type_of fuel expr approx v
              = try_merlin
                  (ty <- send query ;;
                   let ty :=
                     match ty with
                     | VDict kv =>
                         match assoc "type" kv with
                         | Some t => t
                         | None => VStr (py_repr ty)
                         end
                     | _ => ty
                     end in
                   (if approx then stdout_write "(approx) " else ret tt) ;;;
                   match expr with
                   | Some x =>
                       if given expr
                       then match ty with
                            | VStr t => print (x ++ " : " ++ t)
                            | _ => raise TypeError
                            end
                       else print (py_str py_repr ty)
                   | None => print (py_str py_repr ty)
                   end)
                  (fun e => if given expr
                            then vim_type_plain popen_ok subprocess py_repr
                                   re_search fuel true
                            else try_print_error py_repr re_search e None)
                  v1).
  { unfold vim_type, vim_type_with.
    rewrite (bind_ret _ _ v (cursor (editor v)) v) by reflexivity.
    rewrite (bind_ret _ _ _ _ _ H). reflexivity. }
  rewrite S. unfold try_merlin, bind.
  rewrite (send_command_run _ _ _ L). fold ans. fold v2.
  split.
  - intros ty A. rewrite A.
    unfold stdout_write, print, modify, ret, type_line.
    destruct approx; destruct expr as [x|]; try destruct (given (Some x));
      reflexivity.
  - intros e A. rewrite A. destruct (given expr); reflexivity.
Qed.

(** [try_print_error] prints one line, unless the exception is an [Error]
    whose value has no message to print. *)
Lemma try_print_error_reports e v :
  (exists line,
     try_print_error py_repr re_search e None v
     = (Ret tt, add_output (Print line) v)) \/
  (exists x val,
     e = Error val /\ (x = KeyError \/ x = TypeError) /\
     try_print_error py_repr re_search e None v = (Raise x, v)).
Proof.
  assert (G : forall val,
            exists line,
              match re_search re_chunk_parser (py_repr val) with
              | Some _ => print "error: Cannot parse"
              | None =>
                  match re_search re_not_found (py_repr val) with
                  | Some _ => print "error: Not found"
                  | None =>
                      match re_search re_no_such_package (py_repr val) with
                      | Some g =>
                          if negb (String.eqb (g 3%nat) "")
                          then print ("error: Unknown package '" ++ g 1%nat
                                      ++ "' (" ++ g 3%nat ++ ")")
                          else print ("error: Unknown package '" ++ g 1%nat
                                      ++ "'")
                      | None => print (py_repr val)
                      end
                  end
              end v = (Ret tt, add_output (Print line) v)).
  { intros val.
    destruct (re_search re_chunk_parser _); [eexists; reflexivity|].
    destruct (re_search re_not_found _); [eexists; reflexivity|].
    destruct (re_search re_no_such_package _) as [g|];
      [|eexists; reflexivity].
    destruct (negb _); eexists; reflexivity. }
  destruct e as [val|val|val]; simpl.
  - left. apply G.
  - unfold bind, lift.
    destruct (py_key val "message") as [m|x|] eqn:K.
    + left. eexists. reflexivity.
    + right. exists x, val. split; [reflexivity|].
      split; [exact (py_key_raises _ _ _ K) | reflexivity].
    + exfalso. unfold py_key in K. destruct val; try discriminate.
      destruct (assoc _ _); discriminate.
  - left. apply G.
Qed.

(** C9, as the code has it. When the query for the enclosing types raises a
    [MerlinExc], or returns a payload whose second element is an empty
    list, [vim_type] is called for an approximate answer. When the payload
    has no second element, as the empty list has none, the subscript
    raises, [vim_type] is not called, and the exception goes on to the
    caller with nothing sent after the query and nothing printed. Once it has synchronised the buffer,
    [vim_type] sends the direct type query; an answer is printed after
    ["(approx) "]; a failure of the query is handed to [try_print_error]
    when no expression was given, and otherwise it is dropped and
    [vim_type] is called once more without the expression, so that it is
    the failure of that last query that [try_print_error] reports.
    [try_print_error] prints a line or raises. *)
Theorem type_lookup_fallback (fuel : nat) (vimvar : string)
  (expr : option string) (w w1 : World) (p : Pipe) :
  let cmd := enclosing_query (cursor (editor w)) in
  sync_buffer popen_ok subprocess fuel
    (set_current_enclosing (-1) (set_enclosing_types (VList []) w))
  = (Ret tt, w1) ->
  live w1 = Some p ->
  let ans := dispatch (subprocess (pflags p) (received p ++ [cmd])) in
  let w2 := after_send cmd p w1 in
  let run := vim_type_enclosing popen_ok subprocess py_repr re_search fuel
               vimvar expr w in
  (forall e, ans = Raise (MerlinExc e) -> run = type_of fuel expr true w2) /\
  (forall payload,
     ans = Ret payload -> py_index payload 1 = Ret (VList []) ->
     run = try_merlin (type_of fuel expr true)
             (fun _ => type_of fuel expr true)
             (set_enclosing_types (VList []) w2)) /\
  (forall payload x,
     ans = Ret payload -> py_index payload 1 = Raise x ->
     run = (Raise x, w2)) /\
  (ans = Ret (VList []) -> run = (Raise IndexError, w2)) /\
  (forall (any : option string) v v1 q,
     sync_buffer_to popen_ok subprocess fuel (fst (cursor (editor v)))
       (snd (cursor (editor v))) v = (Ret tt, v1) ->
     live v1 = Some q ->
     let query := type_query any (cursor (editor v)) in
     let reply := dispatch (subprocess (pflags q) (received q ++ [query])) in
     let v2 := after_send query q v1 in
     (forall ty,
        reply = Ret (VStr ty) ->
        type_of fuel any true v
        = (Ret tt,
           add_output (Print (type_line any ty))
             (add_output (Write "(approx) ") v2))) /\
     (forall e,
        reply = Raise (MerlinExc e) ->
        type_of fuel any true v
        = if given any then type_of fuel None true v2
          else try_print_error py_repr re_search e None v2)) /\
  (forall e v,
     (exists line,
        try_print_error py_repr re_search e None v
        = (Ret tt, add_output (Print line) v)) \/
     (exists x val,
        e = Error val /\ (x = KeyError \/ x = TypeError) /\
        try_print_error py_repr re_search e None v = (Raise x, v))).
Proof.
  intros cmd H L ans w2 run.
  assert (S := vim_type_enclosing_split fuel vimvar expr w w1 H).
  subst run ans w2 cmd. unfold enclosing_query in *.
  assert (X : forall payload x,
            dispatch
              (subprocess (pflags p)
                 (received p
                  ++ [([VStr "type"; VStr "enclosing";
                        pos_obj (fst (cursor (editor w)))
                          (snd (cursor (editor w)))] : command)]))
            = Ret payload ->
            py_index payload 1 = Raise x ->
            vim_type_enclosing popen_ok subprocess py_repr re_search fuel
              vimvar expr w
            = (Raise x,
               after_send
                 [VStr "type"; VStr "enclosing";
                  pos_obj (fst (cursor (editor w)))
                    (snd (cursor (editor w)))] p w1)).
  { intros payload x A P. rewrite S. unfold try_merlin at 1, bind at 1.
    rewrite (send_command_run _ _ _ L), A.
    unfold lift, bind. rewrite P.
    destruct x as [e| | | |]; try reflexivity.
    exfalso.
    apply (plain_lift_index payload 1 w e). unfold lift. simpl.
    rewrite P. reflexivity. }
  split; [|split; [|split; [|split; [|split]]]].
  - intros e A. rewrite S. unfold try_merlin, bind.
    rewrite (send_command_run _ _ _ L), A. reflexivity.
  - intros payload A P. rewrite S. unfold try_merlin at 1, bind at 1.
    rewrite (send_command_run _ _ _ L), A.
    unfold lift, bind, modify. rewrite P. reflexivity.
  - exact X.
  - intros A. apply (X (VList []) IndexError A). reflexivity.
  - intros any v v1 q Hs Lq.
    exact (vim_type_run fuel any true v v1 q Hs Lq).
  - intros e v. apply try_print_error_reports.
Qed.

(** * Further properties of the module *)

(** ** Starting the subprocess *)

(** [send_command] when the subprocess cannot be started. *)
Lemma send_command_no_spawn (cmd : command) (w : World) :
  needs_restart w = true ->
  popen_ok (flags w) = false ->
  let r := send cmd w in
  fst r = Raise OSError /\
  sent (snd r) = sent w /\
  spawned (snd r) = spawned w /\
  output (snd r) = (output w ++ [Print spawn_failed])%list /\
  saved_sync (snd r) = saved_sync w /\
  needs_restart (snd r) = true /\
  live (snd r) = None.
Proof.
  intros N P. unfold send_command, bind, restart, live_pipe, needs_restart in *.
  destruct w as [fl mp ss et ce ed se sp ou]; simpl in *.
  destruct mp as [q|]; simpl in *; rewrite ?N, P; simpl; rewrite ?P;
    repeat split.
Qed.

(** When no subprocess runs and [ocamlmerlin] cannot be started,
    [send_command] raises [OSError] after printing the message of
    [restart]: the command is not sent, no process is recorded, the mark is
    untouched, and the next call will try to start the subprocess again. *)
Theorem send_command_spawn_failure (cmd : command) (w : World) :
  needs_restart w = true ->
  popen_ok (flags w) = false ->
  let r := send cmd w in
  fst r = Raise OSError /\
  sent (snd r) = sent w /\
  spawned (snd r) = spawned w /\
  output (snd r) = (output w ++ [Print spawn_failed])%list /\
  saved_sync (snd r) = saved_sync w /\
  needs_restart (snd r) = true /\
  live (snd r) = None.
Proof.
  intros N P. exact (send_command_no_spawn cmd w N P).
Qed.

(** The payload of a response is taken only from an array of exactly two
    elements: a longer array gives the payload [None] to the result or to
    the exception, and an empty array makes [send_command] raise
    [IndexError], the command having been sent. *)
Theorem send_command_odd_responses (cmd : command) (w : World)
  (result : list value) :
  answer w cmd = Some result ->
  let r := send cmd w in
  sent (snd r) = (sent w ++ [cmd])%list /\
  (result = [] -> fst r = Raise IndexError) /\
  (forall tag a b rest,
     result = tag :: a :: b :: rest ->
     (tag = VStr "return" -> fst r = Ret VNone) /\
     (tag = VStr "failure" -> fst r = Raise (MerlinExc (Failure VNone))) /\
     (tag = VStr "error" -> fst r = Raise (MerlinExc (Error VNone))) /\
     (tag = VStr "exception" ->
      fst r = Raise (MerlinExc (MerlinException VNone)))).
Proof.
  unfold response. destruct (live w) as [p|] eqn:L; [|discriminate].
  intros H; inversion H as [R]; clear H.
  rewrite (send_command_run _ _ _ L), R. cbv zeta. cbn [fst snd].
  split; [reflexivity|]. split.
  - intros E; rewrite E. reflexivity.
  - intros tag a b rest E. rewrite E, dispatch_payload.
    cbv zeta. cbn [payload_of].
    repeat split; intros; subst tag; reflexivity.
Qed.


(** ** More on the synchronisation *)

Lemma live_none w :
  live w = None -> needs_restart w = true /\ popen_ok (flags w) = false.
Proof.
  unfold live_pipe, needs_restart.
  destruct (mainpipe w) as [q|]; [destruct (exited q)|];
    destruct (popen_ok (flags w)); intros H; try discriminate; split;
    reflexivity.
Qed.

(** A [send_command] that returned has sent its command to a running
    subprocess, which answered with the value returned. *)
Lemma send_command_ret_inv cmd w v w1 :
  send cmd w = (Ret v, w1) ->
  exists p,
    live w = Some p /\ w1 = after_send cmd p w /\
    dispatch (subprocess (pflags p) (received p ++ [cmd])) = Ret v.
Proof.
  intros H. destruct (live w) as [p|] eqn:L.
  - exists p. rewrite (send_command_run _ _ _ L) in H.
    inversion H; subst. repeat split; assumption.
  - destruct (live_none _ L) as [N P].
    pose proof (send_command_no_spawn cmd w N P) as (X & _).
    rewrite H in X. discriminate.
Qed.

(** Whatever the outcome of [sync_buffer_to], the editor is as it was and
    the mark is either the one of before or the token the editor gave at
    the start of the call: a reset sent on the way never leaves the module
    without a mark it had. A call that returns leaves the token. *)
Theorem sync_buffer_to_mark (fuel : nat) (to_line to_col : Z) (w : World) :
  let r := sync_buffer_to popen_ok subprocess fuel to_line to_col w in
  editor (snd r) = editor w /\
  (saved_sync (snd r) = saved_sync w \/
   saved_sync (snd r) = Some (bufsync (editor w))) /\
  (fst r = Ret tt -> saved_sync (snd r) = Some (bufsync (editor w))).
Proof.
  cbv zeta. split; [apply sync_buffer_to_keeps_editor|]. split.
  - rewrite sync_buffer_to_split. unfold bind.
    destruct (sync_pick_mark to_line w w) as [_ S].
    destruct (pick to_line w w) as [[c|e|] w1]; simpl in *.
    + destruct (sync_feed_mark fuel to_line to_col w c w1) as [S2 _].
      right. exact S2.
    + destruct S as [S|[[a Ha] _]]; [left; exact S | discriminate].
    + destruct S as [S|[[a Ha] _]]; [left; exact S | discriminate].
  - intros R. apply (sync_buffer_to_records fuel to_line to_col).
    destruct (sync_buffer_to popen_ok subprocess fuel to_line to_col w)
      as [o w1]. simpl in *. subst o. reflexivity.
Qed.

(** A [sync_buffer_to] that returns has sent the exact seek to the target
    position as its last command, and the subprocess answered it with an
    object that has a line and a column. *)
Theorem sync_buffer_to_ends_with_seek (fuel : nat) (to_line to_col : Z)
  (w w1 : World) :
  sync_buffer_to popen_ok subprocess fuel to_line to_col w = (Ret tt, w1) ->
  exists before p position l c,
    sent w1 = (before ++ [seek_cmd "exact" to_line to_col])%list /\
    mainpipe w1 = Some p /\
    exited p = false /\
    dispatch (subprocess (pflags p) (received p)) = Ret position /\
    py_key position "line" = Ret l /\ py_key position "col" = Ret c.
Proof.
  rewrite sync_buffer_to_split. intros H.
  apply bind_ret_inv in H. destruct H as (content & w0 & _ & H).
  unfold sync_feed in H.
  apply bind_ret_inv in H. destruct H as (u1 & x1 & _ & H).
  apply bind_ret_inv in H. destruct H as (u2 & x2 & _ & H).
  apply bind_ret_inv in H. destruct H as (u3 & x3 & H & H3).
  inversion H3; subst. unfold command_seek_exact, command_seek in H.
  apply bind_ret_inv in H. destruct H as (v & y & H & H4).
  apply bind_ret_inv in H4. destruct H4 as (l1 & y1 & H4 & H5).
  apply bind_ret_inv in H5. destruct H5 as (l2 & y2 & H5 & H6).
  unfold lift in H4, H5.
  destruct (py_key v "line") as [l|?|] eqn:Kl; inversion H4; subst.
  destruct (py_key v "col") as [c|?|] eqn:Kc; inversion H5; subst.
  inversion H6; subst.
  apply send_command_ret_inv in H. destruct H as (p & L & E & D).
  fold (seek_cmd "exact" to_line to_col) in E, D.
  exists (sent x2), (push (seek_cmd "exact" to_line to_col) p), v, l1, l2.
  subst w1. pose proof (live_pipe_running _ _ L) as X.
  repeat split; try assumption.
Qed.

Lemma py_slice_to_all {A : Type} (l : list A) :
  py_slice_to l (Z.of_nat (List.length l)) = l.
Proof.
  unfold py_slice_to. rewrite py_slice_between by lia.
  replace (Z.to_nat 0) with 0%nat by reflexivity.
  rewrite Nat.sub_0_r, Nat2Z.id. simpl. apply firstn_all.
Qed.

(** The commands of a run that takes the branch of the reset. *)
Lemma sync_by_reset (fuel : nat) (to_line to_col : Z) (w : World) (p : Pipe) :
  let lines := cb (editor w) in
  let end_line := Z.min to_line (Z.of_nat (List.length lines)) in
  let reset := reset_cmd (cb_name (editor w)) in
  let run := sync_buffer_to popen_ok subprocess (S fuel) to_line to_col in
  pick to_line w
  = sync_full popen_ok subprocess lines (cb_name (editor w)) end_line ->
  live w = Some p ->
  sends_first [reset] run w /\
  (forall payload x xs,
     subprocess (pflags p) (received p ++ [reset]) = [VStr "return"; payload] ->
     py_slice_to lines end_line = x :: xs ->
     sends_first [reset; tell_cmd "struct" (Some (x :: xs))] run w) /\
  (forall payload,
     subprocess (pflags p) (received p ++ [reset]) = [VStr "return"; payload] ->
     py_slice_to lines end_line = [] ->
     sends_first [reset; seek_cmd "exact" to_line to_col] run w).
Proof.
  intros lines end_line reset run Pk L.
  pose proof (live_pipe_after_send _ _ reset L) as L1.
  split; [|split].
  - unfold run. rewrite sync_buffer_to_split_fun.
    apply sends_first_bind; [|intros c; apply sync_feed_extends].
    rewrite Pk. apply (sync_full_first _ p). exact L.
  - intros payload x xs R Hc.
    apply (sync_buffer_to_sends _ _ _ _ (x :: xs)
             (set_saved_sync None (after_send reset p w))
             [reset] [tell_cmd "struct" (Some (x :: xs))]).
    + rewrite Pk, <- Hc. apply (sync_full_return _ _ _ _ _ payload L R).
    + reflexivity.
    + apply (sync_feed_first _ _ _ _ _ _ _ (push reset p)). exact L1.
  - intros payload R Hc.
    apply (sync_buffer_to_sends _ _ _ _ []
             (set_saved_sync None (after_send reset p w))
             [reset] [seek_cmd "exact" to_line to_col]).
    + rewrite Pk, <- Hc. apply (sync_full_return _ _ _ _ _ payload L R).
    + reflexivity.
    + apply (sync_feed_empty_first _ _ _ _ _ (push reset p)). exact L1.
Qed.


(** [sync_full_buffer] in a world without a mark: after the reset the whole
    buffer is told in one chunk, every line of it. *)
Theorem sync_full_buffer_tells_all (fuel : nat) (w : World) (p : Pipe)
  (payload : value) (x : string) (xs : list string) :
  saved_sync w = None ->
  live w = Some p ->
  cb (editor w) = x :: xs ->
  let reset := reset_cmd (cb_name (editor w)) in
  subprocess (pflags p) (received p ++ [reset]) = [VStr "return"; payload] ->
  sends_first [reset; tell_cmd "struct" (Some (cb (editor w)))]
    (sync_full_buffer popen_ok subprocess (S fuel)) w.
Proof.
  intros Hs L C reset R.
  assert (Pk : pick (Z.of_nat (List.length (cb (editor w)))) w
               = sync_full popen_ok subprocess (cb (editor w))
                   (cb_name (editor w))
                   (Z.min (Z.of_nat (List.length (cb (editor w))))
                      (Z.of_nat (List.length (cb (editor w)))))).
  { unfold sync_pick. rewrite Hs. reflexivity. }
  destruct (sync_by_reset fuel (Z.of_nat (List.length (cb (editor w)))) 0
              w p Pk L) as (_ & H & _).
  assert (E : py_slice_to (cb (editor w))
                (Z.min (Z.of_nat (List.length (cb (editor w))))
                   (Z.of_nat (List.length (cb (editor w)))))
              = x :: xs).
  { rewrite Z.min_id, py_slice_to_all. exact C. }
  specialize (H payload x xs R E). rewrite <- C in H.
  unfold sync_full_buffer, sends_first.
  rewrite (bind_ret _ _ w (Z.of_nat (List.length (cb (editor w)))) w)
    by reflexivity.
  exact H.
Qed.


(** ** The text of a tell *)

Lemma string_app_assoc (a b c : string) : (a ++ b) ++ c = a ++ (b ++ c).
Proof. induction a as [|x a IH]; simpl; [reflexivity | rewrite IH; reflexivity]. Qed.

Lemma string_app_nil_r (a : string) : a ++ "" = a.
Proof. induction a as [|x a IH]; simpl; [reflexivity | rewrite IH; reflexivity]. Qed.

Lemma lines_text_cons (x y : string) (l : list string) :
  lines_text (x :: y :: l) = x ++ nl ++ lines_text (y :: l).
Proof.
  unfold lines_text, join. cbn [String.concat].
  rewrite !string_app_assoc. reflexivity.
Qed.

Lemma lines_text_app (l1 l2 : list string) :
  l1 <> [] -> l2 <> [] ->
  lines_text (l1 ++ l2) = lines_text l1 ++ lines_text l2.
Proof.
  intros H1 H2. induction l1 as [|x l1 IH]; [contradiction|].
  destruct l2 as [|y l2]; [contradiction|].
  destruct l1 as [|z l1].
  - cbn [app]. rewrite lines_text_cons. unfold lines_text at 2, join.
    cbn [String.concat]. rewrite string_app_assoc. reflexivity.
  - change ((x :: z :: l1) ++ y :: l2)%list
      with (x :: z :: (l1 ++ y :: l2))%list.
    rewrite !lines_text_cons.
    change (z :: (l1 ++ y :: l2))%list with ((z :: l1) ++ y :: l2)%list.
    rewrite IH by discriminate. rewrite !string_app_assoc. reflexivity.
Qed.

(** The windows the loop takes below the end of the buffer are not
    empty. *)
Lemma window_not_empty (lines : list string) (end_line : Z) (i : nat) :
  let max_line := Z.of_nat (List.length lines) in
  0 <= end_line -> end_line <= max_line ->
  (i < rounds max_line end_line)%nat ->
  window lines max_line end_line i <> [].
Proof.
  intros max_line H0 H1 Hi.
  destruct (rounds_ceil max_line end_line H1) as [_ C].
  assert (L : end_line + 20 * Z.of_nat i < max_line) by lia.
  unfold window. rewrite py_slice_between by lia.
  intros E. apply (f_equal (@List.length string)) in E.
  rewrite length_firstn, length_skipn in E.
  change (List.length (@nil string)) with 0%nat in E. fold max_line in E.
  assert (Z.to_nat max_line = List.length lines)
    by (unfold max_line; apply Nat2Z.id).
  lia.
Qed.

(** Telling lines in chunks tells the same text: the text of two chunks
    that are not empty, one after the other, is the text of their lines
    told at once; and so the texts of the first [k] windows of the feed
    loop, one after the other, are the text of the slice of the buffer they
    cover. *)
Theorem telling_in_chunks (lines : list string) (end_line : Z) (k : nat) :
  let max_line := Z.of_nat (List.length lines) in
  0 <= end_line -> end_line <= max_line ->
  (0 < k <= rounds max_line end_line)%nat ->
  (forall l1 l2 : list string,
     l1 <> [] -> l2 <> [] ->
     tell_text (Some (l1 ++ l2)%list)
     = VStr (lines_text l1 ++ lines_text l2)) /\
  String.concat ""
    (map (fun i => lines_text (window lines max_line end_line i)) (seq 0 k))
  = lines_text
      (py_slice lines end_line (Z.min max_line (end_line + 20 * Z.of_nat k))).
Proof.
  intros max_line H0 H1 [Hk Hr]. subst max_line. split.
  { intros l1 l2 N1 N2. unfold tell_text.
    rewrite <- (lines_text_app l1 l2 N1 N2). reflexivity. }
  pose proof (windows_concat lines end_line k H0 H1) as W. cbv zeta in W.
  rewrite <- W. clear W.
  set (max_line := Z.of_nat (List.length lines)) in *.
  induction k as [|k IH]; [lia|].
  destruct k as [|k].
  - simpl. rewrite app_nil_r. reflexivity.
  - rewrite seq_S, !map_app, List.concat_app. cbn [map List.concat Nat.add].
    rewrite app_nil_r.
    assert (N1 : List.concat
                   (map (window lines max_line end_line) (seq 0 (S k)))
                 <> []).
    { simpl. intros E. apply app_eq_nil in E. destruct E as [E _].
      assert (X : (0 < rounds max_line end_line)%nat) by lia.
      exact (window_not_empty lines end_line 0 H0 H1 X E). }
    assert (N2 : window lines max_line end_line (S k) <> []).
    { assert (X : (S k < rounds max_line end_line)%nat) by lia.
      exact (window_not_empty lines end_line (S k) H0 H1 X). }
    rewrite (lines_text_app _ _ N1 N2), <- IH by lia.
    set (f := fun i => lines_text (window lines max_line end_line i)).
    change (lines_text (window lines max_line end_line (S k))) with (f (S k)).
    generalize (map f (seq 0 (S k))) (f (S k)).
    intros l x. destruct l as [|a l]; [simpl; reflexivity|].
    revert a. induction l as [|b l IHl]; intros a.
    + reflexivity.
    + change (String.concat "" ((a :: b :: l) ++ [x]))
        with (a ++ "" ++ String.concat "" ((b :: l) ++ [x])).
      rewrite IHl. simpl. rewrite !string_app_assoc. reflexivity.
Qed.


(** ** The navigator over a whole session *)

Lemma keeps_try {A X : Type} (f : World -> X) (m : M A)
  (h : merlin_exc -> M A) :
  keeps f m -> (forall e, keeps f (h e)) -> keeps f (try_merlin m h).
Proof.
  intros Hm Hh w. unfold try_merlin. pose proof (Hm w) as E.
  destruct (m w) as [[a|x|] w1]; simpl in *; try assumption.
  destruct x; simpl; try assumption. rewrite Hh. assumption.
Qed.

Lemma try_print_error_keeps {X : Type} (f : World -> X) e msg :
  (forall ev w, f (add_output ev w) = f w) ->
  keeps f (try_print_error py_repr re_search e msg).
Proof.
  intros H w. unfold try_print_error, print, modify, bind, lift.
  destruct e as [v|v|v]; simpl;
    repeat match goal with
      | |- context [match ?x with _ => _ end] => destruct x; simpl
      end; rewrite ?H; reflexivity.
Qed.

Lemma vim_type_with_keeps {X : Type} (f : World -> X) handler fuel expr
  approx :
  client_field f -> (forall e, keeps f (handler e)) ->
  keeps f (vim_type_with popen_ok subprocess py_repr handler fuel expr
             approx).
Proof.
  intros F Hh. assert (Fo := F). destruct Fo as (_ & _ & _ & Ho & _).
  unfold vim_type_with.
  apply keeps_bind; [intros w; reflexivity|]. intros c.
  apply keeps_bind; [apply sync_buffer_to_keeps; exact F|]. intros _.
  apply keeps_try; [|exact Hh].
  apply keeps_bind; [apply send_command_keeps; exact F|]. intros ty.
  cbv zeta. apply keeps_bind.
  { destruct approx; intros w; [apply Ho | reflexivity]. }
  intros _. destruct expr as [x|].
  - destruct (given (Some x)).
    + match goal with
      | |- keeps f (match ?t with _ => _ end) => destruct t
      end; intros w; try reflexivity. apply Ho.
    + intros w. apply Ho.
  - intros w. apply Ho.
Qed.

Lemma vim_type_keeps {X : Type} (f : World -> X) fuel expr approx :
  client_field f -> keeps f (type_of fuel expr approx).
Proof.
  intros F. assert (Fo := F). destruct Fo as (_ & _ & _ & Ho & _).
  unfold vim_type. apply vim_type_with_keeps; [exact F|].
  intros e. destruct (given expr).
  - unfold vim_type_plain. apply vim_type_with_keeps; [exact F|].
    intros e'. apply try_print_error_keeps. exact Ho.
  - apply try_print_error_keeps. exact Ho.
Qed.

Lemma navigator_ok_kept {A : Type} (m : M A) w :
  keeps enclosing_types m -> keeps current_enclosing m ->
  navigator_ok w -> navigator_ok (snd (m w)).
Proof.
  intros Ke Kc. unfold navigator_ok. rewrite (Ke w), (Kc w).
  exact (fun H => H).
Qed.

(** The steppers keep the navigator in order, whatever object is stored,
    and show something only at an index inside it. *)
Lemma steppers_keep_order vimvar s w :
  navigator_ok w ->
  navigator_ok (do_step py_repr vimvar s w) /\
  (output (do_step py_repr vimvar s w) <> output w ->
   exists n,
     py_len (enclosing_types w) = Ret n /\
     enclosing_types (do_step py_repr vimvar s w) = enclosing_types w /\
     0 <= current_enclosing (do_step py_repr vimvar s w) < n).
Proof.
  intros NB. pose proof NB as [B0 B1].
  pose proof (show_enclosing_keeps enclosing_types vimvar
                (fun _ _ => eq_refl)) as Ke.
  pose proof (show_enclosing_keeps current_enclosing vimvar
                (fun _ _ => eq_refl)) as Kc.
  unfold do_step. destruct s.
  - unfold vim_next_enclosing, bind, get, lift, modify, ret.
    destruct (negb (is_empty_list (enclosing_types w)));
      [|split; [exact NB | intros C; contradiction]].
    destruct (py_len (enclosing_types w)) as [n|x|] eqn:Ln;
      try (split; [exact NB | intros C; contradiction]).
    destruct (Z.ltb_spec (current_enclosing w) n).
    + cbn [current_enclosing set_current_enclosing].
      destruct (Z.ltb_spec (current_enclosing w + 1) n).
      * pose proof (Ke (set_current_enclosing (current_enclosing w + 1) w))
          as E1.
        pose proof (Kc (set_current_enclosing (current_enclosing w + 1) w))
          as C1.
        cbn [enclosing_types current_enclosing set_current_enclosing]
          in E1, C1.
        unfold navigator_ok. split.
        { split; [rewrite C1; lia|]. right. exists n. rewrite E1, C1.
          split; [first [exact Ln | reflexivity] | lia]. }
        intros _. exists n. rewrite E1, C1.
        split; [first [exact Ln | reflexivity]|]. split; [reflexivity | lia].
      * cbn [snd output]. split; [|intros C; contradiction].
        unfold navigator_ok.
        cbn [enclosing_types current_enclosing set_current_enclosing].
        split; [lia|]. right. exists n. split; [first [exact Ln | reflexivity] | lia].
    + destruct (Z.ltb_spec (current_enclosing w) n); [lia|].
      split; [exact NB | intros C; contradiction].
  - unfold vim_prev_enclosing, bind, get, lift, modify, ret.
    destruct (negb (is_empty_list (enclosing_types w)));
      [|split; [exact NB | intros C; contradiction]].
    destruct (Z.leb_spec 0 (current_enclosing w)).
    + destruct B1 as [B1|(n & Ln & B1)]; [lia|].
      cbn [current_enclosing set_current_enclosing].
      destruct (Z.leb_spec 0 (current_enclosing w - 1)).
      * pose proof (Ke (set_current_enclosing (current_enclosing w - 1) w))
          as E1.
        pose proof (Kc (set_current_enclosing (current_enclosing w - 1) w))
          as C1.
        cbn [enclosing_types current_enclosing set_current_enclosing]
          in E1, C1.
        unfold navigator_ok. split.
        { split; [rewrite C1; lia|]. right. exists n. rewrite E1, C1.
          split; [first [exact Ln | reflexivity] | lia]. }
        intros _. exists n. rewrite E1, C1.
        split; [first [exact Ln | reflexivity]|]. split; [reflexivity | lia].
      * cbn [snd output]. split; [|intros C; contradiction].
        unfold navigator_ok.
        cbn [enclosing_types current_enclosing set_current_enclosing].
        split; [lia|]. right. exists n. split; [first [exact Ln | reflexivity] | lia].
    + destruct (Z.leb_spec 0 (current_enclosing w)); [lia|].
      split; [exact NB | intros C; contradiction].
Qed.

(** Over a whole session the navigator stays in order. It is in order when
    the module is loaded; a call of [vim_type_enclosing] leaves it in
    order, in whatever state it was called and however it ends (the
    synchronisation or the query may raise, the answer may hold anything);
    and each stepper keeps it in order. A stepper shows something only at
    an index from 0 to the length of the stored object, less one, so that
    no negative index is ever used to subscript it. *)
Theorem navigator_stays_in_order (ed : Editor) (fuel : nat)
  (vimvar : string) (expr : option string) (s : step) (w : World) :
  navigator_ok (initial ed) /\
  navigator_ok
    (snd (vim_type_enclosing popen_ok subprocess py_repr re_search fuel
            vimvar expr w)) /\
  (navigator_ok w ->
   navigator_ok (do_step py_repr vimvar s w) /\
   (output (do_step py_repr vimvar s w) <> output w ->
    exists n,
      py_len (enclosing_types w) = Ret n /\
      enclosing_types (do_step py_repr vimvar s w) = enclosing_types w /\
      0 <= current_enclosing (do_step py_repr vimvar s w) < n)).
Proof.
  split; [split; [simpl; lia | left; reflexivity]|].
  split; [|apply steppers_keep_order].
  assert (Fe : client_field enclosing_types) by (repeat split).
  assert (Fc : client_field current_enclosing) by (repeat split).
  assert (Start : forall v, current_enclosing v = -1 -> navigator_ok v).
  { intros v E. split; [lia | left; exact E]. }
  unfold vim_type_enclosing.
  rewrite (bind_ret _ _ w tt (set_enclosing_types (VList []) w))
    by reflexivity.
  rewrite (bind_ret _ _ _ tt
             (set_current_enclosing (-1) (set_enclosing_types (VList []) w)))
    by reflexivity.
  rewrite (bind_ret _ _ _ (cursor (editor w))
             (set_current_enclosing (-1) (set_enclosing_types (VList []) w)))
    by reflexivity.
  set (w0 := set_current_enclosing (-1) (set_enclosing_types (VList []) w)).
  unfold bind at 1.
  pose proof (sync_buffer_keeps current_enclosing fuel Fc w0) as K0.
  destruct (sync_buffer popen_ok subprocess fuel w0) as [[u|x|] w1];
    simpl in K0; try (apply Start; exact K0).
  unfold try_merlin.
  set (body := bind _ _).
  assert (B : navigator_ok (snd (body w1))).
  { subst body. unfold bind at 1.
    pose proof (send_command_keeps current_enclosing
                  [VStr "type"; VStr "enclosing";
                   pos_obj (fst (cursor (editor w)))
                     (snd (cursor (editor w)))] Fc w1) as K1.
    destruct (send _ w1) as [[result|x|] w2]; simpl in K1;
      try (apply Start; simpl; congruence).
    unfold bind at 1, lift.
    destruct (py_index result 1) as [types|x|];
      try (apply Start; simpl; congruence).
    unfold bind at 1, modify.
    destruct (is_empty_list types).
    - apply Start. rewrite (vim_type_keeps current_enclosing _ _ _ Fc).
      simpl. congruence.
    - apply (steppers_keep_order vimvar Forward). apply Start.
      simpl. congruence. }
  destruct (body w1) as [[a|x|] w2]; simpl in B; try exact B.
  destruct x; try exact B.
  apply navigator_ok_kept; [apply vim_type_keeps; exact Fe
                           | apply vim_type_keeps; exact Fc | exact B].
Qed.


(** ** What the highlight patterns match *)

(** The pattern of a span within one line matches exactly the characters
    of that line whose column (counted from 1, as Vim does) is after the
    start column and not after the end column of the span (which count
    from 0): the characters of the span, its end excluded. *)
Theorem easy_matcher_exact (start stop : Position) :
  0 < pos_line start ->
  pos_line start = pos_line stop ->
  0 <= pos_col start ->
  exists r : Region,
    make_matcher start stop = show_region r /\
    forall l c : Z,
      1 <= c ->
      (in_region r l c = true <->
       l = pos_line start /\ pos_col start < c <= pos_col stop).
Proof.
  intros H0 E Hc.
  exists (mkRegion
            (if 0 <? pos_line start then Some (pos_line start - 1) else None)
            (if 0 <? pos_col start then Some (pos_col start) else None)
            (pos_line stop + 1) (pos_col stop + 1)).
  split.
  { unfold make_matcher. destruct (Z.eqb_spec (pos_line start) (pos_line stop));
      [apply easy_matcher_region | contradiction]. }
  intros l c C1. unfold in_region.
  cbn [line_above col_above line_below col_below].
  destruct (Z.ltb_spec 0 (pos_line start)); [|lia].
  rewrite !andb_true_iff.
  destruct (Z.ltb_spec 0 (pos_col start));
    rewrite ?Z.ltb_lt; intuition lia.
Qed.

(** The pattern of a span of several lines matches exactly: on the start
    line, the columns after the start column up to 4242; on the lines
    between, the columns up to 4242; on the end line, the columns up to the
    end column. When the end line follows the start line at once, the
    branch of the lines between matches nothing. *)
Theorem hard_matcher_exact (start stop : Position) :
  0 < pos_line start ->
  pos_line start < pos_line stop ->
  0 <= pos_col start ->
  exists first middle last : Region,
    make_matcher start stop
    = show_region first ++ "\|" ++ show_region middle ++ "\|"
      ++ show_region last /\
    (forall l c : Z,
       1 <= c ->
       (in_region first l c = true <->
        l = pos_line start /\ pos_col start < c <= 4242) /\
       (in_region middle l c = true <->
        pos_line start < l < pos_line stop /\ c <= 4242) /\
       (in_region last l c = true <->
        l = pos_line stop /\ c <= pos_col stop)) /\
    (pos_line stop = pos_line start + 1 ->
     forall l c : Z, in_region middle l c = false).
Proof.
  intros H0 H1 Hc.
  exists (mkRegion (Some (pos_line start - 1))
            (if 0 <? pos_col start then Some (pos_col start) else None)
            (pos_line start + 1) 4243),
         (mkRegion (Some (pos_line start)) None (pos_line stop) 4243),
         (mkRegion (Some (pos_line stop - 1)) None
            (pos_line stop + 1) (pos_col stop + 1)).
  split.
  { unfold make_matcher.
    destruct (Z.eqb_spec (pos_line start) (pos_line stop)); [lia|].
    unfold hard_matcher. cbv zeta. rewrite !easy_matcher_region.
    cbn [pos_line pos_col].
    destruct (Z.ltb_spec 0 (pos_line start)); [|lia].
    destruct (Z.ltb_spec 0 (pos_line start + 1)); [|lia].
    destruct (Z.ltb_spec 0 (pos_line stop)); [|lia].
    replace (pos_line start + 1 - 1) with (pos_line start) by lia.
    replace (pos_line stop - 1 + 1) with (pos_line stop) by lia.
    reflexivity. }
  split.
  - intros l c C1. unfold in_region.
    cbn [line_above col_above line_below col_below].
    rewrite !andb_true_iff.
    destruct (Z.ltb_spec 0 (pos_col start));
      rewrite ?Z.ltb_lt; intuition lia.
  - intros E l c. unfold in_region.
    cbn [line_above col_above line_below col_below].
    destruct (Z.ltb_spec (pos_line start) l);
      destruct (Z.ltb_spec l (pos_line stop)); try reflexivity.
    lia.
Qed.


(** ** What is printed and what goes on to the caller *)

(** [vim_use] prints only for a [MerlinException]. When the subprocess
    answers the [find use] command with a result, nothing is printed; when
    it answers with an exception, one line is printed and [vim_use]
    returns; when it answers with a failure or an error, the [Failure] or
    the [Error] goes on to the caller of [vim_use] and nothing is
    printed. *)
Theorem vim_use_outcomes (args : list string) (w : World) (p : Pipe) :
  live w = Some p ->
  let cmd := ([VStr "find"; VStr "use"] ++ map VStr args)%list in
  let ans := dispatch (subprocess (pflags p) (received p ++ [cmd])) in
  let r := vim_use popen_ok subprocess py_repr re_search args w in
  sent (snd r) = (sent w ++ [cmd])%list /\
  (forall v, ans = Ret v -> fst r = Ret tt /\ output (snd r) = output w) /\
  (forall v,
     ans = Raise (MerlinExc (MerlinException v)) ->
     fst r = Ret tt /\
     exists line, output (snd r) = (output w ++ [Print line])%list) /\
  (forall v,
     ans = Raise (MerlinExc (Failure v)) ->
     fst r = Raise (MerlinExc (Failure v)) /\ output (snd r) = output w) /\
  (forall v,
     ans = Raise (MerlinExc (Error v)) ->
     fst r = Raise (MerlinExc (Error v)) /\ output (snd r) = output w).
Proof.
  intros L cmd ans r.
  assert (R : r = match ans with
                  | Raise (MerlinExc (MerlinException v)) =>
                      bind (bind (try_print_error py_repr re_search
                                    (MerlinException v) None)
                              (fun _ => ret VNone))
                        (fun _ => ret tt) (after_send cmd p w)
                  | Ret v => (Ret tt, after_send cmd p w)
                  | Raise e => (Raise e, after_send cmd p w)
                  | Timeout => (Timeout, after_send cmd p w)
                  end).
  { unfold r, vim_use, catch_and_print, command_find_use, bind at 1.
    rewrite (send_command_run _ _ _ L). unfold ans.
    destruct (dispatch _) as [v|[[v|v|v]| | | |]|]; reflexivity. }
  assert (P : forall v,
            exists line,
              bind (bind (try_print_error py_repr re_search
                            (MerlinException v) None)
                      (fun _ => ret VNone))
                (fun _ => ret tt) (after_send cmd p w)
              = (Ret tt, add_output (Print line) (after_send cmd p w))).
  { intros v.
    destruct (try_print_error_reports (MerlinException v)
                (after_send cmd p w)) as [[line E]|(x & val & E & _)];
      [|discriminate].
    exists line. unfold bind. rewrite E. reflexivity. }
  split.
  { rewrite R. destruct ans as [v|[[v|v|v]| | | |]|]; try reflexivity.
    destruct (P v) as [line E]. rewrite E. reflexivity. }
  split; [intros v A; rewrite R, A; split; reflexivity|].
  split.
  { intros v A. rewrite R, A. destruct (P v) as [line E]. rewrite E.
    split; [reflexivity | exists line; reflexivity]. }
  split; intros v A; rewrite R, A; split; reflexivity.
Qed.

(** A change of the flags always takes effect. [vim_add_flags] appends its
    arguments to the flags and [vim_clear_flags] empties them whether or
    not the restart that follows succeeds; afterwards either a fresh
    subprocess runs that was started with exactly the new flags, or no
    subprocess counts as running, so that the next command starts one with
    the new flags. The old subprocess never survives. *)
Theorem flags_take_effect (args : list string) (w : World) :
  let a := snd (vim_add_flags popen_ok args w) in
  let c := snd (vim_clear_flags popen_ok w) in
  flags a = (flags w ++ args)%list /\
  flags c = [] /\
  fresh_or_down popen_ok a /\
  fresh_or_down popen_ok c.
Proof.
  cbv zeta.
  unfold fresh_or_down, vim_add_flags, vim_clear_flags, bind, modify, restart.
  destruct w as [fl mp ss et ce ed se sp ou].
  split; [destruct mp; simpl; destruct (popen_ok (fl ++ args)); reflexivity|].
  split; [destruct mp; simpl; destruct (popen_ok []); reflexivity|].
  split.
  - destruct mp as [q|]; simpl; destruct (popen_ok (fl ++ args)) eqn:P;
      simpl; rewrite ?P; auto.
  - destruct mp as [q|]; simpl; destruct (popen_ok []) eqn:P;
      simpl; rewrite ?P; auto.
Qed.


(** ** Looking for the project file *)

Variable vim_eval : string -> string.
Variable py_int : string -> outcome Z.
Variable path_exists : string -> bool.
Variable path_join : string -> string -> string.
Variable path_split : string -> string * string.

#[local] Abbreviation load_from :=
  (load_project_from popen_ok subprocess path_exists path_join path_split).
#[local] Abbreviation load :=
  (load_project popen_ok subprocess path_exists path_join path_split).
#[local] Abbreviation above := (ancestor path_split).

Lemma load_project_from_climbs (k n : nat) (d : string) (w : World) :
  (k <= n)%nat ->
  (forall j, (j < k)%nat ->
     path_exists (path_join (above j d) ".merlin") = false /\
     fst (path_split (above j d)) <> "") ->
  load_from n d w = load_from (n - k) (above k d) w.
Proof.
  revert n d. induction k as [|k IH]; intros n d Le H.
  - rewrite Nat.sub_0_r. reflexivity.
  - destruct n as [|n]; [lia|].
    destruct (H 0%nat ltac:(lia)) as [E Hd]. simpl in E, Hd.
    simpl. rewrite E.
    destruct (path_split d) as [head tail] eqn:Sp. simpl in Hd. simpl.
    apply String.eqb_neq in Hd. rewrite Hd. simpl.
    apply IH; [lia|].
    intros j Lj. specialize (H (S j) ltac:(lia)). simpl in H.
    rewrite Sp in H. exact H.
Qed.

Lemma load_project_from_found (n : nat) (d : string) (w : World) :
  path_exists (path_join d ".merlin") = true ->
  load_from n d w =
  (send (project_load_cmd (path_join d ".merlin")) ;;;
   vim_command ("let b:dotmerlin=" ++ dq ++ path_join d ".merlin" ++ dq) ;;;
   command_reset popen_ok subprocess None ;;;
   ret tt) w.
Proof.
  intros E. destruct n; simpl; rewrite E; reflexivity.
Qed.

(** [load_project] loads the nearest project file. When the directory [k]
    levels above the starting one, for [k] not above [maxdepth], is the
    first with a [.merlin], and [os.path.split] gave a head that is not
    empty on the way up, the project file of that directory is the one
    loaded: the client sends [project load] with its path, tells the
    editor the path, and resets the subprocess. If this returns, exactly
    these two commands went to the subprocess and the mark of the
    synchronisation is erased. *)
Theorem load_project_nearest (d : string) (maxdepth : Z) (k : nat)
  (w : World) :
  Z.of_nat k <= maxdepth ->
  (forall j, (j < k)%nat ->
     path_exists (path_join (above j d) ".merlin") = false /\
     fst (path_split (above j d)) <> "") ->
  path_exists (path_join (above k d) ".merlin") = true ->
  let fname := path_join (above k d) ".merlin" in
  let r := load d maxdepth w in
  r = (send (project_load_cmd fname) ;;;
       vim_command ("let b:dotmerlin=" ++ dq ++ fname ++ dq) ;;;
       command_reset popen_ok subprocess None ;;;
       ret tt) w /\
  (forall w',
     r = (Ret tt, w') ->
     sent w' = (sent w ++ [project_load_cmd fname; [VStr "reset"]])%list /\
     output w' =
       (output w ++ [VimCommand ("let b:dotmerlin=" ++ dq ++ fname ++ dq)])%list /\
     saved_sync w' = None).
Proof.
  intros Le H E fname r.
  assert (R : r = (send (project_load_cmd fname) ;;;
                   vim_command ("let b:dotmerlin=" ++ dq ++ fname ++ dq) ;;;
                   command_reset popen_ok subprocess None ;;;
                   ret tt) w).
  { unfold r, load_project.
    rewrite (load_project_from_climbs k (Z.to_nat maxdepth) d w
               ltac:(lia) H).
    apply load_project_from_found. exact E. }
  split; [exact R|].
  intros w' Hr. rewrite R in Hr.
  apply bind_ret_inv in Hr. destruct Hr as (v1 & w1 & S1 & Hr).
  apply bind_ret_inv in Hr. destruct Hr as ([] & w2 & S2 & Hr).
  apply bind_ret_inv in Hr. destruct Hr as (v3 & w3 & S3 & Hr).
  inversion Hr; subst w'. clear Hr.
  apply send_command_ret_inv in S1. destruct S1 as (p & L & W1 & _).
  unfold vim_command, modify in S2. inversion S2 as [W2]. clear S2.
  pose proof (command_reset_clears _ _ _ _ S3) as C.
  unfold command_reset in S3. simpl in S3.
  apply bind_ret_inv in S3. destruct S3 as (v4 & w4 & S4 & S5).
  apply send_command_ret_inv in S4. destruct S4 as (q & L4 & W4 & _).
  unfold bind, modify, ret in S5. simpl in S5. inversion S5; subst w3.
  subst w4 w2 w1. split; [|split; [|exact C]].
  - unfold after_send, push. simpl. rewrite <- app_assoc. reflexivity.
  - reflexivity.
Qed.

(** [load_project] looks no higher than [maxdepth] levels. When none of
    the starting directory and the [maxdepth] directories above it has a
    [.merlin], nothing is sent to the subprocess and nothing is told to
    the editor, whatever lies further up. *)
Theorem load_project_bounded (d : string) (maxdepth : Z) (w : World) :
  (forall j, Z.of_nat j <= Z.max 0 maxdepth ->
     path_exists (path_join (above j d) ".merlin") = false) ->
  load d maxdepth w = (Ret tt, w).
Proof.
  unfold load_project. intros H.
  assert (G : forall j, (j <= Z.to_nat maxdepth)%nat ->
                path_exists (path_join (above j d) ".merlin") = false)
    by (intros j Lj; apply H; lia).
  clear H. revert d G.
  induction (Z.to_nat maxdepth) as [|n IH]; intros d G.
  - pose proof (G 0%nat ltac:(lia)) as E. simpl in E.
    simpl. rewrite E. reflexivity.
  - pose proof (G 0%nat ltac:(lia)) as E. simpl in E.
    simpl. rewrite E.
    destruct (path_split d) as [head tail] eqn:Sp.
    destruct (negb (String.eqb head "")); [|reflexivity].
    apply IH. intros j Lj. specialize (G (S j) ltac:(lia)).
    simpl in G. rewrite Sp in G. exact G.
Qed.


(** ** Selecting a phrase *)

#[local] Abbreviation select :=
  (vim_selectphrase popen_ok subprocess vim_eval py_int).
#[local] Abbreviation seek_exact :=
  (command_seek_exact popen_ok subprocess).

(** What [vim_selectphrase] does once it has the two boundaries. *)
Lemma vim_selectphrase_run (fuel : nat) (l1 c1 l2 c2 : string)
  (vl1 vc1 vl2 vc2 : Z) (w w1 w2 w3 w4 w5 : World) (x y : value * value)
  (loc1 loc2 : value) :
  py_int (vim_eval l1) = Ret vl1 ->
  py_int (vim_eval c1) = Ret vc1 ->
  py_int (vim_eval l2) = Ret vl2 ->
  py_int (vim_eval c2) = Ret vc2 ->
  vl2 <> vl1 \/ vc2 <> vc1 ->
  sync_buffer_to popen_ok subprocess fuel vl2 vc2 w = (Ret tt, w1) ->
  seek_exact vl2 vc2 w1 = (Ret x, w2) ->
  send [VStr "boundary"] w2 = (Ret loc2, w3) ->
  seek_exact vl1 vc1 w3 = (Ret y, w4) ->
  send [VStr "boundary"] w4 = (Ret loc1, w5) ->
  forall k : value -> value -> M unit,
    (vl1 <- lift (py_int (vim_eval l1)) ;;
     vc1 <- lift (py_int (vim_eval c1)) ;;
     vl2 <- lift (py_int (vim_eval l2)) ;;
     vc2 <- lift (py_int (vim_eval c2)) ;;
     sync_buffer_to popen_ok subprocess fuel vl2 vc2 ;;;
     seek_exact vl2 vc2 ;;;
     loc2 <- send [VStr "boundary"] ;;
     loc1 <- (if negb (vl2 =? vl1) || negb (vc2 =? vc1)
              then seek_exact vl1 vc1 ;;; send [VStr "boundary"]
              else ret VNone) ;;
     k loc1 loc2) w
    = k loc1 loc2 w5.
Proof.
  intros E1 E2 E3 E4 D S1 S2 S3 S4 S5 k.
  assert (B : negb (vl2 =? vl1) || negb (vc2 =? vc1) = true).
  { destruct D as [D|D]; apply Z.eqb_neq in D; rewrite D;
      [reflexivity | apply orb_true_r]. }
  unfold lift. rewrite E1, E2, E3, E4.
  do 4 (unfold bind at 1; cbv beta iota).
  rewrite B.
  rewrite (bind_ret _ _ _ _ _ S1).
  rewrite (bind_ret _ _ _ _ _ S2).
  rewrite (bind_ret _ _ _ _ _ S3).
  apply (bind_ret _ (fun l => k l loc2)).
  rewrite (bind_ret _ _ _ _ _ S4). exact S5.
Qed.

(** [vim_selectphrase] selects the box around two boundaries. When the
    two points the editor gives differ and the subprocess answers the
    [boundary] command at each of them with a pair of positions, the four
    variables are set, in the order start line, end line, start column,
    end column, to the smaller of the two start lines, the larger of the
    two end lines, the smaller of the two start columns and the larger of
    the two end columns: lines and columns are compared apart, so the
    selection may start at a column that is the start of neither
    boundary. *)
Theorem vim_selectphrase_box (fuel : nat) (l1 c1 l2 c2 : string)
  (vl1 vc1 vl2 vc2 : Z) (w w1 w2 w3 w4 w5 : World) (x y : value * value)
  (s1l s1c e1l e1c s2l s2c e2l e2c : Z) :
  py_int (vim_eval l1) = Ret vl1 ->
  py_int (vim_eval c1) = Ret vc1 ->
  py_int (vim_eval l2) = Ret vl2 ->
  py_int (vim_eval c2) = Ret vc2 ->
  vl2 <> vl1 \/ vc2 <> vc1 ->
  sync_buffer_to popen_ok subprocess fuel vl2 vc2 w = (Ret tt, w1) ->
  seek_exact vl2 vc2 w1 = (Ret x, w2) ->
  send [VStr "boundary"] w2
  = (Ret (VList [pos_obj s2l s2c; pos_obj e2l e2c]), w3) ->
  seek_exact vl1 vc1 w3 = (Ret y, w4) ->
  send [VStr "boundary"] w4
  = (Ret (VList [pos_obj s1l s1c; pos_obj e1l e1c]), w5) ->
  select fuel l1 c1 l2 c2 w
  = (Ret tt,
     add_output (VimCommand ("let " ++ c2 ++ " = " ++ fmt_int (Z.max e1c e2c)))
       (add_output
          (VimCommand ("let " ++ c1 ++ " = " ++ fmt_int (Z.min s1c s2c)))
          (add_output
             (VimCommand ("let " ++ l2 ++ " = " ++ fmt_int (Z.max e1l e2l)))
             (add_output
                (VimCommand
                   ("let " ++ l1 ++ " = " ++ fmt_int (Z.min s1l s2l)))
                w5)))).
Proof.
  intros E1 E2 E3 E4 D S1 S2 S3 S4 S5.
  unfold vim_selectphrase.
  rewrite (vim_selectphrase_run fuel l1 c1 l2 c2 vl1 vc1 vl2 vc2
             w w1 w2 w3 w4 w5 x y _ _ E1 E2 E3 E4 D S1 S2 S3 S4 S5).
  reflexivity.
Qed.

(** Without a boundary at the second point [vim_selectphrase] sets no
    variable, whatever the boundary at the first point is. *)
Theorem vim_selectphrase_no_boundary (fuel : nat) (l1 c1 l2 c2 : string)
  (vl1 vc1 vl2 vc2 : Z) (w w1 w2 w3 w4 w5 : World) (x y : value * value)
  (loc1 : value) :
  py_int (vim_eval l1) = Ret vl1 ->
  py_int (vim_eval c1) = Ret vc1 ->
  py_int (vim_eval l2) = Ret vl2 ->
  py_int (vim_eval c2) = Ret vc2 ->
  vl2 <> vl1 \/ vc2 <> vc1 ->
  sync_buffer_to popen_ok subprocess fuel vl2 vc2 w = (Ret tt, w1) ->
  seek_exact vl2 vc2 w1 = (Ret x, w2) ->
  send [VStr "boundary"] w2 = (Ret VNone, w3) ->
  seek_exact vl1 vc1 w3 = (Ret y, w4) ->
  send [VStr "boundary"] w4 = (Ret loc1, w5) ->
  select fuel l1 c1 l2 c2 w = (Ret tt, w5).
Proof.
  intros E1 E2 E3 E4 D S1 S2 S3 S4 S5.
  unfold vim_selectphrase.
  rewrite (vim_selectphrase_run fuel l1 c1 l2 c2 vl1 vc1 vl2 vc2
             w w1 w2 w3 w4 w5 x y _ _ E1 E2 E3 E4 D S1 S2 S3 S4 S5).
  reflexivity.
Qed.


(** ** Strings handed to the editor *)

Lemma str_replace_char (a : ascii) (new : string) (c : ascii) (r : string) :
  str_replace (String a EmptyString) new (String c r)
  = if Ascii.eqb a c
    then new ++ str_replace (String a EmptyString) new r
    else String c (str_replace (String a EmptyString) new r).
Proof.
  unfold str_replace. simpl.
  destruct (ascii_dec a c) as [E|N].
  - subst. rewrite Ascii.eqb_refl. destruct r; reflexivity.
  - apply Ascii.eqb_neq in N. rewrite N. reflexivity.
Qed.

Lemma quotes_doubled_read_back (s : string) :
  vim_literal (str_replace "'" "''" s) = Some s.
Proof.
  induction s as [|c r IH]; [reflexivity|].
  rewrite str_replace_char.
  destruct (Ascii.eqb "'" c) eqn:E.
  - apply Ascii.eqb_eq in E. subst c.
    change (vim_literal (String "'" (String "'" (str_replace "'" "''" r)))
            = Some (String "'" r)).
    simpl. rewrite IH. reflexivity.
  - simpl. rewrite Ascii.eqb_sym, E, IH. reflexivity.
Qed.

Lemma str_replace_nl (c : ascii) (r : string) :
  str_replace nl " " (String c r)
  = if Ascii.eqb (ascii_of_nat 10) c
    then String " " (str_replace nl " " r)
    else String c (str_replace nl " " r).
Proof. exact (str_replace_char (ascii_of_nat 10) " " c r). Qed.

Lemma str_replace_quote (c : ascii) (r : string) :
  str_replace "'" "''" (String c r)
  = if Ascii.eqb "'" c
    then String "'" (String "'" (str_replace "'" "''" r))
    else String c (str_replace "'" "''" r).
Proof. exact (str_replace_char "'" "''" c r). Qed.

Lemma text_reads_back (m : string) :
  vim_literal (str_replace nl " " (str_replace "'" "''" m))
  = Some (str_replace nl " " m).
Proof.
  induction m as [|c r IH]; [reflexivity|].
  rewrite str_replace_quote, (str_replace_nl c r).
  destruct (Ascii.eqb "'" c) eqn:E.
  - apply Ascii.eqb_eq in E. subst c.
    rewrite !str_replace_nl.
    change (Ascii.eqb (ascii_of_nat 10) "'") with false. cbv iota.
    cbn [vim_literal]. change (Ascii.eqb "'" "'") with true. cbv iota.
    rewrite IH. reflexivity.
  - rewrite str_replace_nl.
    destruct (Ascii.eqb (ascii_of_nat 10) c) eqn:N.
    + cbn [vim_literal]. change (Ascii.eqb " " "'") with false. cbv iota.
      rewrite IH. reflexivity.
    + cbn [vim_literal]. rewrite Ascii.eqb_sym, E.
      rewrite IH. reflexivity.
Qed.

Lemma continues_tail (c : ascii) : tail_byte c -> continues c = true.
Proof.
  unfold tail_byte, continues. intros [A B].
  apply andb_true_intro. split; [apply Nat.leb_le | apply Nat.ltb_lt];
    assumption.
Qed.

Lemma take_continued_begins (rest : string) :
  begins_char rest -> take_continued rest = EmptyString.
Proof.
  destruct rest as [|c r]; [reflexivity|]. simpl. intros H.
  unfold continues.
  destruct (Nat.leb_spec 128 (nat_of_ascii c)) as [A|A]; [|reflexivity].
  destruct (Nat.ltb_spec (nat_of_ascii c) 192) as [B|B]; [|reflexivity].
  exfalso. apply H. split; assumption.
Qed.

Lemma first_char_of (s ch : string) : first_of s ch -> first_char s = ch.
Proof.
  intros [[E1 E2]|(rest & E & C & B)]; [subst; reflexivity|].
  subst s. pose proof (take_continued_begins rest B) as T.
  destruct C as [a Ha|a b Ha Hb|a b c Ha Hb Hc|a b c d Ha Hb Hc Hd]; simpl;
    rewrite ?(continues_tail _ Hb), ?(continues_tail _ Hc),
      ?(continues_tail _ Hd), T; reflexivity.
Qed.

(** The fields of a completion entry read back. For a completion whose
    name, description, information and kind are strings, the command that
    builds the entry holds four Vim literal strings which stand for the
    name, for the description with its line breaks and double blanks
    replaced, for the information and for the first character of the kind:
    no quote in a field ends its string early. *)
Theorem complete_entry_reads_back (prop : value)
  (name desc info kind initial : string) (w : World) :
  py_key prop "name" = Ret (VStr name) ->
  py_key prop "desc" = Ret (VStr desc) ->
  py_key prop "info" = Ret (VStr info) ->
  py_key prop "kind" = Ret (VStr kind) ->
  first_of kind initial ->
  exists a b c d,
    complete_entry prop w
    = (Ret ("let l:tmp = {'word':'" ++ a ++ "','menu':'" ++ b
            ++ "','info':'" ++ c ++ "','kind':'" ++ d ++ "'}"), w) /\
    vim_literal a = Some name /\
    vim_literal b
    = Some (str_replace "  " " " (str_replace nl " " desc)) /\
    vim_literal c = Some info /\
    vim_literal d = Some initial.
Proof.
  intros N D I K F.
  exists (str_replace "'" "''" name),
    (str_replace "'" "''" (str_replace "  " " " (str_replace nl " " desc))),
    (str_replace "'" "''" info),
    (str_replace "'" "''" (first_char kind)).
  split.
  - unfold complete_entry, bind, lift. rewrite N, D, I, K. reflexivity.
  - rewrite <- (first_char_of kind initial F).
    repeat split; apply quotes_doubled_read_back.
Qed.


(** ** The location list *)

#[local] Abbreviation loclist := (vim_loclist popen_ok subprocess vim_eval).

Lemma loclist_entry_total (number nr : Z) (e : value) :
  well_formed_error e = true ->
  exists t, forall w, loclist_entry number nr e w = (Ret t, w).
Proof.
  destruct e as [| | | | |kv]; try discriminate. simpl.
  destruct (assoc "type" kv) as [kind|] eqn:T; [|discriminate].
  destruct (assoc "message" kv) as [[| | |m| |]|] eqn:M; try discriminate.
  unfold loclist_entry, bind, lift, py_key, py_has_key. rewrite T, M.
  destruct (assoc "start" kv) as [[| | | | |pos]|] eqn:S; try discriminate.
  - destruct (assoc "line" pos) as [l|] eqn:L; [|discriminate].
    destruct (assoc "col" pos) as [c|] eqn:C; [|discriminate].
    intros N. apply andb_prop in N. destruct N as [Nl Nc].
    destruct l; try discriminate; destruct c; try discriminate;
      eexists; intros w; simpl; reflexivity.
  - intros _. eexists. intros w. simpl. reflexivity.
Qed.

Lemma loclist_loop_run (vimvar ig : string) (number : Z)
  (errors : list value) :
  Forall (fun e => well_formed_error e = true) errors ->
  forall (nr : Z) (w : World),
    let kept :=
      filter (fun e => negb (is_warning e
                             && String.eqb (vim_eval ig) "true")) errors in
    exists texts,
      loclist_loop vim_eval vimvar ig number nr errors w
      = (Ret tt, add_outputs (adding vimvar texts) w) /\
      List.length texts = List.length kept /\
      forall i e, nth_error kept i = Some e ->
        exists t, nth_error texts i = Some t /\
          forall x, loclist_entry number (nr + Z.of_nat i) e x = (Ret t, x).
Proof.
  induction 1 as [|e rest We Wr IH]; intros nr w.
  - exists []. simpl. split.
    + unfold ret, add_outputs. simpl. rewrite app_nil_r.
      destruct w; reflexivity.
    + split; [reflexivity|]. intros [|i] e H; discriminate.
  - cbv zeta. cbn [loclist_loop filter].
    assert (K : exists kind, py_key e "type" = Ret kind).
    { destruct e as [| | | | |kv]; try discriminate. simpl in We |- *.
      destruct (assoc "type" kv); [eexists; reflexivity | discriminate]. }
    destruct K as [kind K].
    assert (Wn : is_warning e = is_str "warning" kind)
      by (unfold is_warning; rewrite K; reflexivity).
    rewrite Wn. unfold bind at 1, lift at 1. rewrite K.
    destruct (is_str "warning" kind && String.eqb (vim_eval ig) "true")
      eqn:Skip; cbn [negb].
    + apply (IH nr w).
    + destruct (loclist_entry_total number nr e We) as [t Ht].
      destruct (IH (nr + 1)
                  (add_output
                     (VimCommand ("call add(" ++ vimvar ++ ", l:tmp)"))
                     (add_output (VimCommand t) w)))
        as (texts & R & Ln & Nth).
      exists (t :: texts). split; [|split].
      * unfold bind at 1. rewrite Ht.
        unfold bind at 1, vim_command at 1, modify at 1.
        unfold bind at 1, vim_command at 1, modify at 1.
        rewrite R. f_equal.
        destruct w; unfold add_output, add_outputs; simpl.
        rewrite <- !app_assoc. reflexivity.
      * simpl. rewrite Ln. reflexivity.
      * intros [|i] e' H; simpl in H.
        -- inversion H; subst e'. exists t. split; [reflexivity|].
           rewrite Z.add_0_r. exact Ht.
        -- destruct (Nth i e' H) as (t' & Hn & He).
           exists t'. split; [exact Hn|].
           intros x. rewrite <- (He x). f_equal. lia.
Qed.

Lemma loclist_entry_line (number nr : Z) (e : value) :
  well_formed_error e = true ->
  exists t,
    (forall w, loclist_entry number nr e w = (Ret t, w)) /\
    loclist_line number nr e t.
Proof.
  destruct e as [| | | | |kv]; try discriminate. simpl.
  destruct (assoc "type" kv) as [kind|] eqn:T; [|discriminate].
  destruct (assoc "message" kv) as [[| | |m| |]|] eqn:M; try discriminate.
  unfold loclist_line, loclist_entry, bind, lift, py_key, py_has_key.
  rewrite T, M.
  destruct (assoc "start" kv) as [[| | | | |pos]|] eqn:S; try discriminate.
  - destruct (assoc "line" pos) as [l|] eqn:Ln; [|discriminate].
    destruct (assoc "col" pos) as [c|] eqn:Cn; [|discriminate].
    intros N. apply andb_prop in N. destruct N as [Nl Nc].
    assert (Fl : exists sl, py_fmt_d l = Ret sl /\
                            forall z, l = VInt z -> sl = fmt_int z).
    { destruct l; try discriminate; eexists; (split; [reflexivity|]);
        intros z' Hz; inversion Hz; reflexivity. }
    assert (Fc : exists zc, py_num c = Ret zc /\
                            forall z, c = VInt z -> zc = z).
    { destruct c; try discriminate; eexists; (split; [reflexivity|]);
        intros z' Hz; inversion Hz; reflexivity. }
    destruct Fl as (sl & El & Hl). destruct Fc as (zc & Ec & Hc).
    rewrite Ec. cbn [fst snd as_str ret]. rewrite El.
    eexists. split; [intros w; reflexivity|].
    exists sl, (fmt_int (zc + 1)),
      (str_replace nl " " (str_replace "'" "''" m)),
      (if is_str "type" kind || is_str "parser" kind then "e" else "w"),
      kind, m.
    split; [reflexivity|]. split; [reflexivity|]. split; [reflexivity|].
    split; [reflexivity|]. split; [apply text_reads_back|].
    split; [discriminate|].
    intros st l' c' Hst Hl' Hc'. inversion Hst; subst st.
    simpl in Hl', Hc'. rewrite Ln in Hl'. rewrite Cn in Hc'.
    inversion Hl'; inversion Hc'; subst.
    rewrite (Hl l' eq_refl), (Hc c' eq_refl). split; reflexivity.
  - intros _. eexists. split; [intros w; reflexivity|].
    exists "1", "1",
      (str_replace nl " " (str_replace "'" "''" m)),
      (if is_str "type" kind || is_str "parser" kind then "e" else "w"),
      kind, m.
    split; [reflexivity|]. split; [reflexivity|]. split; [reflexivity|].
    split; [reflexivity|]. split; [apply text_reads_back|].
    split; [intros _; split; reflexivity|].
    intros st l c Hst. discriminate.
Qed.

(** [vim_loclist] numbers the entries it shows. When the subprocess
    answers [errors] with a list of well-formed reports, the editor is
    first told to empty the list and then, for each report that is kept
    and in the order of the answer, to build an entry and to add it; the
    reports left out are the warnings, when the editor evaluates the
    variable named by [ignore_warnings] to [true]. The command that builds
    the [i]-th entry carries the number [i], counted from 0 among the
    reports kept, so that a warning left out takes no number, along with
    the buffer, the start, the message and the letter of the report. *)
Theorem vim_loclist_numbers (vimvar ig : string) (w : World) (p : Pipe)
  (errors : list value) :
  live w = Some p ->
  dispatch (subprocess (pflags p) (received p ++ [errors_query]))
  = Ret (VList errors) ->
  Forall (fun e => well_formed_error e = true) errors ->
  let kept :=
    filter (fun e => negb (is_warning e
                           && String.eqb (vim_eval ig) "true")) errors in
  let number := bufnr (bufsync (editor w)) in
  exists texts w',
    loclist vimvar ig w = (Ret tt, w') /\
    output w' =
      (output w ++ VimCommand ("let " ++ vimvar ++ " = []")
                   :: adding vimvar texts)%list /\
    List.length texts = List.length kept /\
    forall i e, nth_error kept i = Some e ->
      exists t, nth_error texts i = Some t /\
        loclist_line number (Z.of_nat i) e t.
Proof.
  intros L A Wf kept number.
  set (w1 := add_output (VimCommand ("let " ++ vimvar ++ " = []")) w).
  assert (L1 : live w1 = Some p) by exact L.
  destruct (loclist_loop_run vimvar ig number errors Wf 0
              (after_send errors_query p w1)) as (texts & R & Ln & Nth).
  exists texts. eexists. split; [|split; [|split]].
  - unfold vim_loclist, command_report_errors.
    unfold bind at 1, vim_command at 1, modify at 1. fold w1.
    unfold bind at 1. rewrite (send_command_run _ _ _ L1).
    fold errors_query. rewrite A.
    unfold bind at 1, get at 1. unfold bind at 1, lift at 1, py_iter.
    exact R.
  - simpl. rewrite <- app_assoc. reflexivity.
  - exact Ln.
  - intros i e Hi. destruct (Nth i e Hi) as (t & Ht & He).
    exists t. split; [exact Ht|].
    assert (We : well_formed_error e = true).
    { assert (In e errors).
      { apply nth_error_In in Hi. apply filter_In in Hi. apply Hi. }
      rewrite Forall_forall in Wf. apply Wf. assumption. }
    destruct (loclist_entry_line number (Z.of_nat i) e We) as (t' & Ht' & Hl).
    pose proof (He w) as E1. simpl in E1. rewrite (Ht' w) in E1.
    inversion E1; subst t'. exact Hl.
Qed.

(** The text of an entry of the location list reads back. In the command
    that [vim_loclist] builds for a report, the text is a Vim literal
    string that stands for the message of the report with its line breaks
    replaced by blanks: no quote in a message ends the string early. *)
Theorem loclist_text_reads_back (number nr : Z) (e : value) (w w' : World)
  (s : string) :
  loclist_entry number nr e w = (Ret s, w') ->
  exists before text ty message,
    s = before ++ "'text':'" ++ text ++ "','type':'" ++ ty ++ "','valid':1}"
    /\ py_key e "message" = Ret (VStr message)
    /\ vim_literal text = Some (str_replace nl " " message).
Proof.
  unfold loclist_entry. intros H.
  apply bind_ret_inv in H. destruct H as (kind & w1 & _ & H).
  apply bind_ret_inv in H. destruct H as (located & w2 & _ & H).
  apply bind_ret_inv in H. destruct H as (lc & w3 & _ & H).
  apply bind_ret_inv in H. destruct H as (message & w4 & M & H).
  apply bind_ret_inv in H. destruct H as (text & w5 & T & H).
  apply bind_ret_inv in H. destruct H as (lnum & w6 & _ & H).
  unfold ret in H. injection H as Hs _. subst s.
  unfold lift in M, T. injection M as M' _. injection T as T' _.
  destruct message as [| | |m| |]; try discriminate.
  injection T' as T'. subst text.
  exists ("let l:tmp = {'bufnr':" ++ fmt_int number ++ ",'lnum':" ++ lnum
          ++ ",'col':" ++ fmt_int (snd lc) ++ ",'vcol':0,'nr':"
          ++ fmt_int nr ++ ",'pattern':'',"),
    (str_replace nl " " (str_replace "'" "''" m)),
    (if is_str "type" kind || is_str "parser" kind then "e" else "w"), m.
  split; [|split].
  - rewrite !string_app_assoc. reflexivity.
  - exact M'.
  - apply text_reads_back.
Qed.


(** ** Lists of names *)

Lemma str_lt_trans (a b c : string) : str_lt a b -> str_lt b c -> str_lt a c.
Proof.
  unfold str_lt. intros H1 H2.
  apply OrderedTypeEx.String_as_OT.cmp_lt.
  apply OrderedTypeEx.String_as_OT.cmp_lt in H1, H2.
  exact (OrderedTypeEx.String_as_OT.lt_trans _ _ _ H1 H2).
Qed.

Lemma insert_sorted_in (x : string) (l : list string) (f : string) :
  In f (insert_sorted x l) <-> f = x \/ In f l.
Proof.
  induction l as [|y r IH]; simpl.
  - split; intros [H|[]]; left; symmetry; exact H.
  - destruct (String.compare x y) eqn:C; simpl.
    + apply String.compare_eq_iff in C. subst y.
      split; [intros H; right; exact H|].
      intros [H|H]; [left; symmetry; exact H | exact H].
    + split; (intros [H|H]; [left; symmetry; exact H | right; exact H]).
    + split.
      * intros [H|H]; [right; left; exact H|].
        apply IH in H. destruct H as [H|H];
          [left; exact H | right; right; exact H].
      * intros [H|[H|H]]; [right; apply IH; left; exact H | left; exact H|].
        right. apply IH. right. exact H.
Qed.

Lemma insert_sorted_sorted (x : string) (l : list string) :
  Sorted.StronglySorted str_lt l ->
  Sorted.StronglySorted str_lt (insert_sorted x l).
Proof.
  induction 1 as [|y r Sr IH Hy]; simpl.
  - constructor; constructor.
  - destruct (String.compare x y) eqn:C.
    + constructor; assumption.
    + constructor; [constructor; assumption|].
      constructor; [exact C|].
      apply Forall_forall. intros z Hz.
      apply (str_lt_trans x y z C).
      rewrite Forall_forall in Hy. apply Hy. exact Hz.
    + constructor; [exact IH|].
      apply Forall_forall. intros z Hz.
      apply insert_sorted_in in Hz. destruct Hz as [Hz|Hz].
      * subst z. unfold str_lt. rewrite String.compare_antisym, C.
        reflexivity.
      * rewrite Forall_forall in Hy. apply Hy. exact Hz.
Qed.

Lemma sorted_set_sorted (l : list string) :
  Sorted.StronglySorted str_lt (sorted_set l).
Proof.
  induction l as [|x r IH]; simpl.
  - constructor.
  - apply insert_sorted_sorted. exact IH.
Qed.

Lemma sorted_set_in (l : list string) (f : string) :
  In f (sorted_set l) <-> In f l.
Proof.
  induction l as [|x r IH]; simpl; [split; intros H; exact H|].
  split.
  - intros H. apply insert_sorted_in in H. destruct H as [H|H].
    + left. symmetry. exact H.
    + right. apply IH. exact H.
  - intros [H|H]; apply insert_sorted_in.
    + left. symmetry. exact H.
    + right. apply IH. exact H.
Qed.

Lemma as_str_list_strings (l : list string) :
  as_str_list (map VStr l) = Ret l.
Proof.
  induction l as [|x r IH]; simpl; [reflexivity | rewrite IH; reflexivity].
Qed.

Lemma add_loop_run (vimvar : string) (items : list string) (w : World) :
  add_loop vimvar items w
  = (Ret tt, add_outputs (adding_items vimvar items) w).
Proof.
  revert w. induction items as [|x r IH]; intros w.
  - unfold add_outputs. simpl. unfold ret. rewrite app_nil_r.
    destruct w; reflexivity.
  - simpl. unfold bind at 1, vim_command at 1, modify at 1.
    rewrite IH. unfold add_outputs, add_output. simpl.
    rewrite <- app_assoc. reflexivity.
Qed.

(** [vim_which_ext] lists every file once, in order. When the subprocess
    answers [which with_ext] with a list of file names, the editor is told
    to empty the list and then to add names to it one by one; the names
    added are those of the answer, each exactly once however often the
    answer repeats it, in increasing order. *)
Theorem vim_which_ext_sorted (ext vimvar : string) (w : World) (p : Pipe)
  (files : list string) :
  live w = Some p ->
  dispatch (subprocess (pflags p) (received p ++ [which_ext_query ext]))
  = Ret (VList (map VStr files)) ->
  exists names w',
    vim_which_ext popen_ok subprocess ext vimvar w = (Ret tt, w') /\
    output w' =
      (output w ++ VimCommand ("let " ++ vimvar ++ " = []")
                   :: adding_items vimvar names)%list /\
    Sorted.StronglySorted str_lt names /\
    forall f, In f names <-> In f files.
Proof.
  intros L A. exists (sorted_set files). eexists.
  split; [|split; [|split]].
  - unfold vim_which_ext, command_which_with_ext.
    unfold bind at 1. rewrite (send_command_run _ _ _ L).
    fold (which_ext_query ext). rewrite A.
    unfold bind at 1, vim_command at 1, modify at 1.
    unfold bind at 1, lift at 1, py_iter.
    unfold bind at 1, lift at 1. rewrite as_str_list_strings.
    apply add_loop_run.
  - simpl. rewrite <- app_assoc. reflexivity.
  - apply sorted_set_sorted.
  - apply sorted_set_in.
Qed.


(** ** The Denite source *)

Variable vim_call : string -> list value -> value.

Lemma dict_set_lookup (k : string) (v : value) (kv : list (string * value)) :
  assoc k (dict_set k v kv) = Some v.
Proof.
  induction kv as [|[k' x] r IH]; simpl.
  - rewrite String.eqb_refl. reflexivity.
  - destruct (String.eqb k k') eqn:E; simpl.
    + rewrite String.eqb_refl. reflexivity.
    + rewrite E. exact IH.
Qed.

Lemma candidates_run (ids : list value) :
  Forall (fun id => exists name kind,
            py_key id "name" = Ret (VStr name) /\
            py_key id "kind" = Ret (VStr kind)) ids ->
  exists cs,
    candidates ids = Ret cs /\
    List.length cs = List.length ids /\
    forall i id, nth_error ids i = Some id ->
      exists name kind,
        py_key id "name" = Ret (VStr name) /\
        py_key id "kind" = Ret (VStr kind) /\
        nth_error cs i
        = Some (VDict [("word", VStr name);
                       ("abbr", VStr (kind ++ ": " ++ name))]).
Proof.
  induction 1 as [|id rest (name & kind & N & K) _ (cs & C & Ln & Nth)].
  - exists []. repeat split. intros [|i] id H; discriminate.
  - exists (VDict [("word", VStr name);
                   ("abbr", VStr (kind ++ ": " ++ name))] :: cs).
    split; [|split].
    + cbn [candidates]. unfold candidate, obind. rewrite N, K. simpl.
      rewrite C. reflexivity.
    + simpl. rewrite Ln. reflexivity.
    + intros [|i] id' H; simpl in H.
      * inversion H; subst id'. exists name, kind. repeat split; assumption.
      * apply Nth. exact H.
Qed.

(** The Denite source asks at the cursor and keeps the order. After
    [on_init] has stored the cursor in the context, whatever was stored
    there before, [gather_candidates] asks the editor for the identifiers
    at [line:col] of that cursor; when the answer is a list of objects
    with a name and a kind that are strings, it returns one candidate for
    each, in the order of the answer, whose word is the name and whose
    abbreviation is the kind, a colon and a blank, and the name. *)
Theorem gather_candidates_after_init (cursor : Z * Z) (context context' : value)
  (ids : list value) :
  on_init cursor context = Ret context' ->
  vim_call "merlin#ListIdentifiers"
    [VStr (fmt_int (fst cursor) ++ ":" ++ fmt_int (snd cursor))]
  = VList ids ->
  Forall (fun id => exists name kind,
            py_key id "name" = Ret (VStr name) /\
            py_key id "kind" = Ret (VStr kind)) ids ->
  exists cs,
    gather_candidates py_repr vim_call context' = Ret (VList cs) /\
    List.length cs = List.length ids /\
    forall i id, nth_error ids i = Some id ->
      exists name kind,
        py_key id "name" = Ret (VStr name) /\
        py_key id "kind" = Ret (VStr kind) /\
        nth_error cs i
        = Some (VDict [("word", VStr name);
                       ("abbr", VStr (kind ++ ": " ++ name))]).
Proof.
  intros I A Wf.
  destruct context as [| | | | |kv]; try discriminate.
  simpl in I. injection I as I. subst context'.
  destruct (candidates_run ids Wf) as (cs & C & Ln & Nth).
  exists cs. split; [|split; assumption].
  assert (P0 : py_index (VList [VInt (fst cursor); VInt (snd cursor)]) 0
               = Ret (VInt (fst cursor))) by reflexivity.
  assert (P1 : py_index (VList [VInt (fst cursor); VInt (snd cursor)]) 1
               = Ret (VInt (snd cursor))) by reflexivity.
  unfold gather_candidates, py_key. rewrite dict_set_lookup.
  unfold obind at 1. rewrite P0.
  do 2 (unfold obind at 1; cbv beta iota). rewrite P1.
  unfold obind at 1. cbn [format_item]. cbv zeta.
  rewrite A. cbn [py_iter obind]. rewrite C. reflexivity.
Qed.


(** ** The list variable when the command fails *)

(** What is left in the editor when the subprocess answers with a failure,
    an error or an exception. [vim_find_list] and [vim_which_ext] send
    their command first: the exception goes on to the caller and the
    editor has been told nothing, so the variable still holds what it
    held. [vim_loclist] empties the variable first: the exception goes on
    to the caller with the list already emptied. *)
Theorem list_variable_on_failure (ext vimvar ig : string) (w : World)
  (p : Pipe) (e : exn) :
  live w = Some p ->
  (dispatch (subprocess (pflags p) (received p ++ [find_list_query]))
   = Raise e ->
   vim_find_list popen_ok subprocess py_repr vimvar w
   = (Raise e, after_send find_list_query p w)) /\
  (dispatch (subprocess (pflags p) (received p ++ [which_ext_query ext]))
   = Raise e ->
   vim_which_ext popen_ok subprocess ext vimvar w
   = (Raise e, after_send (which_ext_query ext) p w)) /\
  (dispatch (subprocess (pflags p) (received p ++ [errors_query]))
   = Raise e ->
   loclist vimvar ig w
   = (Raise e,
      after_send errors_query p
        (add_output (VimCommand ("let " ++ vimvar ++ " = []")) w))).
Proof.
  intros L. split; [|split]; intros A.
  - unfold vim_find_list, command_find_list.
    apply bind_raise. rewrite (send_command_run _ _ _ L).
    fold find_list_query. rewrite A. reflexivity.
  - unfold vim_which_ext, command_which_with_ext.
    apply bind_raise. rewrite (send_command_run _ _ _ L).
    fold (which_ext_query ext). rewrite A. reflexivity.
  - unfold vim_loclist, command_report_errors.
    unfold bind at 1, vim_command at 1, modify at 1.
    apply bind_raise.
    assert (L1 : live (add_output (VimCommand ("let " ++ vimvar ++ " = []"))
                         w) = Some p) by exact L.
    rewrite (send_command_run _ _ _ L1).
    fold errors_query. rewrite A. reflexivity.
Qed.

End Properties.

(** ** Examples *)

Lemma always_ok_live (w : World) : exists p, live_pipe always_ok w = Some p.
Proof.
  unfold live_pipe, needs_restart, always_ok.
  destruct (mainpipe w) as [q|]; [destruct (exited q)|]; eexists; reflexivity.
Qed.

Lemma stub_tell sl sc tellv other fl h kind content :
  stub sl sc tellv other fl (h ++ [tell_cmd kind content])
  = [VStr "return"; tellv].
Proof. unfold stub. rewrite last_last. reflexivity. Qed.

(** Against a subprocess that always wants more, the loop never ends. *)
Lemma tell_loop_hungry (fuel : nat) (lines : list string) (max_line : Z) :
  forall kind content end_line w,
    fst (tell_loop always_ok stub_hungry fuel lines max_line kind content
           end_line w) = Timeout.
Proof.
  induction fuel as [|fuel IH]; intros kind content end_line w;
    [reflexivity|].
  destruct (always_ok_live w) as [p L].
  rewrite (tell_loop_step _ _ _ _ _ _ _ _ _ _ L). cbv zeta.
  unfold stub_hungry at 1. rewrite stub_tell. simpl.
  destruct (end_line <? max_line); apply IH.
Qed.

(** The subprocess answers [["error", "boom"]]: [send_command] raises
    [Error("boom")]. *)
Lemma send_command_outcome_witness :
  fst (send_command always_ok (stub 1 0 VNone [VStr "error"; VStr "boom"])
         [VStr "dump"] (initial ed3))
  = Raise (MerlinExc (Error (VStr "boom"))).
Proof.
  apply (send_command_outcome always_ok
           (stub 1 0 VNone [VStr "error"; VStr "boom"])
           (initial ed3) [VStr "dump"] (VStr "error") [VStr "boom"]);
    reflexivity.
Defined.

(** C1 as stated fails: the subprocess answers [["bogus", 1]], a tag outside
    the four, and [send_command] returns [None] without raising. *)
Lemma send_command_unknown_tag :
  response always_ok (stub 1 0 VNone [VStr "bogus"; VInt 1])
    (initial ed3) [VStr "dump"] = Some [VStr "bogus"; VInt 1] /\
  fst (send_command always_ok (stub 1 0 VNone [VStr "bogus"; VInt 1])
         [VStr "dump"] (initial ed3)) = Ret VNone.
Proof. split; reflexivity. Qed.

(** The second [sync_buffer_to(3, 0)] in [ed3]: the subprocess answers the
    seek with line 2, column 4, and is told the rest of line 2 and line 3. *)
Lemma sync_buffer_to_with_mark_witness :
  sends_first
    [seek_cmd "before" 3 0;
     [VStr "tell"; VStr "struct";
      VStr ("y = 2" ++ nl ++ "let z = x + y" ++ nl)]]
    (sync_buffer_to always_ok stub_inc 1 3 0) w_synced.
Proof.
  destruct (sync_buffer_to_with_mark always_ok stub_inc 0 3 0 w_synced
              (mkSync 1 0) p_synced 2 4 eq_refl eq_refl eq_refl
              ltac:(lia) ltac:(lia) eq_refl)
    as (_ & _ & H).
  exact (H ltac:(lia) "let y = 2" eq_refl).
Defined.



Lemma stub_eof_satisfied (fl : list string) : satisfied_at_eof stub_eof fl.
Proof.
  intros h v H. unfold stub_eof in H. rewrite last_last in H.
  simpl in H. inversion H. reflexivity.
Qed.

(** The loop on the 25 lines of [ed25], 5 of them fed, against a subprocess
    that is satisfied only at the end of the input: the first chunk, one
    window with the 20 lines left, one tell without lines, and the loop
    returns. *)
Lemma feed_loop_rounds_witness :
  let run := tell_loop always_ok stub_eof 3 (cb ed25) 25 "struct"
               (Some (firstn 5 (cb ed25))) 5 (initial ed25) in
  exists k m : nat,
    let plan :=
      feed_plan (cb ed25) 25 5 "struct" (Some (firstn 5 (cb ed25))) k m in
    sent (snd run) = plan /\
    feed_outcome stub_eof (mkPipe [] [] false) plan 2 (fst run) /\
    (k <= 1)%nat /\ (m <= 1)%nat /\ fst run <> Timeout.
Proof.
  destruct (feed_loop_rounds always_ok stub_eof 2 (cb ed25) "struct"
              (Some (firstn 5 (cb ed25))) 5 (initial ed25)
              (mkPipe [] [] false) eq_refl ltac:(lia)
              ltac:(vm_compute; discriminate))
    as (_ & _ & k & m & Hk & _ & Hs & Ho & _ & _ & _ & He).
  exists k, m. cbv zeta.
  destruct (He (stub_eof_satisfied [])) as [Hm Hn].
  split; [exact Hs|]. split; [exact Ho|].
  split; [exact Hk|]. split; [exact Hm|].
  apply Hn. vm_compute. lia.
Defined.

(** C4 as stated fails. The three lines of [ed3] are all fed
    ([end_line = max_line = 3]) and the subprocess still wants more: the
    loop does not stop, it sends one tell without lines after the other,
    whatever the fuel. And lines are sent again: in the buffer of 30 lines,
    synchronised to line 5 from a mark to which the subprocess answers
    line 10, the first chunk is line 10 and the window that follows holds
    lines 6 to 25, line 10 among them. *)
Lemma feed_loop_goes_on :
  sent (snd (tell_loop always_ok stub_hungry 4 (cb ed3) 3 "struct"
               (Some (cb ed3)) 3 (initial ed3)))
  = [tell_cmd "struct" (Some (cb ed3)); tell_cmd "end" None;
     tell_cmd "end" None; tell_cmd "end" None] /\
  (forall fuel,
     fst (tell_loop always_ok stub_hungry fuel (cb ed3) 3 "struct"
            (Some (cb ed3)) 3 (initial ed3)) = Timeout) /\
  sent (snd (sync_buffer_to always_ok stub_far 3 5 0 w_marked30))
  = [seek_cmd "before" 5 0;
     [VStr "tell"; VStr "struct"; VStr (lines_text ["l10"])];
     [VStr "tell"; VStr "end";
      VStr (lines_text (lines_between (cb ed30) 5 25))];
     seek_cmd "exact" 5 0] /\
  In "l10" (lines_between (cb ed30) 5 25).
Proof.
  split; [reflexivity|].
  split; [intros fuel; apply tell_loop_hungry|].
  split; [vm_compute; reflexivity|].
  vm_compute. tauto.
Qed.





(** The span from line 1, column 0 to line 3, column 0: its pattern ends the
    first two branches before column 4243. *)
Lemma hard_matcher_column_bound_witness :
  make_matcher (mkPos 1 0) (mkPos 3 0)
  = "\%>0l\%<2l\%<4243c\|\%>1l\%<3l\%<4243c\|\%>2l\%<4l\%<1c".
Proof.
  destruct (hard_matcher_column_bound (mkPos 1 0) (mkPos 3 0)
              ltac:(simpl; lia) ltac:(simpl; lia)) as (A & B & _).
  rewrite A, B. reflexivity.
Defined.

(** From the sentinel 2 of the two frames: two steps backward reach index 0,
    the third reaches -1 and shows nothing. *)
Lemma navigator_bounds_witness :
  let w1 := do_steps stub_repr "w:enclosing_zone" (repeat Backward 2)
              (w_nav 2) in
  let w2 := do_step stub_repr "w:enclosing_zone" Backward w1 in
  current_enclosing w1 = 0 /\
  current_enclosing w2 = -1 /\ output w2 = output w1.
Proof.
  destruct (navigator_bounds stub_repr "w:enclosing_zone" [frameA; frameB]
              (w_nav 2) eq_refl ltac:(simpl; lia)) as (_ & _ & _ & H & _).
  apply H; [discriminate | reflexivity].
Defined.

(** C5 as stated fails. From the sentinel 2 of the two frames, two steps
    backward do not return to -1: they end on index 0, and the second of
    them shows the frame there. *)
Lemma navigator_backward_n_steps :
  current_enclosing
    (do_steps stub_repr "w:enclosing_zone" [Backward; Backward] (w_nav 2))
  = 0 /\
  output
    (do_steps stub_repr "w:enclosing_zone" [Backward; Backward] (w_nav 2))
  = (output (do_steps stub_repr "w:enclosing_zone" [Backward] (w_nav 2))
     ++ [VimCommand
           "let w:enclosing_zone = matchadd('EnclosingExpr', '\%>0l\%<2l\%<6c')";
         Print "int"])%list.
Proof. split; reflexivity. Qed.

(** [vim_type_enclosing] in [ed3] against [stub_frames]: the two frames are
    stored, the index is 0 and the first frame is shown. *)
Lemma vim_type_enclosing_stores_witness :
  let r := vim_type_enclosing always_ok stub_frames stub_repr stub_search 1
             "w:enclosing_zone" None (initial ed3) in
  enclosing_types (snd r) = VList [frameA; frameB] /\
  current_enclosing (snd r) = 0 /\
  fst r = Ret tt /\
  output (snd r)
  = (output w_enclosing
     ++ [VimCommand
           "let w:enclosing_zone = matchadd('EnclosingExpr', '\%>0l\%<2l\%<6c')";
         Print "int"])%list.
Proof.
  destruct (vim_type_enclosing_stores always_ok stub_frames stub_repr
              stub_search 1 "w:enclosing_zone" None (initial ed3)
              w_enclosing (VList [VInt 2; VList [frameA; frameB]])
              frameA [frameB] eq_refl eq_refl eq_refl) as (A & B & _ & C).
  destruct (C (pos_obj 1 0) (pos_obj 1 5) (VStr "int") (mkPos 1 0)
              (mkPos 1 5) eq_refl eq_refl eq_refl eq_refl eq_refl)
    as (D & E).
  repeat split; assumption.
Defined.

(** C7 as stated fails. The query returns the list of the two frames as its
    payload: what is stored is not that list but its second element, the
    frame [frameB], and the step that follows shows nothing and raises
    [KeyError]. *)
Lemma vim_type_enclosing_flat_payload :
  let r := vim_type_enclosing always_ok stub_flat stub_repr stub_search 1
             "w:enclosing_zone" None (initial ed3) in
  enclosing_types (snd r) = frameB /\
  fst r = Raise KeyError /\
  output (snd r) = [].
Proof. repeat split. Qed.

(** [vim_type_enclosing] for the word [foo] in [ed3] against [stub_types]:
    the query for the enclosing types fails, and [vim_type] takes over.
    Against [stub_empty] the query returns the empty list, and the
    subscript raises. *)
Lemma type_lookup_fallback_witness :
  vim_type_enclosing always_ok stub_types stub_repr stub_search 1
    "w:enclosing_zone" (Some "foo") (initial ed3)
  = vim_type always_ok stub_types stub_repr stub_search 1 (Some "foo") true
      (after_send (enclosing_query (3, 0)) p_types w_types) /\
  vim_type_enclosing always_ok stub_empty stub_repr stub_search 1
    "w:enclosing_zone" (Some "foo") (initial ed3)
  = (Raise IndexError, after_send (enclosing_query (3, 0)) p_empty w_empty).
Proof.
  split.
  - destruct (type_lookup_fallback always_ok stub_types stub_repr
                stub_search 1 "w:enclosing_zone" (Some "foo") (initial ed3)
                w_types p_types eq_refl eq_refl) as (A & _).
    exact (A (Failure (VStr "no enclosing")) eq_refl).
  - destruct (type_lookup_fallback always_ok stub_empty stub_repr
                stub_search 1 "w:enclosing_zone" (Some "foo") (initial ed3)
                w_empty p_empty eq_refl eq_refl) as (_ & _ & _ & A & _).
    exact (A eq_refl).
Defined.

(** C9 as stated fails. For the word [foo] the query for the enclosing
    types fails, then the direct query for the type of [foo] fails as well:
    that failure is not printed, a third query without the expression is
    sent, and its answer is all that is shown. *)
Lemma type_lookup_drops_failure :
  let r := vim_type_enclosing always_ok stub_types stub_repr stub_search 1
             "w:enclosing_zone" (Some "foo") (initial ed3) in
  type_queries (sent (snd r))
  = [enclosing_query (3, 0); type_query (Some "foo") (3, 0);
     type_query None (3, 0)] /\
  stub_types [] [type_query (Some "foo") (3, 0)]
  = [VStr "failure"; VStr "unbound"] /\
  fst r = Ret tt /\
  output (snd r) = [Write "(approx) "; Print "int"].
Proof. repeat split. Qed.

(** The two examples of the specification. A buffer of 25 lines without a
    mark is reset and told in one chunk to a subprocess that is satisfied
    at once. *)
Example sync_25_lines :
  let r := sync_buffer_to always_ok stub_inc 1 25 0 (initial ed25) in
  fst r = Ret tt /\
  sent (snd r)
  = [reset_cmd "b.ml"; tell_cmd "struct" (Some (repeat "let _ = ()" 25));
     seek_cmd "exact" 25 0].
Proof. split; vm_compute; reflexivity. Qed.

(** From index -1 on the two frames: the first step forward shows the
    first frame, the second the second, the third nothing, and the index
    stays at 2 from then on. *)
Example navigator_three_steps :
  let v := "w:enclosing_zone" in
  let w1 := do_step stub_repr v Forward (w_nav (-1)) in
  let w2 := do_step stub_repr v Forward w1 in
  let w3 := do_step stub_repr v Forward w2 in
  let w4 := do_step stub_repr v Forward w3 in
  map current_enclosing [w1; w2; w3; w4] = [0; 1; 2; 2] /\
  output w1
  = [VimCommand "let w:enclosing_zone = matchadd('EnclosingExpr', '\%>0l\%<2l\%<6c')";
     Print "int"] /\
  output w2
  = (output w1
     ++ [VimCommand "let w:enclosing_zone = matchadd('EnclosingExpr', '\%>0l\%<2l\%<4243c\|\%>1l\%<3l\%<4243c\|\%>2l\%<4l\%<1c')";
         Print "int -> int"])%list /\
  output w3 = output w2 /\ output w4 = output w2.
Proof. vm_compute. repeat split. Qed.

(** ** Examples for the further properties *)

(** A world in which [ocamlmerlin] cannot be started. *)
Lemma send_command_spawn_failure_witness :
  fst (send_command (fun _ => false) stub_inc [VStr "refresh"] (initial ed3))
  = Raise OSError.
Proof.
  exact (proj1 (send_command_spawn_failure (fun _ => false) stub_inc
                  [VStr "refresh"] (initial ed3) eq_refl eq_refl)).
Defined.

(** A response of three elements loses its payload. *)
Lemma send_command_odd_responses_witness :
  fst (send_command always_ok
         (stub 1 0 VNone [VStr "return"; VInt 1; VInt 2])
         [VStr "refresh"] (initial ed3))
  = Ret VNone.
Proof.
  destruct (send_command_odd_responses always_ok
              (stub 1 0 VNone [VStr "return"; VInt 1; VInt 2])
              [VStr "refresh"] (initial ed3)
              [VStr "return"; VInt 1; VInt 2] eq_refl) as (_ & _ & H).
  destruct (H (VStr "return") (VInt 1) (VInt 2) [] eq_refl) as (A & _).
  exact (A eq_refl).
Defined.

(** Against a subprocess that keeps asking for more, the first
    [sync_buffer_to] in [ed3] runs out of fuel, and has left the token as
    the mark all the same. *)
Lemma sync_buffer_to_mark_example :
  let r := sync_buffer_to always_ok
             (stub 1 0 VNone [VStr "return"; VNone]) 1 3 0 (initial ed3) in
  fst r = Timeout /\ saved_sync (snd r) = Some (mkSync 1 0).
Proof. vm_compute. split; reflexivity. Qed.

Lemma sync_buffer_to_ends_with_seek_witness :
  exists before,
    sent w_synced = (before ++ [seek_cmd "exact" 3 0])%list.
Proof.
  destruct (sync_buffer_to_ends_with_seek always_ok stub_inc 1 3 0
              (initial ed3) w_synced eq_refl)
    as (before & p & position & l & c & H & _).
  exists before. exact H.
Defined.


Lemma sync_full_buffer_tells_all_witness :
  sends_first
    [reset_cmd "/home/u/a.ml";
     tell_cmd "struct" (Some ["let x = 1"; "let y = 2"; "let z = x + y"])]
    (sync_full_buffer always_ok stub_inc 1) (initial ed3).
Proof.
  exact (sync_full_buffer_tells_all always_ok stub_inc 0 (initial ed3)
           (mkPipe [] [] false) (pos_obj 1 0) "let x = 1"
           ["let y = 2"; "let z = x + y"] eq_refl eq_refl eq_refl eq_refl).
Defined.

(** In the buffer of 25 lines, none fed: two windows, which together carry
    the text of the 25 lines. *)
Lemma telling_in_chunks_witness :
  String.concat ""
    (map (fun i => lines_text (window (cb ed25) 25 0 i)) (seq 0 2))
  = lines_text (cb ed25).
Proof.
  destruct (telling_in_chunks (cb ed25) 0 2 ltac:(lia) ltac:(simpl; lia)
              ltac:(vm_compute; lia)) as [_ H].
  exact H.
Defined.

(** The navigator at the sentinel of the two frames is in order, and stays
    so after a step backward. *)
Lemma navigator_stays_in_order_witness :
  navigator_ok (do_step stub_repr "w:enclosing_zone" Backward (w_nav 2)).
Proof.
  destruct (navigator_stays_in_order always_ok stub_inc stub_repr
              stub_search ed3 1 "w:enclosing_zone" None Backward (w_nav 2))
    as (_ & _ & H).
  apply H. split; [simpl; lia|]. right. exists 2.
  split; [reflexivity | simpl; lia].
Defined.

(** The span from column 0 to column 5 of line 1. *)
Lemma easy_matcher_exact_witness :
  exists r : Region,
    make_matcher (mkPos 1 0) (mkPos 1 5) = show_region r /\
    forall l c : Z,
      1 <= c -> (in_region r l c = true <-> l = 1 /\ 0 < c <= 5).
Proof.
  exact (easy_matcher_exact (mkPos 1 0) (mkPos 1 5) ltac:(simpl; lia)
           eq_refl ltac:(simpl; lia)).
Defined.

(** The span from line 1 to line 2: the branch of the lines between is
    empty. *)
Lemma hard_matcher_exact_witness :
  exists first middle last : Region,
    make_matcher (mkPos 1 0) (mkPos 2 3)
    = show_region first ++ "\|" ++ show_region middle ++ "\|"
      ++ show_region last /\
    forall l c : Z, in_region middle l c = false.
Proof.
  destruct (hard_matcher_exact (mkPos 1 0) (mkPos 2 3) ltac:(simpl; lia)
              ltac:(simpl; lia) ltac:(simpl; lia))
    as (f & m & l & A & _ & B).
  exists f, m, l. split; [exact A | exact (B eq_refl)].
Defined.

(** A failure of [find use] goes through [vim_use] unprinted. *)
Lemma vim_use_outcomes_witness :
  let r := vim_use always_ok (stub 1 0 VNone [VStr "failure"; VStr "no"])
             stub_repr stub_search ["lwt"] (initial ed3) in
  fst r = Raise (MerlinExc (Failure (VStr "no"))) /\ output (snd r) = [].
Proof.
  destruct (vim_use_outcomes always_ok
              (stub 1 0 VNone [VStr "failure"; VStr "no"]) stub_repr
              stub_search ["lwt"] (initial ed3) (mkPipe [] [] false)
              eq_refl) as (_ & _ & _ & H & _).
  exact (H (VStr "no") eq_refl).
Defined.

(** The project file two levels above [/home/u/src] is the one loaded. *)
Lemma load_project_nearest_witness :
  sent (snd (load_project always_ok (stub 1 0 VNone [VStr "return"; VNone])
               stub_exists stub_join stub_split "/home/u/src" 3
               (initial ed3)))
  = [project_load_cmd "/home/.merlin"; [VStr "reset"]].
Proof.
  destruct (load_project_nearest always_ok
              (stub 1 0 VNone [VStr "return"; VNone])
              stub_exists stub_join stub_split "/home/u/src" 3 2
              (initial ed3) ltac:(lia)) as [_ H].
  - intros [|[|j]] Lj; [split; [reflexivity | discriminate] ..| lia].
  - reflexivity.
  - exact (proj1 (H _ eq_refl)).
Defined.

(** With [maxdepth] 1 the project file in [/home] is out of reach. *)
Lemma load_project_bounded_witness :
  load_project always_ok (stub 1 0 VNone [VStr "return"; VNone])
    stub_exists stub_join stub_split "/home/u/src" 1 (initial ed3)
  = (Ret tt, initial ed3).
Proof.
  apply load_project_bounded.
  intros [|[|j]] Lj; [reflexivity | reflexivity | lia].
Defined.

(** The phrases (1, 4)-(1, 9) and (2, 2)-(3, 1) give the selection from
    line 1, column 2 to line 3, column 9. *)
Lemma vim_selectphrase_box_witness :
  vim_selectphrase always_ok (stub_phrase far_phrase) stub_eval stub_int 1
    "l1" "c1" "l2" "c2" (initial ed3)
  = (Ret tt,
     add_output (VimCommand "let c2 = 9")
       (add_output (VimCommand "let c1 = 2")
          (add_output (VimCommand "let l2 = 3")
             (add_output (VimCommand "let l1 = 1") w_sel5)))).
Proof.
  refine (vim_selectphrase_box always_ok (stub_phrase far_phrase) stub_eval
            stub_int 1 "l1" "c1" "l2" "c2" 1 0 3 0
            (initial ed3) w_sel1 w_sel2 w_sel3 w_sel4 w_sel5
            (VInt 1, VInt 0) (VInt 1, VInt 0) 1 4 1 9 2 2 3 1
            _ _ _ _ (or_introl _) _ _ _ _ _);
    first [discriminate | vm_compute; reflexivity].
Defined.

(** No phrase at the second point: nothing is set, although the first
    point has one. *)
Lemma vim_selectphrase_no_boundary_witness :
  vim_selectphrase always_ok (stub_phrase VNone) stub_eval stub_int 1
    "l1" "c1" "l2" "c2" (initial ed3)
  = (Ret tt, w_none5) /\ output w_none5 = [].
Proof.
  split; [|reflexivity].
  refine (vim_selectphrase_no_boundary always_ok (stub_phrase VNone)
            stub_eval stub_int 1 "l1" "c1" "l2" "c2" 1 0 3 0
            (initial ed3) w_none1 w_none2 w_none3 w_none4 w_none5
            (VInt 1, VInt 0) (VInt 1, VInt 0)
            (VList [pos_obj 1 4; pos_obj 1 9])
            _ _ _ _ (or_introl _) _ _ _ _ _);
    first [discriminate | vm_compute; reflexivity].
Defined.

(** The fields of [prop_quoted], whose kind begins with a character of
    two bytes. *)
Lemma complete_entry_reads_back_witness :
  exists a b c d,
    complete_entry prop_quoted (initial ed3)
    = (Ret ("let l:tmp = {'word':'" ++ a ++ "','menu':'" ++ b
            ++ "','info':'" ++ c ++ "','kind':'" ++ d ++ "'}"),
       initial ed3) /\
    vim_literal a = Some "f'" /\
    vim_literal b = Some "'a -> 'a" /\
    vim_literal c = Some "it's" /\
    vim_literal d = Some e_acute.
Proof.
  refine (complete_entry_reads_back prop_quoted "f'" "'a -> 'a" "it's"
            (e_acute ++ "tat") e_acute (initial ed3)
            eq_refl eq_refl eq_refl eq_refl _).
  right. exists "tat". split; [reflexivity|].
  split.
  - apply char_2; unfold tail_byte;
      change (nat_of_ascii (ascii_of_nat 195)) with 195%nat;
      change (nat_of_ascii (ascii_of_nat 169)) with 169%nat; lia.
  - unfold begins_char, tail_byte. cbn [append].
    change (nat_of_ascii "t") with 116%nat. lia.
Defined.

(** Of the three reports the warning is left out, and two entries are
    shown; the second, number 1, is the one of the third report. *)
Lemma vim_loclist_numbers_witness :
  exists texts w',
    vim_loclist always_ok stub_errors stub_eval "v"
      "g:merlin_ignore_warnings" (initial ed3) = (Ret tt, w') /\
    List.length texts = 2%nat /\
    exists t,
      nth_error texts 1 = Some t /\
      loclist_line 1 1 report_parser t.
Proof.
  destruct (vim_loclist_numbers always_ok stub_errors stub_eval "v"
              "g:merlin_ignore_warnings" (initial ed3) (mkPipe [] [] false)
              [report_warning; report_type; report_parser]
              eq_refl eq_refl
              ltac:(repeat constructor))
    as (texts & w' & R & _ & Ln & Nth).
  exists texts, w'. split; [exact R | split; [exact Ln|]].
  exact (Nth 1%nat report_parser eq_refl).
Defined.

(** The text of the entry of [report_type]. *)
Lemma loclist_text_reads_back_witness :
  exists before text ty message,
    fst (loclist_entry 1 0 report_type (initial ed3))
    = Ret (before ++ "'text':'" ++ text ++ "','type':'" ++ ty
           ++ "','valid':1}")
    /\ py_key report_type "message" = Ret (VStr message)
    /\ vim_literal text = Some (str_replace nl " " message).
Proof.
  destruct (loclist_text_reads_back 1 0 report_type (initial ed3)
              (initial ed3) _ eq_refl)
    as (before & text & ty & message & E & M & V).
  exists before, text, ty, message.
  split; [|split; assumption].
  simpl fst. f_equal. exact E.
Defined.

(** Four names, one of them twice: three are added, in order. *)
Lemma vim_which_ext_sorted_witness :
  exists names w',
    vim_which_ext always_ok stub_files "ml" "v" (initial ed3)
    = (Ret tt, w') /\
    Sorted.StronglySorted str_lt names /\
    forall f, In f names <-> In f ["list"; "array"; "list"; "bytes"].
Proof.
  destruct (vim_which_ext_sorted always_ok stub_files "ml" "v"
              (initial ed3) (mkPipe [] [] false)
              ["list"; "array"; "list"; "bytes"] eq_refl eq_refl)
    as (names & w' & R & _ & S & I).
  exists names, w'. split; [exact R | split; [exact S | exact I]].
Defined.

(** The two identifiers of [stub_call], asked for at 3:0. *)
Lemma gather_candidates_after_init_witness :
  exists cs,
    gather_candidates stub_repr stub_call
      (VDict [("__cursor_pos", VList [VInt 3; VInt 0])])
    = Ret (VList cs) /\
    List.length cs = 2%nat.
Proof.
  destruct (gather_candidates_after_init stub_repr stub_call (3, 0)
              (VDict []) _
              [VDict [("name", VStr "map"); ("kind", VStr "Value")];
               VDict [("name", VStr "t"); ("kind", VStr "Type")]]
              eq_refl eq_refl)
    as (cs & G & Ln & _).
  - repeat constructor; eexists; eexists; split; reflexivity.
  - exists cs. split; [exact G | exact Ln].
Defined.


(** A subprocess that fails: the list of errors is emptied, the list of
    packages is not touched. *)
Lemma list_variable_on_failure_witness :
  let failing := stub 1 0 VNone [VStr "failure"; VStr "no"] in
  output (snd (vim_find_list always_ok failing stub_repr "v" (initial ed3)))
  = [] /\
  output (snd (vim_loclist always_ok failing stub_eval "v" "ig"
                 (initial ed3)))
  = [VimCommand "let v = []"].
Proof.
  intros failing.
  destruct (list_variable_on_failure always_ok failing stub_repr stub_eval
              "ml" "v" "ig" (initial ed3) (mkPipe [] [] false)
              (MerlinExc (Failure (VStr "no"))) eq_refl) as (F & _ & E).
  rewrite (F eq_refl), (E eq_refl). split; reflexivity.
Defined.
